(** * Forecasting service: predictor and strategizer

    A shallow embedding of
    [services/forecasting/app/services/predictor.py],
    [services/forecasting/app/services/strategizer.py] and
    [services/forecasting/app/models/forecast.py].

    Python numbers are modelled as they behave at run time (CPython 3.11):
    [int] is an unbounded integer ([Z]); [float] is an IEEE-754 binary64
    value, given by the executable specification [spec_float] of the Standard
    Library with precision 53 and maximal exponent 1024.  Operations that can
    raise return in the error monad [result].

    Conventions:
    - a pydantic [int] field holds a Python int, a [float] field a float;
    - [sum] adds from the int [0], left to right (CPython up to 3.11; from
      3.12 on the float sum is compensated, which none of the theorems
      below depends on);
    - [x ** 2] on a float is the correctly rounded square;
    - [statistics.mean] and [statistics.variance] compute exactly on ints
      and convert the exact result;
    - [datetime.now().isoformat()] is the parameter [now] of [predict];
    - [async def predict] is modelled as the function of its result. *)

From Stdlib Require Import ZArith List String Bool Lia DecimalString.
From Stdlib Require Import Floats.SpecFloat.
Import ListNotations.

Local Open Scope Z_scope.

(** ** Exceptions *)

Module Py.

Inductive exn : Type :=
| OverflowError
| ValueError
| ZeroDivisionError
| IndexError
| StatisticsError.

Inductive result (A : Type) : Type :=
| Ok (a : A)
| Raise (e : exn).

Arguments Ok {A} a.
Arguments Raise {A} e.

Definition bind {A B : Type} (c : result A) (k : A -> result B) : result B :=
  match c with
  | Ok a => k a
  | Raise e => Raise e
  end.

Notation "x <- c ;; k" := (bind c (fun x => k))
  (at level 61, c at next level, right associativity).

(** Left-to-right traversals of a list with an effectful body: the [for]
    loops and generator expressions of the source. *)
Fixpoint mapM {A B : Type} (f : A -> result B) (l : list A) : result (list B) :=
  match l with
  | [] => Ok []
  | x :: xs => y <- f x ;; ys <- mapM f xs ;; Ok (y :: ys)
  end.

Fixpoint foldM {A B : Type} (f : A -> B -> result A) (a : A) (l : list B)
  : result A :=
  match l with
  | [] => Ok a
  | x :: xs => a' <- f a x ;; foldM f a' xs
  end.

(** ** binary64 floats *)

Definition prec : Z := 53.
Definition emax : Z := 1024.

Definition float : Type := spec_float.

Definition fadd : float -> float -> float := SFadd prec emax.
Definition fsub : float -> float -> float := SFsub prec emax.
Definition fmul : float -> float -> float := SFmul prec emax.
Definition fdiv : float -> float -> float := SFdiv prec emax.
Definition fsqrt : float -> float := SFsqrt prec emax.
Definition fleb : float -> float -> bool := SFleb.

Definition is_inf (f : float) : bool :=
  match f with
  | S754_infinity _ => true
  | _ => false
  end.

Definition is_zero (f : float) : bool :=
  match f with
  | S754_zero _ => true
  | _ => false
  end.

(** The float nearest to an integer (ties to even); infinite when the integer
    is out of range. *)
Definition Z2F (z : Z) : float := binary_normalize prec emax z 0 false.

(** A decimal literal [n/d] of the source text, e.g. [0.3] is [dec 3 10]:
    both operands are exact, so the correctly rounded quotient is the float
    that the literal denotes. *)
Definition dec (n d : Z) : float := fdiv (Z2F n) (Z2F d).

(** Implicit conversion of an [int] operand in mixed arithmetic
    ([PyLong_AsDouble]): "int too large to convert to float". *)
Definition float_of_int (z : Z) : result float :=
  let f := Z2F z in
  if is_inf f then Raise OverflowError else Ok f.

(** [a / b] on two ints ([long_true_divide]): the correctly rounded quotient;
    "division by zero" and "integer division result too large for a float". *)
Definition int_truediv (a b : Z) : result float :=
  match b with
  | 0 => Raise ZeroDivisionError
  | _ =>
    match a with
    | 0 => Ok (S754_zero (b <? 0))
    | _ =>
      let q := fdiv (S754_finite (a <? 0) (Z.to_pos (Z.abs a)) 0)
                    (S754_finite (b <? 0) (Z.to_pos (Z.abs b)) 0) in
      if is_inf q then Raise OverflowError else Ok q
    end
  end.

(** [int(x)] on a float: truncation toward zero; infinities and NaN raise. *)
Definition int_of_float (f : float) : result Z :=
  match f with
  | S754_zero _ => Ok 0
  | S754_infinity _ => Raise OverflowError
  | S754_nan => Raise ValueError
  | S754_finite s m e =>
    let a := if 0 <=? e then Z.shiftl (Zpos m) e else Z.shiftr (Zpos m) (- e) in
    Ok (if s then - a else a)
  end.

(** ** The numeric tower: a run-time number is an [int] or a [float] *)

Inductive num : Type :=
| PyInt (z : Z)
| PyFloat (f : float).

Definition to_float (a : num) : result float :=
  match a with
  | PyInt z => float_of_int z
  | PyFloat f => Ok f
  end.

Definition lift2 (fz : Z -> Z -> Z) (ff : float -> float -> float)
  (a b : num) : result num :=
  match a, b with
  | PyInt x, PyInt y => Ok (PyInt (fz x y))
  | _, _ => x <- to_float a ;; y <- to_float b ;; Ok (PyFloat (ff x y))
  end.

Definition add : num -> num -> result num := lift2 Z.add fadd.
Definition sub : num -> num -> result num := lift2 Z.sub fsub.
Definition mul : num -> num -> result num := lift2 Z.mul fmul.

(** True division [a / b]. *)
Definition truediv (a b : num) : result num :=
  match a, b with
  | PyInt x, PyInt y => q <- int_truediv x y ;; Ok (PyFloat q)
  | _, _ =>
    x <- to_float a ;; y <- to_float b ;;
    if is_zero y then Raise ZeroDivisionError else Ok (PyFloat (fdiv x y))
  end.

(** [x ** 2] on a float ([float_pow]): the square, "Numerical result out of
    range" when a finite operand overflows. *)
Definition square (a : num) : result num :=
  match a with
  | PyInt x => Ok (PyInt (x * x))
  | PyFloat x =>
    let y := fmul x x in
    if is_inf y && negb (is_inf x) then Raise OverflowError else Ok (PyFloat y)
  end.

(** Comparison of numbers.  Python compares an int with a float exactly, with
    no conversion of the int: [cmp_int_float] scales both sides to integers. *)
Definition cmp_int_float (z : Z) (f : float) : option comparison :=
  match f with
  | S754_nan => None
  | S754_infinity s => Some (if s then Gt else Lt)
  | S754_zero _ => Some (z ?= 0)
  | S754_finite s m e =>
    let v := if s then Zneg m else Zpos m in
    Some (if 0 <=? e then z ?= Z.shiftl v e else Z.shiftl z (- e) ?= v)
  end.

Definition compare (a b : num) : option comparison :=
  match a, b with
  | PyInt x, PyInt y => Some (x ?= y)
  | PyFloat x, PyFloat y => SFcompare x y
  | PyInt x, PyFloat y => cmp_int_float x y
  | PyFloat x, PyInt y => option_map CompOpp (cmp_int_float y x)
  end.

Definition ltb (a b : num) : bool :=
  match compare a b with
  | Some Lt => true
  | _ => false
  end.

Definition leb (a b : num) : bool :=
  match compare a b with
  | Some (Lt | Eq) => true
  | _ => false
  end.

Definition eqb (a b : num) : bool :=
  match compare a b with
  | Some Eq => true
  | _ => false
  end.

(** [min(a, b)] and [max(a, b)] of the builtins: the first argument is kept
    unless the second is strictly smaller (larger). *)
Definition min (a b : num) : num := if ltb b a then b else a.
Definition max (a b : num) : num := if ltb a b then b else a.

(** [math.sqrt(x)]: the argument is converted to a float; "math domain
    error" below zero. *)
Definition sqrt (a : num) : result num :=
  x <- to_float a ;;
  match x with
  | S754_finite true _ _ | S754_infinity true => Raise ValueError
  | _ => Ok (PyFloat (fsqrt x))
  end.

(** [int(x)] on a number. *)
Definition to_int (a : num) : result Z :=
  match a with
  | PyInt z => Ok z
  | PyFloat f => int_of_float f
  end.

(** [sum(f(x) for x in xs)]: accumulation from the int [0], left to right,
    each term computed when it is consumed. *)
Definition sum_gen {A : Type} (f : A -> result num) (xs : list A) : result num :=
  foldM (fun acc x => t <- f x ;; add acc t) (PyInt 0) xs.

(** [sum(xs)] on a list of ints. *)
Definition sumZ (xs : list Z) : Z := fold_left Z.add xs 0.

Definition len {A : Type} (l : list A) : Z := Z.of_nat (List.length l).

(** The slice [data[s:]]: a negative start counts from the end. *)
Definition slice_from {A : Type} (s : Z) (l : list A) : list A :=
  skipn (Z.to_nat (if s <? 0 then Z.max 0 (len l + s) else s)) l.

(** [range(a, b)]. *)
Definition range (a b : Z) : list Z :=
  map (fun i => a + Z.of_nat i) (seq 0 (Z.to_nat (b - a))).

(** [data[i]] for [0 <= i]. *)
Definition getitem {A : Type} (data : list A) (i : Z) : result A :=
  match nth_error data (Z.to_nat i) with
  | Some x => Ok x
  | None => Raise IndexError
  end.

(** [statistics.mean(data)] on ints: the exact mean, an int when it is
    integral and the nearest float otherwise. *)
Definition mean (data : list Z) : result num :=
  let n := len data in
  if n <? 1 then Raise StatisticsError
  else
    let total := sumZ data in
    if total mod n =? 0 then Ok (PyInt (total / n))
    else q <- int_truediv total n ;; Ok (PyFloat q).

(** [statistics.variance(data)] on ints: the exact sample variance
    [(n * sum(x^2) - sum(x)^2) / n / (n - 1)], an int when it is integral and
    the nearest float otherwise. *)
Definition variance (data : list Z) : result num :=
  let n := len data in
  if n <? 2 then Raise StatisticsError
  else
    let sx := sumZ data in
    let sxx := sumZ (map (fun x => x * x) data) in
    let p := n * sxx - sx * sx in
    let q := n * (n - 1) in
    if p mod q =? 0 then Ok (PyInt (p / q))
    else v <- int_truediv p q ;; Ok (PyFloat v).

End Py.

Import Py.
Local Open Scope string_scope.
Local Open Scope Z_scope.

(** ** models/forecast.py *)

(** A value of a [Dict[str, Any]]. *)
Inductive any : Type :=
| ANone
| ABool (b : bool)
| AInt (z : Z)
| AFloat (f : float)
| AStr (s : string).

(** A dict with string keys, in insertion order. *)
Definition dict : Type := list (string * any).

Fixpoint dict_get (d : dict) (k : string) : option any :=
  match d with
  | [] => None
  | (k', v) :: d' => if String.eqb k k' then Some v else dict_get d' k
  end.

Record SalesHistoryPoint : Type := {
  date : string;
  quantity : Z
}.

Record TrendSignal : Type := {
  keyword : string;
  time : string;
  value : Z
}.

Record RegulationFlag : Type := {
  regulation_id : string;
  relevance_score : float;
  impact : string
}.

Record ForecastInputs : Type := {
  product_id : string;
  sales_history : list SalesHistoryPoint;
  trends_data : option (list TrendSignal);
  regulation_flags : option (list RegulationFlag);
  exogenous_factors : option dict
}.

Record MonthlyForecast : Type := {
  month : Z;
  predicted_quantity : Z;
  confidence_lower : option Z;
  confidence_upper : option Z;
  confidence_score : float
}.

Module Response.
Record ForecastResponse : Type := {
  product_id : string;
  forecast_date : string;
  algorithm : string;
  model_version : string;
  forecasts : list MonthlyForecast;
  metadata : option dict
}.
End Response.
Export Response (ForecastResponse).

(** Truth value of an optional list: [None] and [[]] are false. *)
Definition truthy {A : Type} (o : option (list A)) : bool :=
  match o with
  | Some (_ :: _) => true
  | _ => false
  end.

Definition opt_list {A : Type} (o : option (list A)) : list A :=
  match o with
  | Some l => l
  | None => []
  end.

(** ** services/predictor.py *)

Module ForecastPredictor.

Definition algorithm : string := "ensemble".
Definition model_version : string := "v1.0.0".

(** The float literals of the source. *)
Definition f0_0 : float := S754_zero false.
Definition f1_0 : float := Eval vm_compute in Z2F 1.
Definition f0_3 : float := Eval vm_compute in dec 3 10.
Definition f0_25 : float := Eval vm_compute in dec 25 100.
Definition f0_15 : float := Eval vm_compute in dec 15 100.
Definition f30_44 : float := Eval vm_compute in dec 3044 100.
Definition f0_02 : float := Eval vm_compute in dec 2 100.
Definition f0_05 : float := Eval vm_compute in dec 5 100.
Definition f0_8 : float := Eval vm_compute in dec 8 10.
Definition f1_2 : float := Eval vm_compute in dec 12 10.
Definition f500_0 : float := Eval vm_compute in Z2F 500.
Definition f90_0 : float := Eval vm_compute in Z2F 90.
Definition f0_1 : float := Eval vm_compute in dec 1 10.
Definition f0_5 : float := Eval vm_compute in dec 5 10.

Definition _parse_sales_history (sales_history : list SalesHistoryPoint)
  : list Z :=
  map quantity sales_history.

Definition _simple_moving_average (data : list Z) (period : Z) : result num :=
  let period := if len data <? period then len data else period in
  if period =? 0 then Ok (PyFloat f0_0)
  else truediv (PyInt (sumZ (slice_from (- period) data))) (PyInt period).

Definition _exponential_smoothing (data : list Z) (alpha : float)
  : result num :=
  match data with
  | [] => Ok (PyFloat f0_0)
  | d0 :: rest =>
    foldM (fun result value =>
             a <- mul (PyFloat alpha) (PyInt value) ;;
             c <- sub (PyInt 1) (PyFloat alpha) ;;
             b <- mul c result ;;
             add a b)
          (PyInt d0) rest
  end.

Definition _trend_projection (data : list Z) : result num :=
  if len data <? 2 then
    match data with
    | d0 :: _ => Ok (PyInt d0)
    | [] => Ok (PyFloat f0_0)
    end
  else
    let n := len data in
    x_mean <- truediv (PyInt (n - 1)) (PyInt 2) ;;
    y_mean <- truediv (PyInt (sumZ data)) (PyInt n) ;;
    numerator <-
      sum_gen (fun i =>
                 dx <- sub (PyInt i) x_mean ;;
                 di <- getitem data i ;;
                 dy <- sub (PyInt di) y_mean ;;
                 mul dx dy)
              (range 0 n) ;;
    denominator <-
      sum_gen (fun i => dx <- sub (PyInt i) x_mean ;; square dx) (range 0 n) ;;
    if eqb denominator (PyInt 0) then Ok y_mean
    else
      slope <- truediv numerator denominator ;;
      sx <- mul slope x_mean ;;
      intercept <- sub y_mean sx ;;
      sn <- mul slope (PyInt (n + 6)) ;;
      add intercept sn.

Definition _seasonal_adjustment (data : list Z) : result num :=
  if len data <? 30 then
    if 0 <? len data then truediv (PyInt (sumZ data)) (PyInt (len data))
    else Ok (PyFloat f0_0)
  else truediv (PyInt (sumZ (slice_from (-30) data))) (PyInt 30).

Definition _calculate_base_forecast (sales_data : list Z)
  : result (list num) :=
  sma <- _simple_moving_average sales_data (Z.min 30 (len sales_data)) ;;
  es <- _exponential_smoothing sales_data f0_3 ;;
  trend <- _trend_projection sales_data ;;
  seasonal <- _seasonal_adjustment sales_data ;;
  t1 <- mul sma (PyFloat f0_3) ;;
  t2 <- mul es (PyFloat f0_3) ;;
  s12 <- add t1 t2 ;;
  t3 <- mul trend (PyFloat f0_25) ;;
  s123 <- add s12 t3 ;;
  t4 <- mul seasonal (PyFloat f0_15) ;;
  base_daily <- add s123 t4 ;;
  let days_per_month := PyFloat f30_44 in
  monthly_base <- mul base_daily days_per_month ;;
  mapM (fun month =>
          d <- mul (PyInt (month - 1)) (PyFloat f0_02) ;;
          decay_factor <- sub (PyFloat f1_0) d ;;
          mul monthly_base decay_factor)
       (range 1 13).

Definition _calculate_trend_impact (trends_data : list TrendSignal)
  : result num :=
  match trends_data with
  | [] => Ok (PyFloat f0_0)
  | _ =>
    avg_trend <- truediv (PyInt (sumZ (map value trends_data)))
                         (PyInt (len trends_data)) ;;
    d <- sub avg_trend (PyInt 50) ;;
    truediv d (PyFloat f500_0)
  end.

Definition _calculate_regulation_impact (regulation_flags : list RegulationFlag)
  : result num :=
  match regulation_flags with
  | [] => Ok (PyFloat f0_0)
  | _ =>
    total_impact <-
      foldM (fun total_impact flag =>
               let score := PyFloat (relevance_score flag) in
               if String.eqb (impact flag) "positive" then
                 s <- mul score (PyFloat f0_05) ;; add total_impact s
               else if String.eqb (impact flag) "negative" then
                 s <- mul score (PyFloat f0_05) ;; sub total_impact s
               else Ok total_impact)
            (PyFloat f0_0) regulation_flags ;;
    truediv total_impact (PyInt (len regulation_flags))
  end.

(** The loop [for i in range(len(adjusted)): adjusted[i] *= factor(i)]. *)
Definition scale_each (factor : Z -> result num) (adjusted : list num)
  : result (list num) :=
  mapM (fun ia : Z * num =>
          f <- factor (fst ia) ;; mul (snd ia) f)
       (combine (range 0 (len adjusted)) adjusted).

Definition _apply_exogenous_signals (base_forecasts : list num)
  (trends_data : option (list TrendSignal))
  (regulation_flags : option (list RegulationFlag))
  (exogenous_factors : option dict) : result (list num) :=
  let adjusted := base_forecasts in
  adjusted <-
    (if truthy trends_data then
       trend_impact <- _calculate_trend_impact (opt_list trends_data) ;;
       scale_each (fun i =>
                     d <- mul (PyInt i) (PyFloat f0_05) ;;
                     h <- sub (PyFloat f1_0) d ;;
                     t <- mul trend_impact h ;;
                     add (PyFloat f1_0) t)
                  adjusted
     else Ok adjusted) ;;
  adjusted <-
    (if truthy regulation_flags then
       regulation_impact <-
         _calculate_regulation_impact (opt_list regulation_flags) ;;
       scale_each (fun _ => add (PyFloat f1_0) regulation_impact) adjusted
     else Ok adjusted) ;;
  Ok adjusted.

Definition _calculate_confidence_score (sales_data : list Z) (month : Z)
  : result num :=
  if len sales_data <? 7 then Ok (PyFloat f0_3)
  else
    q <- truediv (PyInt (len sales_data)) (PyFloat f90_0) ;;
    let data_quality := min (PyFloat f1_0) q in
    d <- mul (PyInt (month - 1)) (PyFloat f0_05) ;;
    horizon_decay <- sub (PyFloat f1_0) d ;;
    variability_penalty <-
      (if 1 <? len sales_data then
         variance <- variance sales_data ;;
         mean <- mean sales_data ;;
         cv <- (if ltb (PyInt 0) mean then
                  s <- sqrt variance ;; truediv s mean
                else Ok (PyFloat f1_0)) ;;
         h <- mul cv (PyFloat f0_5) ;;
         p <- sub (PyFloat f1_0) h ;;
         Ok (min (PyFloat f1_0) p)
       else Ok (PyFloat f0_5)) ;;
    c <- mul data_quality horizon_decay ;;
    confidence <- mul c variability_penalty ;;
    Ok (max (PyFloat f0_1) (min (PyFloat f1_0) confidence)).

Definition conservative_month (month : Z) : MonthlyForecast :=
  {| month := month;
     predicted_quantity := 0;
     confidence_lower := Some 0;
     confidence_upper := Some 0;
     confidence_score := f0_1 |}.

(** [now] is the result of [datetime.now().isoformat()]. *)
Definition _generate_conservative_forecast (now : string) (product_id : string)
  : ForecastResponse :=
  {| Response.product_id := product_id;
     Response.forecast_date := now;
     Response.algorithm := "conservative";
     Response.model_version := model_version;
     Response.forecasts := map conservative_month (range 1 13);
     Response.metadata := Some [("insufficient_data", ABool true)] |}.

Definition signal_count {A : Type} (o : option (list A)) : Z :=
  if truthy o then len (opt_list o) else 0.

Definition predict (now : string) (inputs : ForecastInputs)
  : result ForecastResponse :=
  let sales_data := _parse_sales_history (sales_history inputs) in
  if len sales_data <? 7 then
    Ok (_generate_conservative_forecast now (product_id inputs))
  else
    base_forecasts <- _calculate_base_forecast sales_data ;;
    adjusted_forecasts <-
      _apply_exogenous_signals base_forecasts (trends_data inputs)
        (regulation_flags inputs) (exogenous_factors inputs) ;;
    monthly_forecasts <-
      mapM (fun month =>
              forecast <- getitem adjusted_forecasts (month - 1) ;;
              l <- mul forecast (PyFloat f0_8) ;;
              confidence_lower <- to_int l ;;
              u <- mul forecast (PyFloat f1_2) ;;
              confidence_upper <- to_int u ;;
              score <- _calculate_confidence_score sales_data month ;;
              predicted <- to_int forecast ;;
              confidence_score <- to_float score ;;
              Ok {| month := month;
                    predicted_quantity := predicted;
                    confidence_lower := Some confidence_lower;
                    confidence_upper := Some confidence_upper;
                    confidence_score := confidence_score |})
           (range 1 13) ;;
    Ok {| Response.product_id := product_id inputs;
          Response.forecast_date := now;
          Response.algorithm := algorithm;
          Response.model_version := model_version;
          Response.forecasts := monthly_forecasts;
          Response.metadata :=
            Some [("data_points", AInt (len sales_data));
                  ("trends_signals", AInt (signal_count (trends_data inputs)));
                  ("regulation_flags",
                   AInt (signal_count (regulation_flags inputs)))] |}.

End ForecastPredictor.

(** ** services/strategizer.py *)

Module Strategizer.

(** [str(n)] on an int, as an f-string renders it. *)
Definition str (n : Z) : string := NilZero.string_of_int (Z.to_int n).

Module Pricing.
Record t : Type := { action : string; percentage : Z; reason : string }.
End Pricing.

Module Inventory.
Record t : Type := { action : string; quantity : Z; reason : string }.
End Inventory.

Module Marketing.
Record t : Type := { channels : list string; budget : Z; reason : string }.
End Marketing.

Record Actions : Type := {
  pricing : Pricing.t;
  inventory : Inventory.t;
  marketing : Marketing.t
}.

(** The dict returned by the four tier functions. *)
Module Bundle.
Record t : Type := {
  text : string;
  actions : Actions;
  priority : string;
  estimated_impact : list (string * string)
}.
End Bundle.

(** An entry of the list returned by [generate_strategies]. *)
Module Strategy.
Record t : Type := {
  product_id : string;
  month : Z;
  forecast_id : option Z;
  strategy_text : string;
  actions : Actions;
  priority : string;
  estimated_impact : list (string * string)
}.
End Strategy.

Definition _no_demand_strategy (month : Z) : Bundle.t :=
  {| Bundle.text :=
       "Bulan " ++ str month ++ ": Proyeksi permintaan sangat rendah. Pertimbangkan untuk mengurangi stok atau melakukan promosi untuk meningkatkan penjualan.";
     Bundle.actions :=
       {| pricing :=
            {| Pricing.action := "reduce";
               Pricing.percentage := 10;
               Pricing.reason :=
                 "Meningkatkan daya tarik produk dengan harga lebih kompetitif" |};
          inventory :=
            {| Inventory.action := "reduce";
               Inventory.quantity := 0;
               Inventory.reason := "Menghindari overstock" |};
          marketing :=
            {| Marketing.channels := ["social"; "email"];
               Marketing.budget := 200000;
               Marketing.reason := "Meningkatkan awareness produk" |} |};
     Bundle.priority := "low";
     Bundle.estimated_impact :=
       [("sales_increase", "5-10%"); ("cost_reduction", "10-15%")] |}.

Definition _low_demand_strategy (forecast : MonthlyForecast)
  (product_info : option dict) : Bundle.t :=
  {| Bundle.text :=
       "Bulan " ++ str (month forecast)
       ++ ": Proyeksi permintaan rendah ("
       ++ str (predicted_quantity forecast)
       ++ " unit). Fokus pada optimasi stok dan pemasaran bertarget.";
     Bundle.actions :=
       {| pricing :=
            {| Pricing.action := "maintain";
               Pricing.percentage := 0;
               Pricing.reason := "Mempertahankan harga saat ini" |};
          inventory :=
            {| Inventory.action := "optimize";
               Inventory.quantity := predicted_quantity forecast;
               Inventory.reason :=
                 "Menjaga stok sesuai proyeksi ("
                 ++ str (predicted_quantity forecast) ++ " unit)" |};
          marketing :=
            {| Marketing.channels := ["social"];
               Marketing.budget := 300000;
               Marketing.reason := "Meningkatkan visibilitas produk" |} |};
     Bundle.priority := "medium";
     Bundle.estimated_impact :=
       [("sales_increase", "10-15%"); ("inventory_optimization", "20-30%")] |}.

Definition _medium_demand_strategy (forecast : MonthlyForecast)
  (product_info : option dict) : Bundle.t :=
  {| Bundle.text :=
       "Bulan " ++ str (month forecast)
       ++ ": Proyeksi permintaan sedang ("
       ++ str (predicted_quantity forecast)
       ++ " unit). Pertahankan operasi normal dengan monitoring ketat.";
     Bundle.actions :=
       {| pricing :=
            {| Pricing.action := "maintain";
               Pricing.percentage := 0;
               Pricing.reason := "Harga sudah optimal" |};
          inventory :=
            {| Inventory.action := "restock";
               Inventory.quantity := predicted_quantity forecast + 20;
               Inventory.reason :=
                 "Memastikan ketersediaan dengan safety stock" |};
          marketing :=
            {| Marketing.channels := ["social"; "email"];
               Marketing.budget := 500000;
               Marketing.reason := "Mempertahankan momentum penjualan" |} |};
     Bundle.priority := "medium";
     Bundle.estimated_impact :=
       [("sales_stability", "±5%"); ("customer_satisfaction", "High")] |}.

Definition _high_demand_strategy (forecast : MonthlyForecast)
  (product_info : option dict) : Bundle.t :=
  {| Bundle.text :=
       "Bulan " ++ str (month forecast)
       ++ ": Proyeksi permintaan tinggi ("
       ++ str (predicted_quantity forecast)
       ++ " unit). Siapkan stok yang cukup dan pertimbangkan peningkatan kapasitas.";
     Bundle.actions :=
       {| pricing :=
            {| Pricing.action := "increase";
               Pricing.percentage := 5;
               Pricing.reason :=
                 "Mengoptimalkan margin pada permintaan tinggi" |};
          inventory :=
            {| Inventory.action := "restock";
               Inventory.quantity := predicted_quantity forecast + 50;
               Inventory.reason :=
                 "Mencegah stockout dengan stok yang memadai" |};
          marketing :=
            {| Marketing.channels := ["social"; "email"; "marketplace"];
               Marketing.budget := 1000000;
               Marketing.reason :=
                 "Maksimalkan penjualan pada periode permintaan tinggi" |} |};
     Bundle.priority := "high";
     Bundle.estimated_impact :=
       [("sales_increase", "20-30%"); ("revenue_increase", "25-35%")] |}.

Definition _generate_monthly_strategy (forecast : MonthlyForecast)
  (product_info : option dict) : Bundle.t :=
  let predicted := predicted_quantity forecast in
  if predicted =? 0 then _no_demand_strategy (month forecast)
  else if predicted <? 50 then _low_demand_strategy forecast product_info
  else if predicted <? 200 then _medium_demand_strategy forecast product_info
  else _high_demand_strategy forecast product_info.

Definition generate_strategies (product_id : string)
  (forecasts : list MonthlyForecast) (product_info : option dict)
  : list Strategy.t :=
  map (fun forecast =>
         let strategy := _generate_monthly_strategy forecast product_info in
         {| Strategy.product_id := product_id;
            Strategy.month := month forecast;
            Strategy.forecast_id := None;
            Strategy.strategy_text := Bundle.text strategy;
            Strategy.actions := Bundle.actions strategy;
            Strategy.priority := Bundle.priority strategy;
            Strategy.estimated_impact := Bundle.estimated_impact strategy |})
      forecasts.

End Strategizer.

(** * Verification *)

Import ForecastPredictor Strategizer.

(** ** Definitions used by the statements and the proofs *)

(** *** Inputs used as examples *)

(** A history from its quantities. *)
Definition point (q : Z) : SalesHistoryPoint :=
  {| date := "2024-01-01"; quantity := q |}.

Definition inputs_of (qs : list Z) (flags : option (list RegulationFlag))
  : ForecastInputs :=
  {| product_id := "sku-1";
     sales_history := map point qs;
     trends_data := None;
     regulation_flags := flags;
     exogenous_factors := None |}.

(** Ten days with quantity 10 each. *)
Definition steady_inputs : ForecastInputs := inputs_of (repeat 10 10%nat) None.

(** One sale of 100 followed by six days without sales. *)
Definition spike : list Z := [100; 0; 0; 0; 0; 0; 0].
Definition spike_inputs : ForecastInputs := inputs_of spike None.

(** Seven days with quantity [10 ** 307] each. *)
Definition huge_inputs : ForecastInputs :=
  inputs_of (repeat (10 ^ 307) 7%nat) None.

Definition negative_flag : RegulationFlag :=
  {| regulation_id := "reg-1"; relevance_score := f1_0; impact := "negative" |}.

Definition spike_flag_inputs : ForecastInputs :=
  inputs_of spike (Some [negative_flag]).

Definition short_inputs : ForecastInputs := inputs_of [5; 7; 9] None.

Definition short_inputs_signals : ForecastInputs :=
  {| product_id := "sku-1";
     sales_history := map point [5; 7; 9];
     trends_data := Some [{| keyword := "k"; time := "t"; value := 90 |}];
     regulation_flags := Some [negative_flag];
     exogenous_factors := Some [("promo", ABool true)] |}.

Definition forecast_of (m q : Z) : MonthlyForecast :=
  {| month := m;
     predicted_quantity := q;
     confidence_lower := Some 0;
     confidence_upper := Some 0;
     confidence_score := f0_5 |}.

(** *** The claims in the words of the specification *)

(** The bounds as the specification words them: [floor(0.8 * q)] and
    [floor(1.2 * q)] of the integer predicted quantity [q]. *)
Definition spec_lower (q : Z) : Z := (8 * q) / 10.
Definition spec_upper (q : Z) : Z := (12 * q) / 10.

(** A confidence score inside the closed interval [0.1, 1.0]. *)
Definition score_in_range (c : float) : Prop :=
  fleb f0_1 c = true /\ fleb c f1_0 = true.

(** *** Strategy entries *)

(** The entry that [generate_strategies] builds from a tier bundle. *)
Definition strategy_entry (product_id : string) (forecast : MonthlyForecast)
  (b : Bundle.t) : Strategy.t :=
  {| Strategy.product_id := product_id;
     Strategy.month := month forecast;
     Strategy.forecast_id := None;
     Strategy.strategy_text := Bundle.text b;
     Strategy.actions := Bundle.actions b;
     Strategy.priority := Bundle.priority b;
     Strategy.estimated_impact := Bundle.estimated_impact b |}.

(** The levers of a bundle the tiers are specified by: pricing action and
    percentage, inventory target, marketing budget, priority. *)
Definition levers (b : Bundle.t) : string * Z * Z * Z * string :=
  (Pricing.action (pricing (Bundle.actions b)),
   Pricing.percentage (pricing (Bundle.actions b)),
   Inventory.quantity (inventory (Bundle.actions b)),
   Marketing.budget (marketing (Bundle.actions b)),
   Bundle.priority b).

(** *** binary64 rounding *)

(** [rn X U]: the multiple of the unit [U] nearest to [X], as a number of
    units; a tie goes to the even one. *)
Definition rn (X U : Z) : Z :=
  let q := X / U in
  let r := X mod U in
  if 2 * r <? U then q
  else if 2 * r =? U then (if Z.even q then q else q + 1)
  else q + 1.

(** The number of binary digits of a mantissa. *)
Definition digits (m : positive) : Z := Zpos (digits2_pos m).

(** The exponent of the floats of magnitude [g]: 53 digits, not below the
    subnormal exponent [-1074]. *)
Definition fexp64 (g : Z) : Z := Z.max (g - 53) (-1074).

(** The record [mrs] is [M] shifted right by [k] bits: its mantissa is the
    quotient, its round bit says whether the remainder reaches half a unit,
    its sticky bit whether the remainder is neither zero nor half a unit. *)
Definition rec_inv (M k : Z) (mrs : shr_record) : Prop :=
  shr_m mrs = M / 2 ^ k
  /\ shr_r mrs = (2 ^ k <=? 2 * (M mod 2 ^ k))
  /\ shr_s mrs = negb (M mod 2 ^ k =? 0) && negb (2 * (M mod 2 ^ k) =? 2 ^ k).

(** The number of bits [shr_fexp] drops from [m * 2^e], and the mantissa
    that is left after rounding. *)
Definition bra_k (m e : Z) : Z := Z.max 0 (fexp64 (Zdigits2 m + e) - e).

Definition bra_m (m e : Z) : Z := rn m (2 ^ bra_k m e).

(** A finite float in normal form: the exponent is the one of its magnitude
    and within range. *)
Definition canonical (m : positive) (e : Z) : Prop :=
  e = fexp64 (digits m + e) /\ e <= 971.

(** A float as an arithmetic operation returns it. *)
Definition wf (f : float) : Prop :=
  match f with
  | S754_finite _ m e => canonical m e
  | _ => True
  end.

(** The mantissa that rounding [m * 2^e] gives, in units of
    [2 ^ fexp64 (digits m + e)]. *)
Definition rnd_units (m : positive) (e : Z) : Z :=
  rn (Zpos m) (2 ^ (fexp64 (digits m + e) - e)).

(** Rounding [m * 2^e] drops bits or none; it never has to add any. *)
Definition shift_ok (m : positive) (e : Z) : Prop :=
  e <= fexp64 (digits m + e).

(** The sign bit as a factor. *)
Definition sgn (s : bool) : Z := if s then -1 else 1.

(** [int] of the rounded value of [m * 2^e]. *)
Definition trunc_units (m : positive) (e : Z) : Z :=
  rnd_units m e * 2 ^ (fexp64 (digits m + e) + 1074) / 2 ^ 1074.

(** *** The forecasts of an ensemble response *)

(** A number that is a well-formed float. *)
Definition fwf (a : num) : Prop :=
  match a with
  | PyFloat f => wf f
  | PyInt _ => False
  end.

(** [1.0 - (month - 1) * 0.02]. *)
Definition decay_factor (month : Z) : float :=
  fsub f1_0 (fmul (Z2F (month - 1)) f0_02).

(** [range(1, 13)]. *)
Definition months : list Z := [1; 2; 3; 4; 5; 6; 7; 8; 9; 10; 11; 12].

(** A positive float with a full 53-bit mantissa and a moderate exponent. *)
Definition pos53 (f : float) : bool :=
  match f with
  | S754_finite false m e => (digits m =? 53) && (-1100 <=? e) && (e <=? 1100)
  | _ => false
  end.

(** [a <= b] on two such floats, as dyadic numbers. *)
Definition dle (a b : float) : bool :=
  match a, b with
  | S754_finite false ma ea, S754_finite false mb eb =>
    Zpos ma * 2 ^ (ea + 1100) <=? Zpos mb * 2 ^ (eb + 1100)
  | _, _ => false
  end.

(** Each float of the list is at most the one before it. *)
Fixpoint decreasing (l : list float) : bool :=
  match l with
  | a :: (b :: _) as t => dle b a && decreasing t
  | _ => true
  end.

(** What [predict] stores for a month whose adjusted forecast is [x]. *)
Definition month_of (x : num) (f : MonthlyForecast) : Prop :=
  exists l u lower upper,
    mul x (PyFloat f0_8) = Ok l /\ to_int l = Ok lower
    /\ mul x (PyFloat f1_2) = Ok u /\ to_int u = Ok upper
    /\ to_int x = Ok (predicted_quantity f)
    /\ confidence_lower f = Some lower
    /\ confidence_upper f = Some upper.

(** A positive float that is at most one, resp. at least one. *)
Definition le_one (c : float) : bool :=
  match c with
  | S754_finite false mc ec => Zpos mc * 2 ^ (ec + 1100) <=? 2 ^ 1100
  | _ => false
  end.

Definition ge_one (c : float) : bool :=
  match c with
  | S754_finite false mc ec => 2 ^ 1100 <=? Zpos mc * 2 ^ (ec + 1100)
  | _ => false
  end.

(** The fields of a month, from its adjusted forecast [v]. *)
Definition bounds_of (v : float) (f : MonthlyForecast) : Prop :=
  exists lo up,
    int_of_float v = Ok (predicted_quantity f)
    /\ confidence_lower f = Some lo
    /\ int_of_float (fmul v f0_8) = Ok lo
    /\ confidence_upper f = Some up
    /\ int_of_float (fmul v f1_2) = Ok up
    /\ (fleb f0_0 v = true -> lo <= predicted_quantity f <= up)
    /\ (fleb v f0_0 = true -> up <= predicted_quantity f <= lo).

(** *** The regulation factor *)

(** The same request with the regulation flags [flags]. *)
Definition with_flags (inputs : ForecastInputs) (flags : list RegulationFlag)
  : ForecastInputs :=
  {| product_id := product_id inputs;
     sales_history := sales_history inputs;
     trends_data := trends_data inputs;
     regulation_flags := Some flags;
     exogenous_factors := exogenous_factors inputs |}.

(** What one flag adds to the running total: [+ score * 0.05] for
    "positive", [- score * 0.05] for "negative", nothing otherwise. *)
Definition contribution (total : float) (flag : RegulationFlag) : float :=
  if String.eqb (impact flag) "positive" then
    fadd total (fmul (relevance_score flag) f0_05)
  else if String.eqb (impact flag) "negative" then
    fsub total (fmul (relevance_score flag) f0_05)
  else total.

(** The sum of the contributions divided by the number of flags, and the
    factor [1 + r]. *)
Definition regulation_impact_value (flags : list RegulationFlag) : float :=
  fdiv (fold_left contribution flags f0_0) (Z2F (len flags)).

Definition regulation_factor (flags : list RegulationFlag) : float :=
  fadd f1_0 (regulation_impact_value flags).

(** *** The strategy engine *)

(** What a strategy is computed from. *)
Definition strategy_key (f : MonthlyForecast) : Z * Z :=
  (month f, predicted_quantity f).

(** The inventory target and the marketing budget of a month's strategy. *)
Definition inventory_target (info : option dict) (f : MonthlyForecast) : Z :=
  Inventory.quantity
    (inventory (Bundle.actions (_generate_monthly_strategy f info))).

Definition marketing_budget (info : option dict) (f : MonthlyForecast) : Z :=
  Marketing.budget
    (marketing (Bundle.actions (_generate_monthly_strategy f info))).

(** *** Fields that [predict] reads *)

(** What [predict] reads of a regulation flag. *)
Definition flag_key (f : RegulationFlag) : float * string :=
  (relevance_score f, impact f).

(** The history of [steady_inputs] under other dates, with an exogenous
    factor. *)
Definition relabelled_inputs : ForecastInputs :=
  {| product_id := "sku-1";
     sales_history :=
       map (fun q => {| date := "1999-12-31"; quantity := q |})
           (repeat 10 10%nat);
     trends_data := None;
     regulation_flags := None;
     exogenous_factors := Some [("holiday", AStr "lebaran")] |}.

(** A flag whose impact is neither "positive" nor "negative". *)
Definition neutral (f : RegulationFlag) : Prop :=
  impact f <> "positive" /\ impact f <> "negative".

Definition neutral_flag : RegulationFlag :=
  {| regulation_id := "reg-2"; relevance_score := f0_8; impact := "neutral" |}.

(** *** Exceptions *)

(** The result is a value, or the exception is [OverflowError] or
    [ValueError]: no [ZeroDivisionError], [IndexError] or
    [StatisticsError]. *)
Definition range_errors_only {A : Type} (r : result A) : Prop :=
  match r with
  | Ok _ => True
  | Raise e => e = OverflowError \/ e = ValueError
  end.

(** A divisor that is not zero. *)
Definition nonzero (b : num) : Prop :=
  match b with
  | PyInt z => z <> 0
  | PyFloat f => is_zero f = false
  end.

(** *** Numbers that are not negative *)

(** A float that is not below zero: a zero of either sign, a positive
    float or [+inf].  NaN counts as well: [int] makes no quantity of it. *)
Definition nonneg (f : float) : Prop :=
  match f with
  | S754_finite s _ _ | S754_infinity s => s = false
  | S754_zero _ | S754_nan => True
  end.

Definition nonneg_num (a : num) : Prop :=
  match a with
  | PyInt z => 0 <= z
  | PyFloat f => nonneg f
  end.

(** The value of a computation, when it returns one, satisfies [P]. *)
Definition holds {A : Type} (P : A -> Prop) (r : result A) : Prop :=
  match r with
  | Ok a => P a
  | Raise _ => True
  end.

(** The trend projection of the history is a number that is not negative. *)
Definition trend_not_negative (sales_data : list Z) : bool :=
  match _trend_projection sales_data with
  | Ok t => leb (PyInt 0) t
  | Raise _ => false
  end.

(** The impact that [impact_of] derives from a list of signals is at least
    [-1]; an absent or empty list has no impact. *)
Definition impact_bounded {A : Type} (impact_of : list A -> result num)
  (signals : option (list A)) : bool :=
  if truthy signals then
    match impact_of (opt_list signals) with
    | Ok t => leb (PyInt (-1)) t
    | Raise _ => false
    end
  else true.

(** [1.0 - i * 0.05], the weight of the trend impact in month [i + 1]. *)
Definition trend_weight (i : Z) : float :=
  fsub f1_0 (fmul (Z2F i) f0_05).

(** Ten days of 10 units, a trend signal of value 20 and a negative flag. *)
Definition damped_inputs : ForecastInputs :=
  {| product_id := "sku-1";
     sales_history := map point (repeat 10 10%nat);
     trends_data := Some [{| keyword := "k"; time := "t"; value := 20 |}];
     regulation_flags := Some [negative_flag];
     exogenous_factors := None |}.

(** ** The error monad *)

Lemma bind_ok {A B : Type} (c : result A) (k : A -> result B) (b : B) :
  bind c k = Ok b -> exists a, c = Ok a /\ k a = Ok b.
Proof.
  destruct c as [a|e]; simpl; intros H; [eauto | discriminate].
Qed.

Lemma Ok_inj {A : Type} (a b : A) : Ok a = Ok b -> a = b.
Proof. congruence. Qed.

Ltac inv_bind H :=
  let a := fresh "v" in
  let Ha := fresh "E" in
  apply bind_ok in H; destruct H as (a & Ha & H).

Lemma mapM_ok {A B : Type} (f : A -> result B) (l : list A) (ys : list B) :
  mapM f l = Ok ys -> Forall2 (fun x y => f x = Ok y) l ys.
Proof.
  revert ys; induction l as [|x xs IH]; simpl; intros ys H.
  - injection H as <-. constructor.
  - inv_bind H. inv_bind H. injection H as <-. constructor; auto.
Qed.

Lemma len_map {A B : Type} (f : A -> B) (l : list A) : len (map f l) = len l.
Proof. unfold len. now rewrite length_map. Qed.

(** ** C1, C10: the conservative fallback *)

Lemma predict_short (now : string) (inputs : ForecastInputs) :
  (List.length (sales_history inputs) < 7)%nat ->
  predict now inputs
  = Ok (_generate_conservative_forecast now (product_id inputs)).
Proof.
  intros H. unfold predict, _parse_sales_history.
  rewrite len_map. unfold len.
  destruct (Z.ltb_spec (Z.of_nat (List.length (sales_history inputs))) 7);
    [reflexivity | lia].
Qed.

(** C1: a history of fewer than 7 points (the empty one included) gives the
    conservative response: algorithm "conservative", twelve forecasts for
    months 1 to 12, each with predicted quantity 0, both bounds 0 and score
    0.1, and metadata with [insufficient_data = True]. *)
Theorem C1_conservative_fallback (now : string) (inputs : ForecastInputs) :
  (List.length (sales_history inputs) < 7)%nat ->
  exists r,
    predict now inputs = Ok r
    /\ Response.algorithm r = "conservative"
    /\ List.length (Response.forecasts r) = 12%nat
    /\ map month (Response.forecasts r) = [1; 2; 3; 4; 5; 6; 7; 8; 9; 10; 11; 12]
    /\ Forall (fun f =>
                 predicted_quantity f = 0
                 /\ confidence_lower f = Some 0
                 /\ confidence_upper f = Some 0
                 /\ confidence_score f = dec 1 10)
              (Response.forecasts r)
    /\ exists d, Response.metadata r = Some d
                 /\ dict_get d "insufficient_data" = Some (ABool true).
Proof.
  intros H. eexists. split; [apply predict_short, H|].
  simpl. repeat split; try reflexivity.
  - repeat constructor.
  - eexists. split; reflexivity.
Qed.

Lemma C1_witness :
  (List.length (sales_history (inputs_of [] None)) < 7)%nat
  /\ exists r,
    predict "2024-07-01T00:00:00" (inputs_of [] None) = Ok r
    /\ Response.algorithm r = "conservative"
    /\ List.length (Response.forecasts r) = 12%nat
    /\ map month (Response.forecasts r) = [1; 2; 3; 4; 5; 6; 7; 8; 9; 10; 11; 12]
    /\ Forall (fun f =>
                 predicted_quantity f = 0
                 /\ confidence_lower f = Some 0
                 /\ confidence_upper f = Some 0
                 /\ confidence_score f = dec 1 10)
              (Response.forecasts r)
    /\ exists d, Response.metadata r = Some d
                 /\ dict_get d "insufficient_data" = Some (ABool true).
Proof.
  split; [simpl; lia|].
  apply (C1_conservative_fallback "2024-07-01T00:00:00" (inputs_of [] None)).
  simpl; lia.
Defined.

(** C10: two inputs with the same product id and the same history of fewer
    than 7 points get responses that agree on every field but
    [forecast_date], whatever their trends, regulation flags and exogenous
    factors are; the metadata is the one-entry dict
    [{"insufficient_data": True}]. *)
Theorem C10_conservative_ignores_signals
  (now1 now2 : string) (i1 i2 : ForecastInputs) :
  product_id i1 = product_id i2 ->
  sales_history i1 = sales_history i2 ->
  (List.length (sales_history i1) < 7)%nat ->
  exists r1 r2,
    predict now1 i1 = Ok r1 /\ predict now2 i2 = Ok r2
    /\ Response.product_id r1 = Response.product_id r2
    /\ Response.algorithm r1 = Response.algorithm r2
    /\ Response.model_version r1 = Response.model_version r2
    /\ Response.forecasts r1 = Response.forecasts r2
    /\ Response.metadata r1 = Response.metadata r2
    /\ Response.metadata r1 = Some [("insufficient_data", ABool true)]
    /\ Response.forecast_date r1 = now1
    /\ Response.forecast_date r2 = now2.
Proof.
  intros Hp Hs Hl.
  exists (_generate_conservative_forecast now1 (product_id i1)),
         (_generate_conservative_forecast now2 (product_id i2)).
  split; [apply predict_short, Hl|].
  split; [apply predict_short; rewrite <- Hs; exact Hl|].
  simpl. rewrite Hp. repeat split; reflexivity.
Qed.

Lemma C10_witness :
  exists r1 r2,
    predict "2024-07-01T00:00:00" short_inputs = Ok r1
    /\ predict "2024-07-02T09:30:00" short_inputs_signals = Ok r2
    /\ Response.product_id r1 = Response.product_id r2
    /\ Response.algorithm r1 = Response.algorithm r2
    /\ Response.model_version r1 = Response.model_version r2
    /\ Response.forecasts r1 = Response.forecasts r2
    /\ Response.metadata r1 = Response.metadata r2
    /\ Response.metadata r1 = Some [("insufficient_data", ABool true)]
    /\ Response.forecast_date r1 = "2024-07-01T00:00:00"
    /\ Response.forecast_date r2 = "2024-07-02T09:30:00".
Proof.
  apply (C10_conservative_ignores_signals
           "2024-07-01T00:00:00" "2024-07-02T09:30:00"
           short_inputs short_inputs_signals).
  - reflexivity.
  - reflexivity.
  - simpl; lia.
Defined.

(** ** C5, C9: the strategy tiers *)


Lemma tier_no_demand (f : MonthlyForecast) (info : option dict) :
  predicted_quantity f = 0 ->
  _generate_monthly_strategy f info = _no_demand_strategy (month f).
Proof.
  intros H. unfold _generate_monthly_strategy. now rewrite H.
Qed.

Lemma tier_low (f : MonthlyForecast) (info : option dict) :
  predicted_quantity f <> 0 -> predicted_quantity f < 50 ->
  _generate_monthly_strategy f info = _low_demand_strategy f info.
Proof.
  intros H0 H. unfold _generate_monthly_strategy.
  destruct (Z.eqb_spec (predicted_quantity f) 0); [contradiction|].
  destruct (Z.ltb_spec (predicted_quantity f) 50); [reflexivity | lia].
Qed.

Lemma tier_medium (f : MonthlyForecast) (info : option dict) :
  50 <= predicted_quantity f < 200 ->
  _generate_monthly_strategy f info = _medium_demand_strategy f info.
Proof.
  intros H. unfold _generate_monthly_strategy.
  destruct (Z.eqb_spec (predicted_quantity f) 0); [lia|].
  destruct (Z.ltb_spec (predicted_quantity f) 50); [lia|].
  destruct (Z.ltb_spec (predicted_quantity f) 200); [reflexivity | lia].
Qed.

Lemma tier_high (f : MonthlyForecast) (info : option dict) :
  200 <= predicted_quantity f ->
  _generate_monthly_strategy f info = _high_demand_strategy f info.
Proof.
  intros H. unfold _generate_monthly_strategy.
  destruct (Z.eqb_spec (predicted_quantity f) 0); [lia|].
  destruct (Z.ltb_spec (predicted_quantity f) 50); [lia|].
  destruct (Z.ltb_spec (predicted_quantity f) 200); [lia | reflexivity].
Qed.

(** C5: the tier depends on [predicted_quantity] alone, with exclusive upper
    boundaries: 0 gives the no-demand bundle, any other value below 50 the
    low bundle, 50 to 199 the medium bundle, 200 and above the high bundle;
    the bundles are pricing reduce 10 / maintain / maintain / increase 5,
    inventory target 0 / predicted / predicted + 20 / predicted + 50,
    marketing budget 200000 / 300000 / 500000 / 1000000 and priority
    low / medium / medium / high; [generate_strategies] returns one entry per
    forecast, built from that bundle. *)
Theorem C5_tier_selection (pid : string) (f : MonthlyForecast)
  (info : option dict) :
  let q := predicted_quantity f in
  let b := _generate_monthly_strategy f info in
  generate_strategies pid [f] info = [strategy_entry pid f b]
  /\ (q = 0 ->
      b = _no_demand_strategy (month f)
      /\ levers b = ("reduce", 10, 0, 200000, "low"))
  /\ (q <> 0 -> q < 50 ->
      b = _low_demand_strategy f info
      /\ levers b = ("maintain", 0, q, 300000, "medium"))
  /\ (50 <= q < 200 ->
      b = _medium_demand_strategy f info
      /\ levers b = ("maintain", 0, q + 20, 500000, "medium"))
  /\ (200 <= q ->
      b = _high_demand_strategy f info
      /\ levers b = ("increase", 5, q + 50, 1000000, "high")).
Proof.
  intros q b. subst q b. split; [reflexivity|].
  split; [|split; [|split]]; intros.
  - rewrite tier_no_demand by assumption. split; reflexivity.
  - rewrite tier_low by assumption. split; reflexivity.
  - rewrite tier_medium by assumption. split; reflexivity.
  - rewrite tier_high by assumption. split; reflexivity.
Qed.

Lemma C5_witness :
  levers (_generate_monthly_strategy (forecast_of 1 0) None)
  = ("reduce", 10, 0, 200000, "low")
  /\ levers (_generate_monthly_strategy (forecast_of 2 49) None)
     = ("maintain", 0, 49, 300000, "medium")
  /\ levers (_generate_monthly_strategy (forecast_of 3 50) None)
     = ("maintain", 0, 70, 500000, "medium")
  /\ levers (_generate_monthly_strategy (forecast_of 4 199) None)
     = ("maintain", 0, 219, 500000, "medium")
  /\ levers (_generate_monthly_strategy (forecast_of 5 200) None)
     = ("increase", 5, 250, 1000000, "high").
Proof.
  split; [|split; [|split; [|split]]].
  - apply (C5_tier_selection "sku-1" (forecast_of 1 0) None). reflexivity.
  - apply (C5_tier_selection "sku-1" (forecast_of 2 49) None); simpl; lia.
  - apply (C5_tier_selection "sku-1" (forecast_of 3 50) None); simpl; lia.
  - apply (C5_tier_selection "sku-1" (forecast_of 4 199) None); simpl; lia.
  - apply (C5_tier_selection "sku-1" (forecast_of 5 200) None); simpl; lia.
Defined.



(** ** C8: the confidence score *)

Lemma int_ltb_one (z : Z) : ltb (PyInt z) (PyFloat f1_0) = (z <? 1).
Proof.
  unfold ltb, compare, cmp_int_float, f1_0.
  change (0 <=? -52) with false. cbv iota.
  rewrite Z.shiftl_mul_pow2 by lia. change (- -52) with 52.
  destruct (Z.compare_spec (z * 2 ^ 52) 4503599627370496);
    destruct (Z.ltb_spec z 1); try reflexivity; lia.
Qed.

Lemma tenth_ltb_int (z : Z) : ltb (PyFloat f0_1) (PyInt z) = (0 <? z).
Proof.
  unfold ltb, compare, cmp_int_float, f0_1.
  change (0 <=? -56) with false. cbv iota.
  rewrite Z.shiftl_mul_pow2 by lia. change (- -56) with 56.
  destruct (Z.compare_spec (z * 2 ^ 56) 7205759403792794);
    destruct (Z.ltb_spec 0 z); simpl; try reflexivity; lia.
Qed.

(** The final clamp [max(0.1, min(1.0, confidence))] lands in [0.1, 1.0]
    whatever number [confidence] is, NaN included. *)
Lemma clamp_in_range (c : num) (x : float) :
  to_float (max (PyFloat f0_1) (min (PyFloat f1_0) c)) = Ok x ->
  score_in_range x.
Proof.
  unfold score_in_range, fleb.
  destruct c as [z|y]; unfold max, min.
  - rewrite int_ltb_one.
    destruct (Z.ltb_spec z 1) as [L|G].
    + rewrite tenth_ltb_int.
      destruct (Z.ltb_spec 0 z); [lia|].
      simpl. intros Hx; injection Hx as <-. split; reflexivity.
    + simpl. intros Hx; injection Hx as <-. split; reflexivity.
  - unfold ltb at 2 3. unfold compare.
    destruct (SFcompare y f1_0) as [[]|] eqn:E1;
      try (simpl; intros H; injection H as <-; split; reflexivity).
    unfold ltb, compare.
    destruct (SFcompare f0_1 y) as [[]|] eqn:E2;
      try (simpl; intros H; injection H as <-; split; reflexivity).
    simpl. intros H; injection H as <-.
    unfold SFleb. now rewrite E1, E2.
Qed.

Lemma confidence_in_range (sales_data : list Z) (m : Z) (s : num) (x : float) :
  _calculate_confidence_score sales_data m = Ok s ->
  to_float s = Ok x ->
  score_in_range x.
Proof.
  unfold _calculate_confidence_score.
  destruct (len sales_data <? 7).
  - intros H; injection H as <-. intros H; injection H as <-.
    split; reflexivity.
  - intros H. repeat inv_bind H. injection H as <-.
    apply clamp_in_range.
Qed.

(** C8: every month of every response that [predict] returns, on the
    ensemble path and on the conservative path, has a confidence score in
    the closed interval [0.1, 1.0]. *)
Theorem C8_confidence_score_in_range (now : string) (inputs : ForecastInputs)
  (r : ForecastResponse) :
  predict now inputs = Ok r ->
  Forall (fun f => fleb (dec 1 10) (confidence_score f) = true
                   /\ fleb (confidence_score f) (Z2F 1) = true)
         (Response.forecasts r).
Proof.
  unfold predict.
  destruct (len (_parse_sales_history (sales_history inputs)) <? 7).
  - intros H; injection H as <-. simpl.
    repeat constructor.
  - intros H. repeat inv_bind H. injection H as <-. simpl.
    apply mapM_ok in E1.
    induction E1 as [|mth f ms fs Hf _ IH]; constructor; auto.
    repeat inv_bind Hf. injection Hf as <-. simpl.
    eapply confidence_in_range; eassumption.
Qed.

Lemma C8_witness :
  exists r,
    predict "2024-07-01T00:00:00" steady_inputs = Ok r
    /\ Forall (fun f => fleb (dec 1 10) (confidence_score f) = true
                        /\ fleb (confidence_score f) (Z2F 1) = true)
              (Response.forecasts r).
Proof.
  destruct (predict "2024-07-01T00:00:00" steady_inputs) as [r|e] eqn:E;
    [|vm_compute in E; discriminate].
  exists r. split; [reflexivity|].
  apply (C8_confidence_score_in_range "2024-07-01T00:00:00" steady_inputs r E).
Defined.

(** ** C2: exceptions *)

(** Seven days of [10 ** 307] units: every ensemble member is the float
    [1e307], the monthly base [1e307 * 30.44] overflows to infinity, and
    [int(forecast * 0.8)] raises "cannot convert float infinity to
    integer". *)
Lemma C2_overflow_raises :
  Forall (fun p => 0 <= quantity p) (sales_history huge_inputs)
  /\ predict "2024-07-01T00:00:00" huge_inputs = Raise OverflowError.
Proof.
  split.
  - unfold huge_inputs, inputs_of.
    cbn [sales_history repeat map].
    repeat (apply Forall_cons;
            [cbn [quantity point]; apply Z.pow_nonneg; lia|]).
    apply Forall_nil.
  - vm_compute. reflexivity.
Qed.

(** ** binary64 rounding

    The rest of the development needs three facts about the float
    operations: the result of a multiplication is the exact product rounded
    to nearest; rounding is monotone; results are canonical.  They are proved
    here from the definitions of [SpecFloat], with all values scaled to
    integers. *)

(** *** Rounding to nearest, ties to even *)

Lemma fexp64_eq (g : Z) : fexp prec emax g = fexp64 g.
Proof. reflexivity. Qed.

Lemma digits_size (m : positive) : digits2_pos m = Pos.size m.
Proof. induction m; simpl; congruence. Qed.

Lemma digits_bounds (m : positive) :
  2 ^ (digits m - 1) <= Zpos m < 2 ^ digits m.
Proof.
  unfold digits. rewrite digits_size. split.
  - pose proof (Pos.size_le m) as H.
    assert (E : Zpos (2 ^ Pos.size m) = 2 ^ Zpos (Pos.size m))
      by apply Pos2Z.inj_pow.
    assert (L : (Zpos (2 ^ Pos.size m) <= Zpos m~0)) by exact H.
    rewrite E in L.
    replace (Zpos (Pos.size m)) with (Zpos (Pos.size m) - 1 + 1) in L by lia.
    rewrite Z.pow_add_r in L by lia. lia.
  - pose proof (Pos.size_gt m) as H.
    assert (E : Zpos (2 ^ Pos.size m) = 2 ^ Zpos (Pos.size m))
      by apply Pos2Z.inj_pow.
    rewrite <- E. exact H.
Qed.

Lemma digits_pos (m : positive) : 1 <= digits m.
Proof. unfold digits. lia. Qed.

(** *** One shift and [n] shifts of a rounding record *)

Lemma shr_1_m (mrs : shr_record) :
  0 <= shr_m mrs ->
  shr_m (shr_1 mrs) = shr_m mrs / 2
  /\ shr_r (shr_1 mrs) = Z.odd (shr_m mrs)
  /\ shr_s (shr_1 mrs) = shr_r mrs || shr_s mrs.
Proof.
  destruct mrs as [m r s]. simpl. intros H.
  destruct m as [|[p|p|]|p]; try lia; simpl; repeat split;
    try reflexivity.
  - rewrite Pos2Z.inj_xI. apply Z.div_unique with (r := 1); lia.
  - rewrite Pos2Z.inj_xO. apply Z.div_unique with (r := 0); lia.
Qed.

Lemma rec_inv_step (M k : Z) (mrs : shr_record) :
  0 <= M -> 0 <= k -> rec_inv M k mrs -> rec_inv M (k + 1) (shr_1 mrs).
Proof.
  intros HM Hk (Hm & Hr & Hs).
  assert (P : 0 < 2 ^ k) by (apply Z.pow_pos_nonneg; lia).
  assert (Hm0 : 0 <= shr_m mrs) by (rewrite Hm; apply Z.div_pos; lia).
  destruct (shr_1_m mrs Hm0) as (Em & Er & Es).
  assert (P2 : 2 ^ (k + 1) = 2 * 2 ^ k) by (rewrite Z.pow_add_r; lia).
  pose proof (Z.div_mod M (2 ^ k) ltac:(lia)) as D.
  pose proof (Z.mod_pos_bound M (2 ^ k) P) as B.
  set (q := M / 2 ^ k) in *. set (R := M mod 2 ^ k) in *.
  pose proof (Z.div_mod q 2 ltac:(lia)) as D2.
  pose proof (Z.mod_pos_bound q 2 ltac:(lia)) as B2.
  assert (Eq' : M / 2 ^ (k + 1) = q / 2).
  { rewrite P2. symmetry.
    apply Z.div_unique with (r := R + 2 ^ k * (q mod 2)); nia. }
  assert (ER' : M mod 2 ^ (k + 1) = R + 2 ^ k * (q mod 2)).
  { rewrite P2. symmetry.
    apply Z.mod_unique with (q := q / 2); nia. }
  unfold rec_inv. rewrite Em, Er, Es, Hm, Hr, Hs, Eq', ER', P2.
  fold q R. rewrite Zodd_mod.
  assert (Hb : q mod 2 = 0 \/ q mod 2 = 1) by lia.
  set (T := 2 ^ k) in *.
  split; [reflexivity|].
  destruct Hb as [Hb|Hb]; rewrite Hb; split.
  - destruct (Z.leb_spec (2 * T) (2 * (R + T * 0))); [lia | reflexivity].
  - destruct (Z.leb_spec T (2 * R));
      destruct (Z.eqb_spec R 0);
      destruct (Z.eqb_spec (2 * R) T);
      destruct (Z.eqb_spec (R + T * 0) 0);
      destruct (Z.eqb_spec (2 * (R + T * 0)) (2 * T));
      simpl; try reflexivity; lia.
  - destruct (Z.leb_spec (2 * T) (2 * (R + T * 1))); [reflexivity | lia].
  - destruct (Z.leb_spec T (2 * R));
      destruct (Z.eqb_spec R 0);
      destruct (Z.eqb_spec (2 * R) T);
      destruct (Z.eqb_spec (R + T * 1) 0);
      destruct (Z.eqb_spec (2 * (R + T * 1)) (2 * T));
      simpl; try reflexivity; lia.
Qed.

Lemma iter_pos_iter {A : Type} (f : A -> A) (p : positive) (x : A) :
  iter_pos f p x = Pos.iter f x p.
Proof.
  revert x. induction p as [p IH|p IH|]; intros x; simpl.
  - rewrite !IH. rewrite !Pos.iter_swap. reflexivity.
  - rewrite !IH. reflexivity.
  - reflexivity.
Qed.

Lemma rec_inv_iter (M : Z) (n : nat) (mrs : shr_record) (k : Z) :
  0 <= M -> 0 <= k -> rec_inv M k mrs ->
  rec_inv M (k + Z.of_nat n) (Nat.iter n shr_1 mrs).
Proof.
  intros HM Hk H. induction n as [|n IH].
  - simpl. now rewrite Z.add_0_r.
  - rewrite Nat2Z.inj_succ. simpl Nat.iter.
    replace (k + Z.succ (Z.of_nat n)) with (k + Z.of_nat n + 1) by lia.
    apply rec_inv_step; [lia | lia | exact IH].
Qed.

Lemma rec_inv_init (M : Z) :
  0 <= M -> rec_inv M 0 (Build_shr_record M false false).
Proof.
  intros H. unfold rec_inv. simpl.
  rewrite Z.div_1_r, Z.mod_1_r. repeat split; reflexivity.
Qed.

(** [n] shifts of an exact record. *)
Lemma shr_exact (M e n : Z) :
  0 <= M ->
  let k := Z.max 0 n in
  let '(mrs, e') := shr (Build_shr_record M false false) e n in
  e' = e + k /\ rec_inv M k mrs.
Proof.
  intros HM k. unfold shr. destruct n as [|p|p]; subst k.
  - split; [simpl; lia | apply rec_inv_init, HM].
  - split; [lia|].
    rewrite iter_pos_iter, Pos2Nat.inj_iter.
    replace (Z.max 0 (Zpos p)) with (0 + Z.of_nat (Pos.to_nat p)) by lia.
    apply rec_inv_iter; [lia | lia | apply rec_inv_init, HM].
  - split; [simpl; lia | apply rec_inv_init, HM].
Qed.

(** The rounded mantissa of a shifted record. *)
Lemma round_rec_inv (M k : Z) (mrs : shr_record) :
  0 <= M -> 0 <= k -> rec_inv M k mrs ->
  round_nearest_even (shr_m mrs) (loc_of_shr_record mrs) = rn M (2 ^ k).
Proof.
  intros HM Hk (Hm & Hr & Hs).
  assert (P : 0 < 2 ^ k) by (apply Z.pow_pos_nonneg; lia).
  pose proof (Z.mod_pos_bound M (2 ^ k) P) as B.
  destruct mrs as [m r s]. cbn [shr_m shr_r shr_s] in *. subst m r s.
  unfold rn.
  set (q := M / 2 ^ k). set (R := M mod 2 ^ k) in *. set (T := 2 ^ k) in *.
  destruct (Z.leb_spec T (2 * R));
    destruct (Z.eqb_spec R 0);
    destruct (Z.eqb_spec (2 * R) T);
    destruct (Z.ltb_spec (2 * R) T);
    cbn [negb andb loc_of_shr_record round_nearest_even shr_m];
    try reflexivity; lia.
Qed.

(** *** Properties of [rn] *)

Section Rn.
Variables (U : Z).
Hypothesis HU : 0 < U.

Lemma rn_cases (X : Z) : rn X U = X / U \/ (rn X U = X / U + 1 /\ U <= 2 * (X mod U)).
Proof.
  unfold rn.
  destruct (Z.ltb_spec (2 * (X mod U)) U); [now left|].
  destruct (Z.eqb_spec (2 * (X mod U)) U).
  - destruct (Z.even (X / U)); [now left | right; split; [reflexivity | lia]].
  - right; split; [reflexivity | lia].
Qed.

Lemma rn_floor (X : Z) : X / U <= rn X U.
Proof. destruct (rn_cases X) as [E|[E _]]; lia. Qed.

Lemma rn_nonneg (X : Z) : 0 <= X -> 0 <= rn X U.
Proof.
  intros H. pose proof (rn_floor X). pose proof (Z.div_pos X U H HU). lia.
Qed.

Lemma rn_le (X c : Z) : X <= c * U -> rn X U <= c.
Proof.
  intros H.
  pose proof (Z.div_mod X U ltac:(lia)) as D.
  pose proof (Z.mod_pos_bound X U HU) as B.
  destruct (rn_cases X) as [E|[E L]]; rewrite E.
  - assert (~ c < X / U) by nia. lia.
  - assert (~ c <= X / U) by nia. lia.
Qed.

Lemma rn_ge (X c : Z) : c * U <= X -> c <= rn X U.
Proof.
  intros H.
  pose proof (Z.div_mod X U ltac:(lia)) as D.
  pose proof (Z.mod_pos_bound X U HU) as B.
  pose proof (rn_floor X).
  assert (~ X / U < c) by nia. lia.
Qed.

Lemma rn_exact (c : Z) : rn (c * U) U = c.
Proof.
  pose proof (rn_le (c * U) c ltac:(lia)).
  pose proof (rn_ge (c * U) c ltac:(lia)). lia.
Qed.

Lemma rn_mono (X Y : Z) : X <= Y -> rn X U <= rn Y U.
Proof.
  intros H.
  pose proof (Z.div_mod X U ltac:(lia)) as DX.
  pose proof (Z.mod_pos_bound X U HU) as BX.
  pose proof (Z.div_mod Y U ltac:(lia)) as DY.
  pose proof (Z.mod_pos_bound Y U HU) as BY.
  pose proof (Z.div_le_mono X Y U HU H) as Q.
  destruct (Z.eq_dec (X / U) (Y / U)) as [E|N].
  - assert (R : X mod U <= Y mod U) by nia.
    unfold rn. rewrite E.
    destruct (Z.ltb_spec (2 * (X mod U)) U);
      destruct (Z.ltb_spec (2 * (Y mod U)) U);
      destruct (Z.eqb_spec (2 * (X mod U)) U);
      destruct (Z.eqb_spec (2 * (Y mod U)) U);
      destruct (Z.even (Y / U)); lia.
  - pose proof (rn_floor Y).
    destruct (rn_cases X) as [E|[E _]]; lia.
Qed.

End Rn.

(** *** [binary_round_aux] on an exact input *)

Lemma pow2_pos (k : Z) : 0 <= k -> 0 < 2 ^ k.
Proof. intros. apply Z.pow_pos_nonneg; lia. Qed.

Lemma bra_k_nonneg (m e : Z) : 0 <= bra_k m e.
Proof. unfold bra_k. lia. Qed.

Lemma bra_m_nonneg (m e : Z) : 0 <= m -> 0 <= bra_m m e.
Proof.
  intros. apply rn_nonneg; [apply pow2_pos, bra_k_nonneg | assumption].
Qed.

Lemma shr_fexp_exact (m e : Z) :
  0 <= m ->
  let '(mrs, e') := shr_fexp prec emax m e loc_Exact in
  e' = e + bra_k m e /\ rec_inv m (bra_k m e) mrs.
Proof.
  intros H. unfold shr_fexp. rewrite fexp64_eq.
  exact (shr_exact m e (fexp64 (Zdigits2 m + e) - e) H).
Qed.

Lemma bra_exact (sx : bool) (m e : Z) :
  0 <= m ->
  binary_round_aux prec emax sx m e loc_Exact
  = let m1 := bra_m m e in
    let e1 := e + bra_k m e in
    let k2 := bra_k m1 e1 in
    match m1 / 2 ^ k2 with
    | 0 => S754_zero sx
    | Zpos p =>
      if e1 + k2 <=? 971 then S754_finite sx p (e1 + k2) else S754_infinity sx
    | Zneg _ => S754_nan
    end.
Proof.
  intros H. unfold binary_round_aux.
  pose proof (shr_fexp_exact m e H) as S1.
  destruct (shr_fexp prec emax m e loc_Exact) as [mrs e1].
  destruct S1 as (-> & I1).
  rewrite (round_rec_inv m (bra_k m e) mrs H (bra_k_nonneg m e) I1).
  fold (bra_m m e).
  pose proof (shr_fexp_exact (bra_m m e) (e + bra_k m e)
                (bra_m_nonneg m e H)) as S2.
  destruct (shr_fexp prec emax (bra_m m e) (e + bra_k m e) loc_Exact)
    as [mrs2 e2].
  destruct S2 as (-> & (Em & _)).
  cbv zeta. rewrite Em. reflexivity.
Qed.

(** *** Canonical floats and the rounded product *)

Lemma digits_le (p : positive) (n : Z) : Zpos p < 2 ^ n -> digits p <= n.
Proof.
  intros H. pose proof (digits_bounds p) as [L _]. pose proof (digits_pos p).
  destruct (Z.le_gt_cases (digits p) n) as [|G]; [assumption|].
  assert (2 ^ n <= 2 ^ (digits p - 1)).
  { destruct (Z.le_gt_cases 0 n).
    - apply Z.pow_le_mono_r; lia.
    - rewrite (Z.pow_neg_r 2 n) by lia. apply Z.pow_nonneg. lia. }
  lia.
Qed.

Lemma digits_ge (p : positive) (n : Z) : 2 ^ (n - 1) <= Zpos p -> n <= digits p.
Proof.
  intros H. pose proof (digits_bounds p) as [_ U]. pose proof (digits_pos p).
  destruct (Z.le_gt_cases n (digits p)) as [|G]; [assumption|].
  assert (2 ^ digits p <= 2 ^ (n - 1)) by (apply Z.pow_le_mono_r; lia).
  lia.
Qed.

Lemma pow2_split (a b : Z) : 0 <= a -> 0 <= b -> 2 ^ (a + b) = 2 ^ a * 2 ^ b.
Proof. intros. apply Z.pow_add_r; assumption. Qed.

Lemma bra_pos (sx : bool) (m : positive) (e : Z) :
  e <= fexp64 (digits m + e) ->
  match binary_round_aux prec emax sx (Zpos m) e loc_Exact with
  | S754_zero s => s = sx /\ rnd_units m e = 0
  | S754_infinity s => s = sx
  | S754_nan => False
  | S754_finite s p e2 =>
    s = sx /\ canonical p e2
    /\ Zpos p * 2 ^ (e2 + 1074)
       = rnd_units m e * 2 ^ (fexp64 (digits m + e) + 1074)
  end.
Proof.
  intros H. rewrite bra_exact by lia. cbv zeta.
  assert (Ek : bra_k (Zpos m) e = fexp64 (digits m + e) - e).
  { unfold bra_k. change (Zdigits2 (Zpos m)) with (digits m). lia. }
  unfold bra_m. rewrite Ek. fold (rnd_units m e).
  replace (e + (fexp64 (digits m + e) - e)) with (fexp64 (digits m + e)) by lia.
  pose proof (digits_bounds m) as [DL DU]. pose proof (digits_pos m) as D1.
  unfold rnd_units in *.
  remember (digits m) as d eqn:Hd.
  remember (fexp64 (d + e)) as E eqn:HE.
  remember (rn (Zpos m) (2 ^ (E - e))) as m1 eqn:Hm1.
  assert (PU : 0 < 2 ^ (E - e)) by (apply pow2_pos; lia).
  assert (N1 : 0 <= m1) by (subst m1; apply rn_nonneg; [exact PU | lia]).
  assert (EB : -1074 <= E) by (subst E; unfold fexp64; lia).
  destruct (Z.eq_dec m1 0) as [Z1|NZ].
  { rewrite Z1. rewrite Z.div_0_l by (apply Z.pow_nonzero; [lia | apply bra_k_nonneg]).
    split; reflexivity. }
  destruct m1 as [|p1|p1]; try lia. clear NZ. rename Hm1 into Em1.
  destruct (Z.le_gt_cases (-1074) (d + e - 53)) as [Nrm|Sub].
  - (* normal range: the quotient has 53 digits *)
    assert (EE : E = d + e - 53) by (subst E; unfold fexp64; lia).
    assert (Ee : E - e = d - 53) by lia.
    assert (L52 : 2 ^ 52 <= Zpos p1).
    { rewrite Em1. apply rn_ge; [exact PU|].
      rewrite Ee, <- pow2_split by lia. replace (52 + (d - 53)) with (d - 1) by lia.
      exact DL. }
    assert (U53 : Zpos p1 <= 2 ^ 53).
    { rewrite Em1. apply rn_le; [exact PU|].
      rewrite Ee, <- pow2_split by lia. replace (53 + (d - 53)) with d by lia.
      lia. }
    destruct (Z.eq_dec (Zpos p1) (2 ^ 53)) as [Top|NTop].
    + assert (Dg : digits p1 = 54).
      { apply Z.le_antisymm.
        - apply digits_le. rewrite Top. apply Z.pow_lt_mono_r; lia.
        - apply digits_ge. rewrite Top. change (54 - 1) with 53. lia. }
      assert (K2 : bra_k (Zpos p1) E = 1).
      { unfold bra_k. change (Zdigits2 (Zpos p1)) with (digits p1).
        rewrite Dg. unfold fexp64. lia. }
      rewrite K2, Top. change (2 ^ 53 / 2 ^ 1) with (Zpos (2 ^ 52)).
      destruct (E + 1 <=? 971) eqn:Le; [|reflexivity].
      apply Z.leb_le in Le.
      split; [reflexivity|]. split.
      * split; [|exact Le]. change (digits (2 ^ 52)) with 53.
        unfold fexp64. lia.
      * replace (E + 1 + 1074) with (1 + (E + 1074)) by lia.
        rewrite pow2_split by lia. change (Zpos (2 ^ 52)) with (2 ^ 52).
        change (2 ^ 1) with 2. lia.
    + assert (Dg : digits p1 = 53).
      { apply Z.le_antisymm.
        - apply digits_le. lia.
        - apply digits_ge. exact L52. }
      assert (K2 : bra_k (Zpos p1) E = 0).
      { unfold bra_k. change (Zdigits2 (Zpos p1)) with (digits p1).
        rewrite Dg. unfold fexp64. lia. }
      rewrite K2. rewrite Z.pow_0_r, Z.div_1_r, Z.add_0_r.
      destruct (E <=? 971) eqn:Le; [|reflexivity].
      apply Z.leb_le in Le.
      split; [reflexivity|]. split; [|reflexivity].
      split; [|exact Le]. rewrite Dg. unfold fexp64. lia.
  - (* subnormal range *)
    assert (EE : E = -1074) by (subst E; unfold fexp64; lia).
    assert (U52 : Zpos p1 <= 2 ^ 52).
    { rewrite Em1. apply rn_le; [exact PU|].
      rewrite <- pow2_split by lia.
      assert (2 ^ d <= 2 ^ (52 + (E - e))) by (apply Z.pow_le_mono_r; lia).
      lia. }
    assert (Dg : digits p1 <= 53).
    { apply digits_le. assert (2 ^ 52 < 2 ^ 53) by (apply Z.pow_lt_mono_r; lia).
      lia. }
    pose proof (digits_pos p1).
    assert (K2 : bra_k (Zpos p1) E = 0).
    { unfold bra_k. change (Zdigits2 (Zpos p1)) with (digits p1).
      unfold fexp64. lia. }
    rewrite K2. rewrite Z.pow_0_r, Z.div_1_r, Z.add_0_r.
    destruct (E <=? 971) eqn:Le; [|reflexivity].
    apply Z.leb_le in Le.
    split; [reflexivity|]. split; [|reflexivity].
    split; [|exact Le]. unfold fexp64. lia.
Qed.

Lemma rn_scale (X U c : Z) : 0 < U -> 0 < c -> rn (X * c) (U * c) = rn X U.
Proof.
  intros HU Hc. unfold rn.
  rewrite Z.div_mul_cancel_r by lia.
  rewrite Z.mul_mod_distr_r by lia.
  pose proof (Z.mod_pos_bound X U HU) as B.
  set (r := X mod U) in *.
  destruct (Z.ltb_spec (2 * (r * c)) (U * c));
    destruct (Z.ltb_spec (2 * r) U);
    destruct (Z.eqb_spec (2 * (r * c)) (U * c));
    destruct (Z.eqb_spec (2 * r) U); try reflexivity; nia.
Qed.

Lemma fexp64_mono (g g' : Z) : g <= g' -> fexp64 g <= fexp64 g'.
Proof. unfold fexp64. lia. Qed.

(** Rounding is monotone: the rounded values of two positive dyadic numbers
    are ordered as the numbers are.  All values are scaled by [2 ^ K]. *)
Lemma rnd_mono (m m' : positive) (e e' K : Z) :
  e <= fexp64 (digits m + e) ->
  e' <= fexp64 (digits m' + e') ->
  0 <= e + K -> 0 <= e' + K ->
  Zpos m * 2 ^ (e + K) <= Zpos m' * 2 ^ (e' + K) ->
  rnd_units m e * 2 ^ (fexp64 (digits m + e) + K)
  <= rnd_units m' e' * 2 ^ (fexp64 (digits m' + e') + K).
Proof.
  intros H H' HK HK' Le.
  pose proof (digits_bounds m) as [DL DU]. pose proof (digits_pos m) as D1.
  pose proof (digits_bounds m') as [DL' DU']. pose proof (digits_pos m') as D1'.
  unfold rnd_units.
  remember (digits m) as d eqn:Hd. remember (digits m') as d' eqn:Hd'.
  remember (fexp64 (d + e)) as E eqn:HE.
  remember (fexp64 (d' + e')) as E' eqn:HE'.
  assert (Pu : 0 < 2 ^ (e + K)) by (apply pow2_pos; lia).
  assert (Pu' : 0 < 2 ^ (e' + K)) by (apply pow2_pos; lia).
  assert (Pk : 0 < 2 ^ (E - e)) by (apply pow2_pos; lia).
  assert (Pk' : 0 < 2 ^ (E' - e')) by (apply pow2_pos; lia).
  assert (EU : 2 ^ (E + K) = 2 ^ (E - e) * 2 ^ (e + K)).
  { rewrite <- pow2_split by lia. f_equal. lia. }
  assert (EU' : 2 ^ (E' + K) = 2 ^ (E' - e') * 2 ^ (e' + K)).
  { rewrite <- pow2_split by lia. f_equal. lia. }
  (* both roundings are roundings of the scaled numbers *)
  rewrite <- (rn_scale (Zpos m) (2 ^ (E - e)) (2 ^ (e + K))) by assumption.
  rewrite <- (rn_scale (Zpos m') (2 ^ (E' - e')) (2 ^ (e' + K))) by assumption.
  rewrite <- EU, <- EU'.
  set (X := Zpos m * 2 ^ (e + K)) in *.
  set (Y := Zpos m' * 2 ^ (e' + K)) in *.
  assert (PU : 0 < 2 ^ (E + K)) by (apply pow2_pos; lia).
  assert (PU' : 0 < 2 ^ (E' + K)) by (apply pow2_pos; lia).
  (* magnitudes *)
  assert (XL : 2 ^ (d - 1 + (e + K)) <= X).
  { rewrite pow2_split by lia. unfold X. nia. }
  assert (XU : X < 2 ^ (d + (e + K))).
  { rewrite pow2_split by lia. unfold X. nia. }
  assert (YL : 2 ^ (d' - 1 + (e' + K)) <= Y).
  { rewrite pow2_split by lia. unfold Y. nia. }
  assert (YU : Y < 2 ^ (d' + (e' + K))).
  { rewrite pow2_split by lia. unfold Y. nia. }
  assert (G : d + e <= d' + e').
  { assert (L : 2 ^ (d - 1 + (e + K)) < 2 ^ (d' + (e' + K))) by lia.
    apply Z.pow_lt_mono_r_iff in L; lia. }
  assert (EE : E <= E') by (subst E E'; apply fexp64_mono, G).
  destruct (Z.eq_dec E E') as [Same|Diff].
  - rewrite <- Same.
    apply Z.mul_le_mono_nonneg_r; [lia|].
    apply rn_mono; assumption.
  - assert (Lt : E < E') by lia.
    assert (E'n : E' = d' + e' - 53) by (subst E E'; unfold fexp64 in *; lia).
    assert (Gs : d + e < d' + e') by (subst E E'; unfold fexp64 in *; lia).
    (* the larger number rounds to at least the power of two below it *)
    assert (PY : 2 ^ (d' - 1 + (e' + K)) <= rn Y (2 ^ (E' + K)) * 2 ^ (E' + K)).
    { assert (S : 2 ^ (d' - 1 + (e' + K)) = 2 ^ 52 * 2 ^ (E' + K)).
      { rewrite <- pow2_split by lia. f_equal. lia. }
      rewrite S. apply Z.mul_le_mono_nonneg_r; [lia|].
      apply rn_ge; [assumption | lia]. }
    (* the smaller number rounds to at most the power of two above it *)
    assert (PX : rn X (2 ^ (E + K)) * 2 ^ (E + K) <= 2 ^ (d' - 1 + (e' + K))).
    { destruct (Z.le_gt_cases E (d + e)) as [Big|Small].
      - assert (S : 2 ^ (d + (e + K)) = 2 ^ (d + e - E) * 2 ^ (E + K)).
        { rewrite <- pow2_split by lia. f_equal. lia. }
        assert (R : rn X (2 ^ (E + K)) <= 2 ^ (d + e - E)).
        { apply rn_le; [assumption | lia]. }
        assert (M : 2 ^ (d + (e + K)) <= 2 ^ (d' - 1 + (e' + K)))
          by (apply Z.pow_le_mono_r; lia).
        nia.
      - assert (R : rn X (2 ^ (E + K)) <= 1).
        { apply rn_le; [assumption|].
          assert (2 ^ (d + (e + K)) <= 2 ^ (E + K))
            by (apply Z.pow_le_mono_r; lia).
          lia. }
        assert (M : 2 ^ (E + K) <= 2 ^ (d' - 1 + (e' + K)))
          by (apply Z.pow_le_mono_r; lia).
        pose proof (rn_nonneg (2 ^ (E + K)) PU X ltac:(lia)).
        nia. }
    lia.
Qed.

(** The same, with the conclusion in units of [2 ^ -1074]. *)
Lemma rnd_mono_ulps (m m' : positive) (e e' K : Z) :
  e <= fexp64 (digits m + e) ->
  e' <= fexp64 (digits m' + e') ->
  0 <= e + K -> 0 <= e' + K ->
  Zpos m * 2 ^ (e + K) <= Zpos m' * 2 ^ (e' + K) ->
  rnd_units m e * 2 ^ (fexp64 (digits m + e) + 1074)
  <= rnd_units m' e' * 2 ^ (fexp64 (digits m' + e') + 1074).
Proof.
  intros H H' HK HK' Le.
  set (J := Z.max 0 (1074 - K)).
  assert (PJ : 0 < 2 ^ J) by (apply pow2_pos; lia).
  assert (Le' : Zpos m * 2 ^ (e + (K + J)) <= Zpos m' * 2 ^ (e' + (K + J))).
  { rewrite !Z.add_assoc.
    rewrite (pow2_split (e + K) J), (pow2_split (e' + K) J) by lia.
    rewrite !Z.mul_assoc. apply Z.mul_le_mono_nonneg_r; lia. }
  pose proof (rnd_mono m m' e e' (K + J) H H' ltac:(lia) ltac:(lia) Le') as R.
  assert (EB : -1074 <= fexp64 (digits m + e)) by (unfold fexp64; lia).
  assert (EB' : -1074 <= fexp64 (digits m' + e')) by (unfold fexp64; lia).
  set (E := fexp64 (digits m + e)) in *.
  set (E' := fexp64 (digits m' + e')) in *.
  replace (E + (K + J)) with (E + 1074 + (K + J - 1074)) in R by lia.
  replace (E' + (K + J)) with (E' + 1074 + (K + J - 1074)) in R by lia.
  rewrite (pow2_split (E + 1074)), (pow2_split (E' + 1074)) in R by lia.
  assert (PC : 0 < 2 ^ (K + J - 1074)) by (apply pow2_pos; lia).
  rewrite !Z.mul_assoc in R.
  apply Z.mul_le_mono_pos_r in R; assumption.
Qed.

(** *** [int] of a finite float *)

Lemma int_of_float_finite (s : bool) (m : positive) (e : Z) :
  -1074 <= e ->
  int_of_float (S754_finite s m e)
  = Ok ((if s then -1 else 1) * (Zpos m * 2 ^ (e + 1074) / 2 ^ 1074)).
Proof.
  intros H. unfold int_of_float. f_equal.
  assert (E : (if 0 <=? e then Z.shiftl (Zpos m) e else Z.shiftr (Zpos m) (- e))
              = Zpos m * 2 ^ (e + 1074) / 2 ^ 1074).
  { destruct (Z.leb_spec 0 e).
    - rewrite Z.shiftl_mul_pow2 by lia.
      rewrite pow2_split by lia. rewrite Z.mul_assoc.
      rewrite Z.div_mul; [reflexivity | apply Z.pow_nonzero; lia].
    - rewrite Z.shiftr_div_pow2 by lia.
      assert (S : 2 ^ 1074 = 2 ^ (- e) * 2 ^ (e + 1074)).
      { rewrite <- pow2_split by lia. f_equal. lia. }
      rewrite S. rewrite Z.div_mul_cancel_r;
        [reflexivity | apply Z.pow_nonzero; lia | apply Z.pow_nonzero; lia]. }
  rewrite E. destruct s; lia.
Qed.

Lemma canonical_emin (m : positive) (e : Z) : canonical m e -> -1074 <= e.
Proof. intros [H _]. unfold fexp64 in H. lia. Qed.

(** *** When the product of two mantissas needs no left shift *)

Lemma digits_mono (p q : positive) : (p <= q)%positive -> digits p <= digits q.
Proof.
  intros H. apply digits_le.
  pose proof (digits_bounds q) as [_ U]. lia.
Qed.

Lemma shift_ok_mul_r (mx my : positive) (ex ey : Z) :
  53 <= digits my -> shift_ok (mx * my) (ex + ey).
Proof.
  intros H. unfold shift_ok, fexp64.
  assert (digits my <= digits (mx * my)) by (apply digits_mono; nia).
  lia.
Qed.

Lemma shift_ok_mul_l (mx my : positive) (ex ey : Z) :
  53 <= digits mx -> shift_ok (mx * my) (ex + ey).
Proof.
  intros H. unfold shift_ok, fexp64.
  assert (digits mx <= digits (mx * my)) by (apply digits_mono; nia).
  lia.
Qed.

Lemma shift_ok_canonical (mx my : positive) (ex ey : Z) :
  canonical mx ex -> canonical my ey -> shift_ok (mx * my) (ex + ey).
Proof.
  intros [Hx _] [Hy _].
  destruct (Z.le_gt_cases 53 (digits mx)); [now apply shift_ok_mul_l|].
  destruct (Z.le_gt_cases 53 (digits my)); [now apply shift_ok_mul_r|].
  unfold shift_ok, fexp64 in *. lia.
Qed.

Lemma shift_ok_self (m : positive) (e : Z) : canonical m e -> shift_ok m e.
Proof. intros [H _]. unfold shift_ok. lia. Qed.

Lemma rnd_units_self (m : positive) (e : Z) :
  canonical m e -> rnd_units m e = Zpos m.
Proof.
  intros [H _]. unfold rnd_units. rewrite <- H, Z.sub_diag.
  change (2 ^ 0) with 1. rewrite <- (Z.mul_1_r (Zpos m)) at 1.
  apply rn_exact. lia.
Qed.

(** *** Well-formed results *)

Lemma bra_wf (sx : bool) (m : positive) (e : Z) :
  shift_ok m e -> wf (binary_round_aux prec emax sx (Zpos m) e loc_Exact).
Proof.
  intros H. pose proof (bra_pos sx m e H) as B.
  destruct (binary_round_aux prec emax sx (Zpos m) e loc_Exact);
    simpl; try exact I. apply B.
Qed.

Lemma fmul_wf (x y : float) : wf x -> wf y -> wf (fmul x y).
Proof.
  destruct x as [sx|sx| |sx mx ex], y as [sy|sy| |sy my ey];
    simpl; try (intros; exact I).
  intros Hx Hy. apply bra_wf, shift_ok_canonical; assumption.
Qed.

Lemma fmul_wf_r (x y : float) :
  (match y with S754_finite _ my _ => 53 <= digits my | _ => True end) ->
  wf (fmul x y).
Proof.
  destruct x as [sx|sx| |sx mx ex], y as [sy|sy| |sy my ey];
    simpl; try (intros; exact I).
  intros Hy. apply bra_wf, shift_ok_mul_r; assumption.
Qed.

Lemma digits_iter_xO (m d : positive) :
  digits (Pos.iter xO m d) = digits m + Zpos d.
Proof.
  rewrite Pos2Nat.inj_iter. rewrite <- (positive_nat_Z d).
  induction (Pos.to_nat d) as [|n IH].
  - simpl. lia.
  - rewrite Nat2Z.inj_succ. simpl Nat.iter. unfold digits in *.
    simpl digits2_pos. rewrite Pos2Z.inj_succ, IH. lia.
Qed.

Lemma binary_round_wf (sx : bool) (m : positive) (e : Z) :
  wf (binary_round prec emax sx m e).
Proof.
  unfold binary_round, shl_align. rewrite fexp64_eq.
  change (Zpos (digits2_pos m)) with (digits m).
  destruct (fexp64 (digits m + e) - e) as [|p|p] eqn:Es.
  - apply bra_wf. unfold shift_ok. lia.
  - apply bra_wf. unfold shift_ok. lia.
  - apply bra_wf. unfold shift_ok. rewrite digits_iter_xO.
    assert (fexp64 (digits m + e) = e - Zpos p) by lia.
    replace (digits m + Zpos p + fexp64 (digits m + e)) with (digits m + e) by lia.
    lia.
Qed.

Lemma binary_normalize_wf (m e : Z) (s : bool) :
  wf (binary_normalize prec emax m e s).
Proof.
  destruct m; simpl; [exact I | apply binary_round_wf | apply binary_round_wf].
Qed.

(** Adding anything to a finite canonical float gives a well-formed float. *)
Lemma fadd_wf_l (x y : float) :
  (match x with S754_finite _ _ _ => wf x | _ => False end) -> wf (fadd x y).
Proof.
  destruct x as [sx|sx| |sx mx ex]; try contradiction.
  intros Hx.
  destruct y as [sy|sy| |sy my ey]; try exact I; try exact Hx.
  apply binary_normalize_wf.
Qed.

(** *** Truncated values *)

Lemma trunc_units_nonneg (m : positive) (e : Z) : 0 <= trunc_units m e.
Proof.
  unfold trunc_units, rnd_units.
  assert (-1074 <= fexp64 (digits m + e)) by (unfold fexp64; lia).
  apply Z.div_pos; [|apply pow2_pos; lia].
  apply Z.mul_nonneg_nonneg; [|apply Z.pow_nonneg; lia].
  destruct (Z.le_gt_cases 0 (fexp64 (digits m + e) - e)).
  - apply rn_nonneg; [apply pow2_pos; assumption | lia].
  - rewrite Z.pow_neg_r by lia. unfold rn.
    rewrite Z.div_0_r, Z.mod_0_r. simpl. lia.
Qed.

Lemma canonical_trunc (s : bool) (m : positive) (e : Z) :
  canonical m e ->
  int_of_float (S754_finite s m e) = Ok (sgn s * trunc_units m e).
Proof.
  intros C. rewrite int_of_float_finite by (eapply canonical_emin; eassumption).
  unfold trunc_units. rewrite (rnd_units_self m e C).
  destruct C as [<- _]. reflexivity.
Qed.

Lemma bra_trunc (s : bool) (m : positive) (e z : Z) :
  shift_ok m e ->
  int_of_float (binary_round_aux prec emax s (Zpos m) e loc_Exact) = Ok z ->
  z = sgn s * trunc_units m e.
Proof.
  intros H. pose proof (bra_pos s m e H) as B.
  destruct (binary_round_aux prec emax s (Zpos m) e loc_Exact)
    as [s'|s'| |s' p e2].
  - destruct B as [_ B]. cbn [int_of_float]. intros E; injection E as <-.
    unfold trunc_units. rewrite B, Z.mul_0_l, Z.div_0_l, Z.mul_0_r;
      [reflexivity | apply Z.pow_nonzero; lia].
  - discriminate.
  - contradiction.
  - destruct B as (-> & C & V).
    rewrite int_of_float_finite by (eapply canonical_emin; eassumption).
    intros E. apply Ok_inj in E. subst z. unfold trunc_units, sgn.
    now rewrite V.
Qed.

Lemma trunc_units_mono (m m' : positive) (e e' K : Z) :
  shift_ok m e -> shift_ok m' e' ->
  0 <= e + K -> 0 <= e' + K ->
  Zpos m * 2 ^ (e + K) <= Zpos m' * 2 ^ (e' + K) ->
  trunc_units m e <= trunc_units m' e'.
Proof.
  intros. unfold trunc_units.
  apply Z.div_le_mono; [apply pow2_pos; lia|].
  eapply rnd_mono_ulps; eassumption.
Qed.

(** The truncated products of one mantissa with two ordered constants. *)
Lemma trunc_units_mul_mono (mx a b : positive) (ex ea eb J : Z) :
  shift_ok (mx * a) (ex + ea) -> shift_ok (mx * b) (ex + eb) ->
  0 <= ea + J -> 0 <= eb + J ->
  Zpos a * 2 ^ (ea + J) <= Zpos b * 2 ^ (eb + J) ->
  trunc_units (mx * a) (ex + ea) <= trunc_units (mx * b) (ex + eb).
Proof.
  intros Ha Hb Ja Jb Le.
  apply (trunc_units_mono _ _ _ _ (J + Z.abs ex) Ha Hb); try lia.
  replace (ex + ea + (J + Z.abs ex)) with (ea + J + (ex + Z.abs ex)) by lia.
  replace (ex + eb + (J + Z.abs ex)) with (eb + J + (ex + Z.abs ex)) by lia.
  rewrite (pow2_split (ea + J)), (pow2_split (eb + J)) by lia.
  rewrite !Pos2Z.inj_mul.
  assert (0 < 2 ^ (ex + Z.abs ex)) by (apply pow2_pos; lia).
  nia.
Qed.

(** ** Arithmetic of the numeric tower with a float operand *)

Lemma mul_float_r (a : num) (c : float) (r : num) :
  mul a (PyFloat c) = Ok r ->
  exists x, to_float a = Ok x /\ r = PyFloat (fmul x c).
Proof.
  unfold mul, lift2. destruct a as [z|f].
  - intros H. inv_bind H. apply Ok_inj in H. eauto.
  - intros H. apply Ok_inj in H. simpl. eauto.
Qed.

Lemma add_float_l (c : float) (b : num) (r : num) :
  add (PyFloat c) b = Ok r ->
  exists y, to_float b = Ok y /\ r = PyFloat (fadd c y).
Proof.
  unfold add, lift2. intros H. cbn [to_float bind] in H.
  inv_bind H. apply Ok_inj in H. eauto.
Qed.

Lemma f1_0_canonical : canonical 4503599627370496 (-52).
Proof. split; [reflexivity | lia]. Qed.

Lemma add_one_fwf (t r : num) : add (PyFloat f1_0) t = Ok r -> fwf r.
Proof.
  intros H. apply add_float_l in H. destruct H as (y & _ & ->).
  apply fadd_wf_l. exact f1_0_canonical.
Qed.

Lemma mul_fwf (a f r : num) : fwf a -> fwf f -> mul a f = Ok r -> fwf r.
Proof.
  destruct a as [|x]; [contradiction|]. destruct f as [|y]; [contradiction|].
  intros Hx Hy H. apply Ok_inj in H. subst r. apply fmul_wf; assumption.
Qed.

(** ** The decay factors *)

Lemma range_months : range 1 13 = months.
Proof. reflexivity. Qed.

Lemma decay_factors_pos53 : forallb pos53 (map decay_factor months) = true.
Proof. vm_compute. reflexivity. Qed.

Lemma decay_factors_decreasing : decreasing (map decay_factor months) = true.
Proof. vm_compute. reflexivity. Qed.

Lemma decay_step (mb : float) (month : Z) :
  is_inf (Z2F (month - 1)) = false ->
  (d <- mul (PyInt (month - 1)) (PyFloat f0_02) ;;
   factor <- sub (PyFloat f1_0) d ;;
   mul (PyFloat mb) factor)
  = Ok (PyFloat (fmul mb (decay_factor month))).
Proof.
  intros H. unfold mul, sub, lift2, to_float, float_of_int.
  rewrite H. reflexivity.
Qed.

Lemma mapM_map {A B : Type} (f : A -> result B) (g : A -> B) (l : list A) :
  Forall (fun x => f x = Ok (g x)) l -> mapM f l = Ok (map g l).
Proof.
  induction 1 as [|x xs Hx _ IH]; simpl; [reflexivity|].
  now rewrite Hx, IH.
Qed.

Lemma base_forecast_shape (sales_data : list Z) (base : list num) :
  _calculate_base_forecast sales_data = Ok base ->
  exists mb,
    base = map (fun month => PyFloat (fmul mb (decay_factor month))) months.
Proof.
  unfold _calculate_base_forecast. intros H.
  do 11 inv_bind H. inv_bind H.
  match goal with
  | E : mul _ (PyFloat f30_44) = Ok _ |- _ =>
    apply mul_float_r in E; destruct E as (bd & _ & ->)
  end.
  exists (fmul bd f30_44). rewrite range_months in H.
  set (mb := fmul bd f30_44) in *.
  rewrite (mapM_map _ (fun month => PyFloat (fmul mb (decay_factor month))))
    in H.
  - now apply Ok_inj in H.
  - unfold months.
    repeat (apply Forall_cons;
            [cbv beta; apply decay_step; vm_compute; reflexivity|]).
    apply Forall_nil.
Qed.

(** ** The exogenous adjustment *)

Lemma Forall2_combine {A B C : Type} (P : B -> C -> Prop)
  (l1 : list A) (l2 : list B) (ys : list C) :
  List.length l1 = List.length l2 ->
  Forall2 (fun ab y => P (snd ab) y) (combine l1 l2) ys ->
  Forall2 P l2 ys.
Proof.
  revert l1 ys. induction l2 as [|b l2 IH]; intros [|a l1] ys L H;
    simpl in *; try discriminate.
  - inversion H. constructor.
  - inversion H; subst. constructor; [assumption|].
    apply (IH l1); [congruence | assumption].
Qed.

Lemma length_range (a b : Z) : List.length (range a b) = Z.to_nat (b - a).
Proof. unfold range. now rewrite length_map, length_seq. Qed.

Lemma scale_each_ok (factor : Z -> result num) (adjusted adjusted' : list num) :
  scale_each factor adjusted = Ok adjusted' ->
  Forall2 (fun a a' => exists i f, factor i = Ok f /\ mul a f = Ok a')
          adjusted adjusted'.
Proof.
  unfold scale_each. intros H. apply mapM_ok in H.
  apply (Forall2_combine _ (range 0 (len adjusted))).
  - rewrite length_range. unfold len. lia.
  - eapply Forall2_impl; [|exact H].
    intros [i a] a' E. cbn [fst snd] in *. inv_bind E. eauto.
Qed.

(** Scaling by one and the same factor. *)
Lemma scale_each_const (f : num) (adjusted adjusted' : list num) :
  scale_each (fun _ => Ok f) adjusted = Ok adjusted' ->
  Forall2 (fun a a' => mul a f = Ok a') adjusted adjusted'.
Proof.
  intros H. apply scale_each_ok in H.
  eapply Forall2_impl; [|exact H].
  intros a a' (i & g & E & M). apply Ok_inj in E. now subst g.
Qed.

Lemma Forall2_fwf (R : num -> num -> Prop) (l l' : list num) :
  (forall a a', fwf a -> R a a' -> fwf a') ->
  Forall fwf l -> Forall2 R l l' -> Forall fwf l'.
Proof.
  intros HR Hl H. induction H as [|a a' l l' Ha _ IH]; constructor.
  - inversion Hl; subst. eapply HR; eassumption.
  - inversion Hl; subst. auto.
Qed.

Lemma base_forecast_fwf (sales_data : list Z) (base : list num) :
  _calculate_base_forecast sales_data = Ok base ->
  Forall fwf base /\ List.length base = 12%nat.
Proof.
  intros H. apply base_forecast_shape in H. destruct H as (mb & ->).
  split; [|reflexivity].
  pose proof decay_factors_pos53 as P.
  rewrite forallb_forall in P.
  apply Forall_forall. intros a Ha. apply in_map_iff in Ha.
  destruct Ha as (month & <- & Hm).
  apply fmul_wf_r.
  specialize (P (decay_factor month) (in_map decay_factor _ _ Hm)).
  destruct (decay_factor month) as [| | |[] m e]; try discriminate.
  unfold pos53 in P. apply andb_prop in P. destruct P as [P _].
  apply andb_prop in P. destruct P as [P _]. apply Z.eqb_eq in P. lia.
Qed.

Lemma exogenous_fwf (base adj : list num)
  (td : option (list TrendSignal)) (rf : option (list RegulationFlag))
  (ef : option dict) :
  _apply_exogenous_signals base td rf ef = Ok adj ->
  Forall fwf base ->
  Forall fwf adj /\ List.length adj = List.length base.
Proof.
  unfold _apply_exogenous_signals. intros H Hb.
  inv_bind H. inv_bind H. apply Ok_inj in H. subst adj.
  assert (S1 : Forall fwf v /\ List.length v = List.length base).
  { destruct (truthy td).
    - inv_bind E. apply scale_each_ok in E. split.
      + eapply Forall2_fwf; [|exact Hb|exact E].
        intros a a' Ha (i & f & Hf & Hm).
        do 3 inv_bind Hf. apply add_one_fwf in Hf.
        exact (mul_fwf a f a' Ha Hf Hm).
      + symmetry. eapply Forall2_length; eassumption.
    - apply Ok_inj in E. subst v. split; [assumption | reflexivity]. }
  destruct S1 as [F1 L1].
  destruct (truthy rf).
  - inv_bind E0. apply scale_each_ok in E0. split.
    + eapply Forall2_fwf; [|exact F1|exact E0].
      intros a a' Ha (i & f & Hf & Hm).
      apply add_one_fwf in Hf. exact (mul_fwf a f a' Ha Hf Hm).
    + rewrite <- L1. symmetry. eapply Forall2_length; eassumption.
  - apply Ok_inj in E0. subst v0. split; assumption.
Qed.

(** ** The months of an ensemble response *)

Lemma months_of_adjusted (P : num -> MonthlyForecast -> Prop)
  (adj : list num) (fs : list MonthlyForecast) :
  List.length adj = 12%nat ->
  Forall2 (fun month f => exists x, getitem adj (month - 1) = Ok x /\ P x f)
          months fs ->
  Forall2 P adj fs.
Proof.
  intros L H.
  do 12 (destruct adj as [|? adj]; [discriminate L|]).
  destruct adj; [|discriminate L].
  unfold months in H.
  repeat match goal with
         | H : Forall2 _ (_ :: _) _ |- _ =>
           inversion H; subst; clear H
         | H : Forall2 _ [] _ |- _ => inversion H; subst; clear H
         end.
  repeat match goal with
         | H : exists _, getitem _ _ = Ok _ /\ _ |- _ =>
           let x := fresh "x" in
           let E := fresh "E" in
           destruct H as (x & E & H); apply Ok_inj in E; subst x
         end.
  repeat constructor; assumption.
Qed.

Lemma predict_ensemble (now : string) (inputs : ForecastInputs)
  (r : ForecastResponse) :
  let sales_data := _parse_sales_history (sales_history inputs) in
  predict now inputs = Ok r ->
  (len sales_data <? 7) = false ->
  exists base adj,
    _calculate_base_forecast sales_data = Ok base
    /\ _apply_exogenous_signals base (trends_data inputs)
         (regulation_flags inputs) (exogenous_factors inputs) = Ok adj
    /\ Forall2 month_of adj (Response.forecasts r).
Proof.
  intros sales_data H L. unfold predict in H. fold sales_data in H.
  rewrite L in H. do 3 inv_bind H. apply Ok_inj in H. subst r.
  cbn [Response.forecasts].
  exists v, v0. split; [assumption|]. split; [assumption|].
  destruct (base_forecast_fwf _ _ E) as [Fb Lb].
  destruct (exogenous_fwf _ _ _ _ _ E0 Fb) as [_ La].
  apply months_of_adjusted; [congruence|].
  apply mapM_ok in E1. rewrite range_months in E1.
  eapply Forall2_impl; [|exact E1].
  intros month f Hf. cbv beta in Hf.
  do 8 inv_bind Hf. apply Ok_inj in Hf. subst f.
  eexists. split; [eassumption|].
  unfold month_of. cbn [predicted_quantity confidence_lower confidence_upper].
  eauto 12.
Qed.

(** ** Scaling a forecast by a constant, then truncating *)

Lemma pos53_inv (c : float) :
  pos53 c = true ->
  exists mc ec, c = S754_finite false mc ec /\ digits mc = 53
                /\ -1100 <= ec <= 1100.
Proof.
  destruct c as [| | |[] mc ec]; try discriminate. unfold pos53.
  intros H. apply andb_prop in H. destruct H as [H H3].
  apply andb_prop in H. destruct H as [H1 H2].
  apply Z.eqb_eq in H1. apply Z.leb_le in H2, H3. eauto 6.
Qed.

Lemma fmul_const_trunc (s : bool) (m mc : positive) (e ec z : Z) :
  digits mc = 53 ->
  int_of_float (fmul (S754_finite s m e) (S754_finite false mc ec)) = Ok z ->
  z = sgn s * trunc_units (m * mc) (e + ec).
Proof.
  intros D H. unfold fmul, SFmul in H. rewrite xorb_false_r in H.
  apply bra_trunc in H; [exact H|]. apply shift_ok_mul_r. lia.
Qed.

Lemma trunc_units_one (m : positive) (e : Z) :
  trunc_units (m * 1) (e + 0) = trunc_units m e.
Proof. now rewrite Pos.mul_1_r, Z.add_0_r. Qed.

Lemma scaled_trunc (c x : float) (pq z : Z) :
  wf x -> pos53 c = true ->
  int_of_float x = Ok pq ->
  int_of_float (fmul x c) = Ok z ->
  (le_one c = true ->
   (fleb f0_0 x = true -> 0 <= z <= pq)
   /\ (fleb x f0_0 = true -> pq <= z <= 0))
  /\ (ge_one c = true ->
      (fleb f0_0 x = true -> 0 <= pq <= z)
      /\ (fleb x f0_0 = true -> z <= pq <= 0)).
Proof.
  intros W P Hx Hz.
  destruct (pos53_inv c P) as (mc & ec & -> & D & B).
  destruct x as [s|s| |s m e]; try discriminate.
  - (* zero *)
    cbn in Hx, Hz. apply Ok_inj in Hx, Hz. subst pq z.
    repeat split; lia.
  - (* finite *)
    cbn [wf] in W.
    rewrite (canonical_trunc s m e W) in Hx. apply Ok_inj in Hx.
    apply fmul_const_trunc in Hz; [|exact D].
    pose proof (trunc_units_nonneg m e) as N.
    pose proof (trunc_units_nonneg (m * mc) (e + ec)) as Nc.
    assert (So : shift_ok (m * 1) (e + 0)).
    { rewrite Pos.mul_1_r, Z.add_0_r. apply shift_ok_self, W. }
    assert (Sc : shift_ok (m * mc) (e + ec)) by (apply shift_ok_mul_r; lia).
    split; intros C; unfold le_one, ge_one in C; apply Z.leb_le in C.
    + assert (T : trunc_units (m * mc) (e + ec) <= trunc_units m e).
      { rewrite <- (trunc_units_one m e).
        apply (trunc_units_mul_mono m mc 1 e ec 0 1100 Sc So); try lia. }
      destruct s; unfold fleb, sgn in *; cbn; split; intros F;
        try discriminate; lia.
    + assert (T : trunc_units m e <= trunc_units (m * mc) (e + ec)).
      { rewrite <- (trunc_units_one m e).
        apply (trunc_units_mul_mono m 1 mc e 0 ec 1100 So Sc); try lia. }
      destruct s; unfold fleb, sgn in *; cbn; split; intros F;
        try discriminate; lia.
Qed.

(** The products of one float with two ordered constants. *)
Lemma decayed_trunc (mb c c' : float) (z z' : Z) :
  pos53 c = true -> pos53 c' = true -> dle c' c = true ->
  int_of_float (fmul mb c) = Ok z -> 0 <= z ->
  int_of_float (fmul mb c') = Ok z' -> 0 <= z' ->
  z' <= z.
Proof.
  intros P P' L Hz Nz Hz' Nz'.
  destruct (pos53_inv c P) as (mc & ec & -> & D & B).
  destruct (pos53_inv c' P') as (mc' & ec' & -> & D' & B').
  destruct mb as [s|s| |s m e]; try discriminate.
  - cbn in Hz, Hz'. apply Ok_inj in Hz, Hz'. lia.
  - apply fmul_const_trunc in Hz; [|exact D].
    apply fmul_const_trunc in Hz'; [|exact D'].
    pose proof (trunc_units_nonneg (m * mc) (e + ec)).
    pose proof (trunc_units_nonneg (m * mc') (e + ec')).
    destruct s; unfold sgn in *; [lia|].
    unfold dle in L. apply Z.leb_le in L.
    assert (T : trunc_units (m * mc') (e + ec') <= trunc_units (m * mc) (e + ec)).
    { apply (trunc_units_mul_mono m mc' mc e ec' ec 1100); try lia;
        apply shift_ok_mul_r; lia. }
    lia.
Qed.

(** [int] of a non-negative number is non-negative. *)
Lemma to_int_nonneg (x : num) (z : Z) :
  leb (PyInt 0) x = true -> to_int x = Ok z -> 0 <= z.
Proof.
  destruct x as [i|[s|s| |s m e]]; unfold leb, compare; cbn [to_int].
  - intros H E. apply Ok_inj in E. subst z.
    destruct (Z.compare_spec 0 i); try discriminate; lia.
  - intros _ E. apply Ok_inj in E. lia.
  - discriminate.
  - discriminate.
  - unfold cmp_int_float, int_of_float. intros H E. apply Ok_inj in E.
    destruct s.
    + exfalso. destruct (0 <=? e).
      * pose proof (Z.shiftl_nonneg (Zneg m) e) as S.
        destruct (Z.compare_spec 0 (Z.shiftl (Zneg m) e)); try discriminate;
          lia.
      * rewrite Z.shiftl_0_l in H. discriminate.
    + subst z. destruct (0 <=? e).
      * apply Z.shiftl_nonneg. lia.
      * apply Z.shiftr_nonneg. lia.
Qed.

(** Without signals the adjusted forecasts are the base forecasts. *)
Lemma exogenous_none (base : list num)
  (td : option (list TrendSignal)) (rf : option (list RegulationFlag))
  (ef : option dict) :
  truthy td = false -> truthy rf = false ->
  _apply_exogenous_signals base td rf ef = Ok base.
Proof.
  intros Ht Hr. unfold _apply_exogenous_signals. now rewrite Ht, Hr.
Qed.

Lemma month_of_float (x : num) (f : MonthlyForecast) :
  fwf x -> month_of x f ->
  exists v lo up,
    x = PyFloat v /\ wf v
    /\ int_of_float v = Ok (predicted_quantity f)
    /\ confidence_lower f = Some lo
    /\ int_of_float (fmul v f0_8) = Ok lo
    /\ confidence_upper f = Some up
    /\ int_of_float (fmul v f1_2) = Ok up.
Proof.
  destruct x as [|v]; [contradiction|]. intros W.
  intros (l & u & lo & up & Hl & Il & Hu & Iu & Ip & El & Eu).
  apply Ok_inj in Hl, Hu. subst l u. cbn [to_int] in *.
  exists v, lo, up. repeat split; assumption.
Qed.

Lemma Forall2_map_left {A B C : Type} (g : A -> B) (P : B -> C -> Prop)
  (l : list A) (ys : list C) :
  Forall2 P (map g l) ys -> Forall2 (fun a y => P (g a) y) l ys.
Proof.
  revert ys. induction l as [|a l IH]; intros ys H; inversion H; subst;
    constructor; auto.
Qed.

Lemma Forall2_and_left {A B : Type} (P : A -> Prop) (R : A -> B -> Prop)
  (l : list A) (ys : list B) :
  Forall P l -> Forall2 R l ys -> Forall2 (fun a y => P a /\ R a y) l ys.
Proof.
  intros HP H. induction H; inversion HP; subst; constructor; auto.
Qed.

(** Predicted quantities along a decreasing list of factors. *)
Lemma decreasing_months (mb : float) (ds : list float)
  (fs : list MonthlyForecast) :
  forallb pos53 ds = true -> decreasing ds = true ->
  Forall2 (fun d f => int_of_float (fmul mb d) = Ok (predicted_quantity f)
                      /\ 0 <= predicted_quantity f) ds fs ->
  forall k f g,
    nth_error fs k = Some f -> nth_error fs (S k) = Some g ->
    predicted_quantity g <= predicted_quantity f.
Proof.
  intros P D H. induction H as [|d f0 ds fs [Hf Nf] H IH]; intros k f g Ef Eg.
  - destruct k; discriminate.
  - cbn [forallb] in P. apply andb_prop in P. destruct P as [Pd Pds].
    destruct k as [|k].
    + cbn in Ef, Eg.
      destruct H as [|d' f1 ds fs [Hf1 Nf1] H]; [discriminate|].
      cbn in Eg.
      assert (f1 = g) by congruence. assert (f0 = f) by congruence.
      subst f1 f0.
      cbn [decreasing] in D. apply andb_prop in D. destruct D as [L _].
      cbn [forallb] in Pds. apply andb_prop in Pds. destruct Pds as [Pd' _].
      eapply (decayed_trunc mb d d'); eassumption.
    + apply (IH Pds) with (k := k); [|exact Ef|exact Eg].
      destruct ds as [|d' ds]; [reflexivity|].
      cbn [decreasing] in D. apply andb_prop in D. apply D.
Qed.

Lemma conservative_forecasts (now : string) (inputs : ForecastInputs)
  (r : ForecastResponse) :
  predict now inputs = Ok r ->
  (len (_parse_sales_history (sales_history inputs)) <? 7) = true ->
  Response.forecasts r = map conservative_month months.
Proof.
  unfold predict. intros H L. rewrite L in H. apply Ok_inj in H. now subst r.
Qed.

(** ** C7: the months do not increase

    C7: with no trends data and no regulation flags, and every base forecast
    of [_calculate_base_forecast] non-negative, the twelve predicted
    quantities are non-increasing in the month: month [k + 1] is at most
    month [k]. *)
Theorem C7_months_non_increasing (now : string) (inputs : ForecastInputs)
  (base : list num) (r : ForecastResponse) :
  truthy (trends_data inputs) = false ->
  truthy (regulation_flags inputs) = false ->
  _calculate_base_forecast (_parse_sales_history (sales_history inputs))
  = Ok base ->
  Forall (fun x => leb (PyInt 0) x = true) base ->
  predict now inputs = Ok r ->
  List.length (Response.forecasts r) = 12%nat
  /\ forall k f g,
       nth_error (Response.forecasts r) k = Some f ->
       nth_error (Response.forecasts r) (S k) = Some g ->
       predicted_quantity g <= predicted_quantity f.
Proof.
  intros Ht Hr Hb Nb H.
  destruct (len (_parse_sales_history (sales_history inputs)) <? 7) eqn:L.
  - rewrite (conservative_forecasts now inputs r H L).
    split; [reflexivity|]. intros k f g Ef Eg.
    apply nth_error_In in Ef, Eg. cbn in Ef, Eg.
    repeat (destruct Ef as [<-|Ef]; [|]); try contradiction;
      repeat (destruct Eg as [<-|Eg]; [|]); try contradiction;
      cbn; lia.
  - destruct (predict_ensemble now inputs r H L) as (base' & adj & Hb' & Ha & F).
    rewrite Hb in Hb'. apply Ok_inj in Hb'. subst base'.
    rewrite (exogenous_none base _ _ _ Ht Hr) in Ha. apply Ok_inj in Ha.
    subst adj.
    split.
    { rewrite <- (Forall2_length F).
      apply (base_forecast_fwf _ _ Hb). }
    apply base_forecast_shape in Hb. destruct Hb as (mb & ->).
    rewrite <- (map_map decay_factor (fun d => PyFloat (fmul mb d))) in F, Nb.
    apply (decreasing_months mb (map decay_factor months)).
    + exact decay_factors_pos53.
    + exact decay_factors_decreasing.
    + pose proof (Forall2_and_left _ _ _ _ Nb F) as F'.
      apply Forall2_map_left in F'.
      eapply Forall2_impl; [|exact F'].
      intros d f [N M]. cbv beta in N, M.
      destruct M as (l & u & lo & up & _ & _ & _ & _ & Ip & _).
      split; [exact Ip|]. eapply to_int_nonneg; eassumption.
Qed.

Lemma C7_witness :
  exists r,
    predict "2024-07-01T00:00:00" steady_inputs = Ok r
    /\ List.length (Response.forecasts r) = 12%nat
    /\ forall k f g,
         nth_error (Response.forecasts r) k = Some f ->
         nth_error (Response.forecasts r) (S k) = Some g ->
         predicted_quantity g <= predicted_quantity f.
Proof.
  destruct (predict "2024-07-01T00:00:00" steady_inputs) as [r|e] eqn:E;
    [|vm_compute in E; discriminate].
  destruct (_calculate_base_forecast
              (_parse_sales_history (sales_history steady_inputs)))
    as [base|e] eqn:B; [|vm_compute in B; discriminate].
  exists r. split; [reflexivity|].
  apply (C7_months_non_increasing "2024-07-01T00:00:00" steady_inputs base r);
    [reflexivity | reflexivity | exact B | | exact E].
  pose proof B as B'. vm_compute in B'. apply Ok_inj in B'. subst base.
  repeat (apply Forall_cons; [vm_compute; reflexivity|]). apply Forall_nil.
Defined.

(** ** C3: the confidence bounds *)

(** Ten days of 10 units: month 1 has forecast [304.4], predicted quantity
    [304] and upper bound [int(304.4 * 1.2) = 365], while
    [floor(1.2 * 304) = 364]; month 6 has predicted quantity [273] and lower
    bound [219], while [floor(0.8 * 273) = 218].  One sale of 100 units and
    six days without sales: month 1 has predicted quantity [-403] between the
    lower bound [-322] above it and the upper bound [-484] below it. *)
Lemma C3_counterexample :
  exists r f g r' h,
    predict "2024-07-01T00:00:00" steady_inputs = Ok r
    /\ Response.algorithm r = "ensemble"
    /\ nth_error (Response.forecasts r) 0 = Some f
    /\ predicted_quantity f = 304
    /\ confidence_upper f = Some 365
    /\ confidence_upper f <> Some (spec_upper (predicted_quantity f))
    /\ nth_error (Response.forecasts r) 5 = Some g
    /\ predicted_quantity g = 273
    /\ confidence_lower g = Some 219
    /\ confidence_lower g <> Some (spec_lower (predicted_quantity g))
    /\ predict "2024-07-01T00:00:00" spike_inputs = Ok r'
    /\ Response.algorithm r' = "ensemble"
    /\ nth_error (Response.forecasts r') 0 = Some h
    /\ predicted_quantity h = -403
    /\ confidence_lower h = Some (-322)
    /\ confidence_upper h = Some (-484).
Proof.
  destruct (predict "2024-07-01T00:00:00" steady_inputs) as [r|e] eqn:E;
    vm_compute in E; [|discriminate].
  destruct (predict "2024-07-01T00:00:00" spike_inputs) as [r'|e] eqn:E';
    vm_compute in E'; [|discriminate].
  apply Ok_inj in E, E'. subst r r'.
  do 5 eexists.
  split; [reflexivity|]. split; [reflexivity|]. split; [reflexivity|].
  split; [reflexivity|]. split; [reflexivity|].
  split; [vm_compute; discriminate|].
  split; [reflexivity|]. split; [reflexivity|]. split; [reflexivity|].
  split; [vm_compute; discriminate|].
  split; [reflexivity|]. split; [reflexivity|]. split; [reflexivity|].
  split; [reflexivity|]. split; reflexivity.
Qed.

Lemma f0_8_facts : pos53 f0_8 = true /\ le_one f0_8 = true.
Proof. split; vm_compute; reflexivity. Qed.

Lemma f1_2_facts : pos53 f1_2 = true /\ ge_one f1_2 = true.
Proof. split; vm_compute; reflexivity. Qed.

Lemma month_bounds (x : num) (f : MonthlyForecast) :
  fwf x -> month_of x f -> exists v, x = PyFloat v /\ bounds_of v f.
Proof.
  intros W M.
  destruct (month_of_float x f W M)
    as (v & lo & up & -> & Wv & Ip & El & Il & Eu & Iu).
  exists v. split; [reflexivity|]. exists lo, up.
  destruct f0_8_facts as [P8 L8]. destruct f1_2_facts as [P12 G12].
  destruct (scaled_trunc f0_8 v _ lo Wv P8 Ip Il) as [S8 _].
  destruct (scaled_trunc f1_2 v _ up Wv P12 Ip Iu) as [_ S12].
  specialize (S8 L8). specialize (S12 G12).
  destruct S8 as [S8p S8n]. destruct S12 as [S12p S12n].
  refine (conj Ip (conj El (conj Il (conj Eu (conj Iu (conj _ _))))));
    intros F.
  - specialize (S8p F). specialize (S12p F). lia.
  - specialize (S8n F). specialize (S12n F). lia.
Qed.

Lemma Forall2_fwf_impl {B : Type} (P Q : num -> B -> Prop)
  (l : list num) (ys : list B) :
  (forall x y, fwf x -> P x y -> Q x y) ->
  Forall fwf l -> Forall2 P l ys -> Forall2 Q l ys.
Proof.
  intros HPQ W H. induction H; inversion W; subst; constructor; auto.
Qed.

(** C3, as amended: on the ensemble path the three fields of a month come
    from its adjusted, unrounded forecast [v]: [predicted_quantity = int(v)],
    [confidence_lower = int(v * 0.8)] and [confidence_upper = int(v * 1.2)],
    [int] truncating toward zero; then
    [confidence_lower <= predicted_quantity <= confidence_upper] when
    [v >= 0], and the reverse order when [v <= 0].  On the conservative path
    all three fields are 0. *)
Theorem C3_bounds_follow_forecast (now : string) (inputs : ForecastInputs)
  (r : ForecastResponse) :
  let sales_data := _parse_sales_history (sales_history inputs) in
  predict now inputs = Ok r ->
  (len sales_data < 7 ->
   Forall (fun f => predicted_quantity f = 0
                    /\ confidence_lower f = Some 0
                    /\ confidence_upper f = Some 0)
          (Response.forecasts r))
  /\ (7 <= len sales_data ->
      exists base adjusted,
        _calculate_base_forecast sales_data = Ok base
        /\ _apply_exogenous_signals base (trends_data inputs)
             (regulation_flags inputs) (exogenous_factors inputs)
           = Ok adjusted
        /\ Forall2 (fun x f => exists v, x = PyFloat v /\ bounds_of v f)
                   adjusted (Response.forecasts r)).
Proof.
  intros sales_data H. split; intros L.
  - rewrite (conservative_forecasts now inputs r H)
      by (apply Z.ltb_lt; exact L).
    unfold months. repeat (apply Forall_cons; [repeat split|]).
    apply Forall_nil.
  - assert (L' : (len sales_data <? 7) = false) by (apply Z.ltb_ge; exact L).
    destruct (predict_ensemble now inputs r H L') as (base & adj & Hb & Ha & F).
    exists base, adj. split; [exact Hb|]. split; [exact Ha|].
    destruct (base_forecast_fwf _ _ Hb) as [Wb _].
    destruct (exogenous_fwf _ _ _ _ _ Ha Wb) as [Wa _].
    apply (Forall2_fwf_impl month_of); [|exact Wa|exact F].
    intros x f. apply month_bounds.
Qed.

Lemma C3_witness :
  exists r,
    predict "2024-07-01T00:00:00" steady_inputs = Ok r
    /\ exists base adjusted,
         _calculate_base_forecast
           (_parse_sales_history (sales_history steady_inputs)) = Ok base
         /\ _apply_exogenous_signals base (trends_data steady_inputs)
              (regulation_flags steady_inputs)
              (exogenous_factors steady_inputs)
            = Ok adjusted
         /\ Forall2 (fun x f => exists v, x = PyFloat v /\ bounds_of v f)
                    adjusted (Response.forecasts r).
Proof.
  destruct (predict "2024-07-01T00:00:00" steady_inputs) as [r|e] eqn:E;
    [|vm_compute in E; discriminate].
  exists r. split; [reflexivity|].
  apply (C3_bounds_follow_forecast "2024-07-01T00:00:00" steady_inputs r E).
  vm_compute. discriminate.
Defined.

(** ** C4: the sign of the predicted quantity *)

(** One sale of 100 units followed by six days without sales: all quantities
    are non-negative and no signal is given, the trend projected to index
    [N + 6] is about [-92.9] per day, the ensemble is about [-13.3] per day,
    and month 1 gets the predicted quantity [-403]. *)
Lemma C4_counterexample :
  exists r f,
    Forall (fun p => 0 <= quantity p) (sales_history spike_inputs)
    /\ predict "2024-07-01T00:00:00" spike_inputs = Ok r
    /\ nth_error (Response.forecasts r) 0 = Some f
    /\ predicted_quantity f = -403
    /\ predicted_quantity f < 0
    /\ trends_data spike_inputs = None
    /\ regulation_flags spike_inputs = None
    /\ trend_not_negative (_parse_sales_history (sales_history spike_inputs))
       = false.
Proof.
  destruct (predict "2024-07-01T00:00:00" spike_inputs) as [r|e] eqn:E;
    vm_compute in E; [|discriminate].
  injection E as <-.
  eexists. eexists.
  split; [repeat (apply Forall_cons; [simpl; lia|]); apply Forall_nil|].
  split; [reflexivity|]. split; [reflexivity|].
  split; [reflexivity|]. split; [simpl; lia|].
  split; [reflexivity|]. split; [reflexivity|].
  vm_compute. reflexivity.
Qed.

(** ** Signs *)

Lemma holds_bind {A B : Type} (Q : A -> Prop) (P : B -> Prop)
  (c : result A) (k : A -> result B) :
  holds Q c -> (forall a, Q a -> holds P (k a)) -> holds P (bind c k).
Proof.
  destruct c as [a|e]; cbn; intros Hc Hk; [apply Hk, Hc | exact I].
Qed.

Lemma holds_ok {A : Type} (P : A -> Prop) (c : result A) (a : A) :
  holds P c -> c = Ok a -> P a.
Proof. intros H E. now rewrite E in H. Qed.

Lemma holds_foldM {A B : Type} (P : A -> Prop) (Q : B -> Prop)
  (f : A -> B -> result A) (l : list B) (a : A) :
  (forall a x, P a -> Q x -> holds P (f a x)) ->
  P a -> Forall Q l -> holds P (foldM f a l).
Proof.
  intros Hf Ha Hl. revert a Ha. induction Hl as [|x l Hx _ IH]; intros a Ha.
  - exact Ha.
  - cbn [foldM]. apply (holds_bind P); [apply Hf; assumption | exact IH].
Qed.

Lemma holds_mapM {A B : Type} (Q : A -> Prop) (P : B -> Prop)
  (f : A -> result B) (l : list A) :
  (forall x, Q x -> holds P (f x)) ->
  Forall Q l -> holds (Forall P) (mapM f l).
Proof.
  intros Hf Hl. induction Hl as [|x l Hx _ IH]; cbn [mapM].
  - constructor.
  - apply (holds_bind P); [apply Hf, Hx|]. intros y Hy.
    apply (holds_bind (Forall P)); [exact IH|]. intros ys Hys.
    constructor; assumption.
Qed.

Lemma shr_iter_m (n : nat) (mrs : shr_record) :
  0 <= shr_m mrs ->
  shr_m (Nat.iter n shr_1 mrs) = shr_m mrs / 2 ^ Z.of_nat n.
Proof.
  intros H. induction n as [|n IH].
  - simpl. now rewrite Z.div_1_r.
  - rewrite Nat2Z.inj_succ. simpl Nat.iter.
    assert (P : 0 < 2 ^ Z.of_nat n) by (apply pow2_pos; lia).
    assert (N : 0 <= shr_m (Nat.iter n shr_1 mrs))
      by (rewrite IH; apply Z.div_pos; lia).
    destruct (shr_1_m _ N) as (E & _). rewrite E, IH.
    rewrite Z.pow_succ_r by lia.
    rewrite Z.div_div by lia. f_equal. lia.
Qed.

(** The first shift of [binary_round_aux], whatever the location is: the
    mantissa is divided by [2 ^ bra_k]. *)
Lemma shr_fexp_m (m e : Z) (l : location) :
  0 <= m ->
  let '(mrs, e') := shr_fexp prec emax m e l in
  e' = e + bra_k m e /\ shr_m mrs = m / 2 ^ bra_k m e.
Proof.
  intros H. unfold shr_fexp, shr. rewrite fexp64_eq. unfold bra_k.
  assert (M : shr_m (shr_record_of_loc m l) = m)
    by (destruct l as [|[]]; reflexivity).
  destruct (fexp64 (Zdigits2 m + e) - e) as [|p|p].
  - rewrite M. cbn. rewrite Z.div_1_r. split; [lia | reflexivity].
  - rewrite iter_pos_iter, Pos2Nat.inj_iter.
    pose proof (shr_iter_m (Pos.to_nat p) (shr_record_of_loc m l)) as I.
    rewrite M, positive_nat_Z in I. specialize (I H).
    cbv beta iota. split; [lia|].
    replace (Z.max 0 (Zpos p)) with (Zpos p) by lia. exact I.
  - rewrite M. cbn. rewrite Z.div_1_r. split; [lia | reflexivity].
Qed.

Lemma round_nearest_even_bounds (m : Z) (l : location) :
  m <= round_nearest_even m l <= m + 1.
Proof.
  destruct l as [|[]]; cbn; try lia. destruct (Z.even m); lia.
Qed.

(** [binary_round_aux] keeps the sign it is given, at any location. *)
Lemma bra_sign (sx : bool) (m e : Z) (l : location) :
  0 <= m ->
  match binary_round_aux prec emax sx m e l with
  | S754_finite s _ _ | S754_infinity s => s = sx
  | S754_zero _ | S754_nan => True
  end.
Proof.
  intros H. unfold binary_round_aux.
  pose proof (shr_fexp_m m e l H) as S1.
  destruct (shr_fexp prec emax m e l) as [mrs e1].
  destruct S1 as (_ & Em).
  destruct (shr_fexp prec emax
              (round_nearest_even (shr_m mrs) (loc_of_shr_record mrs)) e1
              loc_Exact) as [mrs2 e2].
  destruct (shr_m mrs2); [exact I | | exact I].
  destruct (e2 <=? emax - prec); reflexivity.
Qed.

Lemma binary_round_sign (sx : bool) (p : positive) (e : Z) :
  match binary_round prec emax sx p e with
  | S754_finite s _ _ | S754_infinity s => s = sx
  | S754_zero _ | S754_nan => True
  end.
Proof.
  unfold binary_round.
  destruct (shl_align p e (fexp prec emax (Zpos (digits2_pos p) + e)))
    as [mz ez].
  apply bra_sign. lia.
Qed.

Lemma binary_normalize_nonneg (z e : Z) :
  0 <= z -> nonneg (binary_normalize prec emax z e false).
Proof.
  intros H. destruct z as [|p|p]; [exact I | | lia].
  exact (binary_round_sign false p e).
Qed.

Lemma Z2F_nonneg (z : Z) : 0 <= z -> nonneg (Z2F z).
Proof. apply binary_normalize_nonneg. Qed.

Lemma fmul_nonneg (x y : float) : nonneg x -> nonneg y -> nonneg (fmul x y).
Proof.
  destruct x as [sx|sx| |sx mx ex], y as [sy|sy| |sy my ey]; cbn;
    intros Hx Hy; subst; try exact I; try reflexivity.
  apply (bra_sign false (Zpos (mx * my)) (ex + ey) loc_Exact). lia.
Qed.

Lemma fadd_nonneg (x y : float) : nonneg x -> nonneg y -> nonneg (fadd x y).
Proof.
  destruct x as [sx|sx| |sx mx ex], y as [sy|sy| |sy my ey];
    cbn [nonneg]; intros Hx Hy; subst; try exact I; try reflexivity;
    try (destruct sx, sy; exact I); try (destruct sx; reflexivity);
    try (destruct sy; reflexivity).
  unfold fadd, SFadd. cbv zeta. cbn [cond_Zopp].
  apply binary_normalize_nonneg. lia.
Qed.

(** The quotient of two positive ints is not negative. *)
Lemma fdiv_pos_nonneg (a b : positive) :
  nonneg (fdiv (S754_finite false a 0) (S754_finite false b 0)).
Proof.
  unfold fdiv, SFdiv, SFdiv_core_binary. cbv zeta.
  match goal with
  | |- context [Z.div_eucl ?n ?d] =>
    assert (Hq : 0 <= fst (Z.div_eucl n d));
      [change (fst (Z.div_eucl n d)) with (n / d); apply Z.div_pos; [|lia]
      | destruct (Z.div_eucl n d) as [q r]]
  end.
  - match goal with
    | |- 0 <= match ?s with _ => _ end => destruct s
    end; try lia.
    rewrite Z.shiftl_mul_pow2 by lia.
    apply Z.mul_nonneg_nonneg; [lia | apply Z.pow_nonneg; lia].
  - cbn [fst] in Hq. exact (bra_sign false q _ _ Hq).
Qed.

Lemma int_truediv_nonneg (a b : Z) :
  0 <= a -> 0 <= b -> holds nonneg (int_truediv a b).
Proof.
  intros Ha Hb. unfold int_truediv.
  destruct b as [|b|b]; [exact I | | lia].
  destruct a as [|a|a]; [exact I | | lia].
  change (Zpos a <? 0) with false. change (Zpos b <? 0) with false.
  cbn [Z.abs Z.to_pos].
  pose proof (fdiv_pos_nonneg a b) as N.
  destruct (is_inf _); [exact I | exact N].
Qed.

Lemma to_float_nonneg (a : num) : nonneg_num a -> holds nonneg (to_float a).
Proof.
  destruct a as [z|f]; cbn [nonneg_num to_float]; intros H; [|exact H].
  unfold float_of_int. pose proof (Z2F_nonneg z H).
  destruct (is_inf (Z2F z)); [exact I | assumption].
Qed.

Lemma lift2_nonneg (fz : Z -> Z -> Z) (ff : float -> float -> float)
  (a b : num) :
  (forall x y, 0 <= x -> 0 <= y -> 0 <= fz x y) ->
  (forall x y, nonneg x -> nonneg y -> nonneg (ff x y)) ->
  nonneg_num a -> nonneg_num b -> holds nonneg_num (lift2 fz ff a b).
Proof.
  intros Hz Hf Ha Hb. unfold lift2.
  destruct a as [x|x], b as [y|y]; try (apply Hz; assumption);
    (apply (holds_bind nonneg); [apply to_float_nonneg; assumption|];
     intros u Hu;
     apply (holds_bind nonneg); [apply to_float_nonneg; assumption|];
     intros v Hv; apply Hf; assumption).
Qed.

Lemma mul_nonneg (a b : num) :
  nonneg_num a -> nonneg_num b -> holds nonneg_num (mul a b).
Proof. apply lift2_nonneg; [intros; nia | apply fmul_nonneg]. Qed.

Lemma add_nonneg (a b : num) :
  nonneg_num a -> nonneg_num b -> holds nonneg_num (add a b).
Proof. apply lift2_nonneg; [intros; lia | apply fadd_nonneg]. Qed.

Lemma int_quotient_nonneg (a b : Z) :
  0 <= a -> 0 <= b -> holds nonneg_num (truediv (PyInt a) (PyInt b)).
Proof.
  intros Ha Hb. unfold truediv.
  apply (holds_bind nonneg); [now apply int_truediv_nonneg|].
  intros q Hq. exact Hq.
Qed.

(** [0 <= t] as the code tests it. *)
Lemma leb_zero_nonneg (t : num) : leb (PyInt 0) t = true -> nonneg_num t.
Proof.
  unfold leb, compare. destruct t as [z|[s|s| |s m e]]; cbn [nonneg_num nonneg].
  - destruct (Z.compare_spec 0 z); intros; try discriminate; lia.
  - intros _. exact I.
  - cbn. destruct s; [discriminate | reflexivity].
  - intros _. exact I.
  - destruct s; [|reflexivity]. unfold cmp_int_float.
    destruct (Z.leb_spec 0 e).
    + rewrite Z.shiftl_mul_pow2 by lia.
      assert (0 < 2 ^ e) by (apply pow2_pos; lia).
      destruct (Z.compare_spec 0 (Zneg m * 2 ^ e)); intros; try discriminate;
        nia.
    + rewrite Z.shiftl_0_l. cbn. discriminate.
Qed.

(** ** The estimators on a history without negative quantities *)

Lemma sumZ_acc_nonneg (xs : list Z) (a : Z) :
  Forall (fun x => 0 <= x) xs -> 0 <= a -> 0 <= fold_left Z.add xs a.
Proof.
  intros H. revert a. induction H as [|x xs Hx _ IH]; intros a Ha; cbn.
  - exact Ha.
  - apply IH. lia.
Qed.

Lemma sumZ_nonneg (xs : list Z) :
  Forall (fun x => 0 <= x) xs -> 0 <= sumZ xs.
Proof. intros H. apply sumZ_acc_nonneg; [exact H | lia]. Qed.

Lemma Forall_skipn {A : Type} (P : A -> Prop) (n : nat) (l : list A) :
  Forall P l -> Forall P (skipn n l).
Proof.
  intros H. revert n. induction H as [|x l Hx Hl IH]; intros [|n]; cbn;
    try constructor; auto.
Qed.

Lemma sma_nonneg (data : list Z) (period : Z) :
  Forall (fun x => 0 <= x) data -> 0 <= period ->
  holds nonneg_num (_simple_moving_average data period).
Proof.
  intros H Hp. unfold _simple_moving_average.
  assert (N : 0 <= len data) by (unfold len; lia).
  destruct (Z.eqb_spec (if len data <? period then len data else period) 0);
    [exact I|].
  apply int_quotient_nonneg.
  - apply sumZ_nonneg, Forall_skipn, H.
  - destruct (len data <? period); assumption.
Qed.

Lemma seasonal_nonneg (data : list Z) :
  Forall (fun x => 0 <= x) data ->
  holds nonneg_num (_seasonal_adjustment data).
Proof.
  intros H. unfold _seasonal_adjustment.
  assert (N : 0 <= len data) by (unfold len; lia).
  destruct (len data <? 30).
  - destruct (0 <? len data); [|exact I].
    apply int_quotient_nonneg; [apply sumZ_nonneg, H | exact N].
  - apply int_quotient_nonneg; [|lia].
    apply sumZ_nonneg, Forall_skipn, H.
Qed.

Lemma es_nonneg (data : list Z) :
  Forall (fun x => 0 <= x) data ->
  holds nonneg_num (_exponential_smoothing data f0_3).
Proof.
  intros H. unfold _exponential_smoothing.
  destruct H as [|d0 rest H0 H]; [exact I|].
  apply (holds_foldM nonneg_num (fun x => 0 <= x)); [|exact H0 | exact H].
  intros r v Hr Hv.
  apply (holds_bind nonneg_num); [apply mul_nonneg; [reflexivity | exact Hv]|].
  intros a Ha.
  apply (holds_bind nonneg_num); [vm_compute; reflexivity|].
  intros c Hc.
  apply (holds_bind nonneg_num); [apply mul_nonneg; assumption|].
  intros b Hb. apply add_nonneg; assumption.
Qed.

Lemma holds_bind2 {A B C : Type} (Q : B -> Prop) (P : C -> Prop)
  (c : result A) (k1 : A -> result B) (k2 : B -> result C) :
  holds Q (bind c k1) -> (forall b, Q b -> holds P (k2 b)) ->
  holds P (bind c (fun a => bind (k1 a) k2)).
Proof.
  destruct c as [a|e]; cbn [bind]; intros H1 H2; [|exact I].
  now apply (holds_bind Q).
Qed.

Lemma decay_nonneg (month : Z) :
  In month months ->
  holds nonneg_num
    (d <- mul (PyInt (month - 1)) (PyFloat f0_02) ;; sub (PyFloat f1_0) d).
Proof.
  unfold months. intros H.
  repeat (destruct H as [<-|H]; [vm_compute; reflexivity|]).
  destruct H.
Qed.

Lemma trend_holds (sales_data : list Z) :
  trend_not_negative sales_data = true ->
  holds nonneg_num (_trend_projection sales_data).
Proof.
  unfold trend_not_negative.
  destruct (_trend_projection sales_data) as [t|e]; [|intros; exact I].
  apply leb_zero_nonneg.
Qed.

(** The ensemble of a history without negative quantities whose trend
    projection is not negative: no base forecast is negative. *)
Lemma base_forecast_nonneg (sales_data : list Z) :
  Forall (fun x => 0 <= x) sales_data ->
  trend_not_negative sales_data = true ->
  holds (Forall nonneg_num) (_calculate_base_forecast sales_data).
Proof.
  intros H T. unfold _calculate_base_forecast.
  assert (N : 0 <= len sales_data) by (unfold len; lia).
  apply (holds_bind nonneg_num); [apply sma_nonneg; [exact H | lia]|].
  intros sma Hsma.
  apply (holds_bind nonneg_num); [apply es_nonneg, H|]. intros es Hes.
  apply (holds_bind nonneg_num); [apply trend_holds, T|]. intros trend Htr.
  apply (holds_bind nonneg_num); [apply seasonal_nonneg, H|].
  intros seasonal Hse.
  apply (holds_bind nonneg_num); [apply mul_nonneg; [assumption | reflexivity]|].
  intros t1 H1.
  apply (holds_bind nonneg_num); [apply mul_nonneg; [assumption | reflexivity]|].
  intros t2 H2.
  apply (holds_bind nonneg_num); [apply add_nonneg; assumption|].
  intros s12 H12.
  apply (holds_bind nonneg_num); [apply mul_nonneg; [assumption | reflexivity]|].
  intros t3 H3.
  apply (holds_bind nonneg_num); [apply add_nonneg; assumption|].
  intros s123 H123.
  apply (holds_bind nonneg_num); [apply mul_nonneg; [assumption | reflexivity]|].
  intros t4 H4.
  apply (holds_bind nonneg_num); [apply add_nonneg; assumption|].
  intros base_daily Hbd. cbv zeta.
  apply (holds_bind nonneg_num); [apply mul_nonneg; [assumption | reflexivity]|].
  intros monthly_base Hmb.
  apply (holds_mapM (fun month => In month months)).
  - intros month Hm.
    apply (holds_bind2 nonneg_num); [apply decay_nonneg, Hm|].
    intros decay Hd. apply mul_nonneg; assumption.
  - rewrite range_months. apply Forall_forall. auto.
Qed.

(** ** Impacts that are at least [-1] *)

Lemma iter_xO_value (m d : positive) :
  Zpos (Pos.iter xO m d) = Zpos m * 2 ^ Zpos d.
Proof.
  rewrite Pos2Nat.inj_iter. rewrite <- (positive_nat_Z d).
  induction (Pos.to_nat d) as [|n IH].
  - simpl. lia.
  - rewrite Nat2Z.inj_succ, Z.pow_succ_r by lia.
    change (nat_rect (fun _ => positive) m (fun _ => xO) (S n))
      with (xO (nat_rect (fun _ => positive) m (fun _ => xO) n)).
    rewrite Pos2Z.inj_xO, IH. lia.
Qed.

Lemma shl_align_value (m : positive) (e ez : Z) :
  ez <= e -> Zpos (fst (shl_align m e ez)) = Zpos m * 2 ^ (e - ez).
Proof.
  intros H. unfold shl_align.
  destruct (ez - e) as [|d|d] eqn:E; cbn [fst].
  - replace (e - ez) with 0 by lia. lia.
  - lia.
  - rewrite iter_xO_value. f_equal. f_equal. lia.
Qed.

(** [-1 <= x] on a negative float, as a bound on its magnitude. *)
Lemma minus_one_le (m : positive) (e : Z) :
  leb (PyInt (-1)) (PyFloat (S754_finite true m e)) = true ->
  forall K, 0 <= K -> 0 <= e + K -> Zpos m * 2 ^ (e + K) <= 2 ^ K.
Proof.
  unfold leb, compare, cmp_int_float. intros H K HK HeK.
  assert (PK : 0 < 2 ^ K) by (apply pow2_pos; lia).
  destruct (Z.leb_spec 0 e) as [P|N].
  - rewrite Z.shiftl_mul_pow2 in H by lia.
    assert (Pe : 0 < 2 ^ e) by (apply pow2_pos; lia).
    assert (L : Zpos m * 2 ^ e <= 1)
      by (destruct (Z.compare_spec (-1) (Zneg m * 2 ^ e));
          try discriminate; lia).
    rewrite pow2_split by lia. nia.
  - rewrite Z.shiftl_mul_pow2 in H by lia.
    assert (L : Zpos m <= 2 ^ (- e))
      by (destruct (Z.compare_spec (-1 * 2 ^ (- e)) (Zneg m));
          try discriminate; lia).
    assert (Pe : 0 < 2 ^ (e + K)) by (apply pow2_pos; lia).
    replace (2 ^ K) with (2 ^ (- e) * 2 ^ (e + K))
      by (rewrite <- pow2_split by lia; f_equal; lia).
    nia.
Qed.

Lemma minus_one_le_intro (m : positive) (e : Z) :
  -1074 <= e -> Zpos m * 2 ^ (e + 1074) <= 2 ^ 1074 ->
  leb (PyInt (-1)) (PyFloat (S754_finite true m e)) = true.
Proof.
  intros He V. unfold leb, compare, cmp_int_float.
  assert (PK : 0 < 2 ^ 1074) by (apply pow2_pos; lia).
  destruct (Z.leb_spec 0 e) as [P|N].
  - rewrite Z.shiftl_mul_pow2 by lia.
    assert (Pe : 0 < 2 ^ e) by (apply pow2_pos; lia).
    rewrite pow2_split in V by lia.
    destruct (Z.compare_spec (-1) (Zneg m * 2 ^ e)); try reflexivity. nia.
  - rewrite Z.shiftl_mul_pow2 by lia.
    assert (Pe : 0 < 2 ^ (e + 1074)) by (apply pow2_pos; lia).
    assert (E : 2 ^ 1074 = 2 ^ (- e) * 2 ^ (e + 1074))
      by (rewrite <- pow2_split by lia; f_equal; lia).
    destruct (Z.compare_spec (-1 * 2 ^ (- e)) (Zneg m)); try reflexivity.
    nia.
Qed.

Lemma minus_one_le_nonneg (x : float) :
  nonneg x -> x <> S754_nan -> leb (PyInt (-1)) (PyFloat x) = true.
Proof.
  unfold leb, compare, cmp_int_float.
  destruct x as [s|s| |s m e]; cbn [nonneg]; intros H N;
    [reflexivity | subst s; reflexivity | contradiction |].
  subst s. destruct (Z.leb_spec 0 e).
  - rewrite Z.shiftl_mul_pow2 by lia.
    assert (0 < 2 ^ e) by (apply pow2_pos; lia).
    destruct (Z.compare_spec (-1) (Zpos m * 2 ^ e)); try reflexivity; nia.
  - rewrite Z.shiftl_mul_pow2 by lia.
    assert (0 < 2 ^ (- e)) by (apply pow2_pos; lia).
    destruct (Z.compare_spec (-1 * 2 ^ (- e)) (Zpos m)); try reflexivity; lia.
Qed.

(** Rounding a magnitude that is at most one: zero, or a canonical float
    that is at most one. *)
Lemma bra_small (sx : bool) (m : positive) (e : Z) :
  shift_ok m e ->
  rnd_units m e * 2 ^ (fexp64 (digits m + e) + 1074) <= 2 ^ 1074 ->
  match binary_round_aux prec emax sx (Zpos m) e loc_Exact with
  | S754_zero _ => True
  | S754_finite s p e2 =>
    s = sx /\ canonical p e2 /\ Zpos p * 2 ^ (e2 + 1074) <= 2 ^ 1074
  | _ => False
  end.
Proof.
  intros S V. pose proof (bra_pos sx m e S) as B.
  destruct (binary_round_aux prec emax sx (Zpos m) e loc_Exact)
    as [s|s| |s p e2] eqn:Eb; [exact I | | exact B |].
  - (* no overflow *)
    rewrite bra_exact in Eb by lia. cbv zeta in Eb.
    assert (Ek : bra_k (Zpos m) e = fexp64 (digits m + e) - e).
    { unfold bra_k. change (Zdigits2 (Zpos m)) with (digits m).
      unfold shift_ok in S. lia. }
    unfold bra_m in Eb. rewrite Ek in Eb. fold (rnd_units m e) in Eb.
    replace (e + (fexp64 (digits m + e) - e)) with (fexp64 (digits m + e))
      in Eb by lia.
    set (E := fexp64 (digits m + e)) in *. set (u := rnd_units m e) in *.
    assert (EB : -1074 <= E) by (subst E; unfold fexp64; lia).
    assert (PE : 0 < 2 ^ (E + 1074)) by (apply pow2_pos; lia).
    destruct (u / 2 ^ bra_k u E) as [|q|q] eqn:Eq; try discriminate.
    destruct (Z.leb_spec (E + bra_k u E) 971) as [|G]; [discriminate|].
    assert (Pk : 0 < 2 ^ bra_k u E) by (apply pow2_pos, bra_k_nonneg).
    assert (U1 : 1 <= u).
    { destruct (Z.lt_ge_cases u 1) as [L|]; [|assumption].
      assert (u / 2 ^ bra_k u E <= 0); [|lia].
      apply Z.div_le_upper_bound; [lia|]. lia. }
    destruct u as [|pu|pu] eqn:Eu; try lia.
    pose proof (digits_bounds pu) as [DL _]. pose proof (digits_pos pu).
    assert (E0 : E <= 0).
    { destruct (Z.le_gt_cases E 0); [assumption|].
      assert (2 ^ 1074 < 2 ^ (E + 1074)) by (apply Z.pow_lt_mono_r; lia).
      nia. }
    assert (D : digits pu - 1 + E <= 0).
    { destruct (Z.le_gt_cases (digits pu - 1 + E) 0); [assumption|].
      assert (2 ^ 1074 < 2 ^ (digits pu - 1 + (E + 1074)))
        by (apply Z.pow_lt_mono_r; lia).
      rewrite pow2_split in H1 by lia. nia. }
    unfold bra_k in G. change (Zdigits2 (Zpos pu)) with (digits pu) in G.
    unfold fexp64 in G. lia.
  - destruct B as (Hs & C & Ev). split; [exact Hs|]. split; [exact C|].
    rewrite Ev. exact V.
Qed.

(** Scaling an impact that is at least [-1] by a weight in (0, 1]. *)
Lemma fmul_bounded (x h : float) :
  leb (PyInt (-1)) (PyFloat x) = true ->
  pos53 h = true -> le_one h = true ->
  leb (PyInt (-1)) (PyFloat (fmul x h)) = true.
Proof.
  intros Hx P L.
  destruct (pos53_inv h P) as (mh & eh & -> & D & B).
  destruct x as [s|s| |s m e].
  - reflexivity.
  - destruct s; [discriminate | reflexivity].
  - discriminate.
  - assert (S : shift_ok (m * mh) (e + eh)) by (apply shift_ok_mul_r; lia).
    unfold fmul, SFmul. rewrite xorb_false_r.
    destruct s.
    + (* a negative impact *)
      set (K1 := Z.abs e + 1074).
      pose proof (minus_one_le m e Hx K1 ltac:(lia) ltac:(lia)) as Vx.
      unfold le_one in L. apply Z.leb_le in L.
      assert (C1 : canonical 4503599627370496 (-52))
        by (split; [reflexivity | lia]).
      pose proof (rnd_mono (m * mh) 4503599627370496 (e + eh) (-52)
                    (K1 + 1100) S (shift_ok_self _ _ C1)
                    ltac:(lia) ltac:(lia)) as M.
      rewrite (rnd_units_self _ _ C1) in M.
      change (fexp64 (digits 4503599627370496 + -52)) with (-52) in M.
      assert (P1 : 0 < 2 ^ (e + K1)) by (apply pow2_pos; lia).
      assert (P2 : 0 < 2 ^ (eh + 1100)) by (apply pow2_pos; lia).
      assert (One : Zpos 4503599627370496 * 2 ^ (-52 + (K1 + 1100))
                    = 2 ^ (K1 + 1100)).
      { change (Zpos 4503599627370496) with (2 ^ 52).
        rewrite <- pow2_split by lia. f_equal. lia. }
      rewrite One in M.
      assert (V : Zpos (m * mh) * 2 ^ (e + eh + (K1 + 1100))
                  <= 2 ^ (K1 + 1100)).
      { replace (e + eh + (K1 + 1100)) with (e + K1 + (eh + 1100)) by lia.
        rewrite (pow2_split (e + K1)), (pow2_split K1) by lia.
        rewrite Pos2Z.inj_mul.
        assert (0 < 2 ^ K1) by (apply pow2_pos; lia).
        assert (0 < 2 ^ 1100) by (apply pow2_pos; lia).
        apply Z.le_trans
          with (Zpos m * 2 ^ (e + K1) * 2 ^ 1100); nia. }
      specialize (M V).
      set (E := fexp64 (digits (m * mh) + (e + eh))) in *.
      assert (EB : -1074 <= E) by (subst E; unfold fexp64; lia).
      assert (V' : rnd_units (m * mh) (e + eh) * 2 ^ (E + 1074) <= 2 ^ 1074).
      { replace (E + (K1 + 1100)) with (E + 1074 + (Z.abs e + 1100)) in M
          by lia.
        replace (K1 + 1100) with (1074 + (Z.abs e + 1100)) in M by lia.
        rewrite (pow2_split (E + 1074)), (pow2_split 1074) in M by lia.
        assert (0 < 2 ^ (Z.abs e + 1100)) by (apply pow2_pos; lia).
        nia. }
      pose proof (bra_small true (m * mh) (e + eh) S V') as R.
      change (Zpos m * Zpos mh) with (Zpos (m * mh)).
      destruct (binary_round_aux prec emax true (Zpos (m * mh)) (e + eh)
                  loc_Exact) as [s'|s'| |s' p e2];
        [reflexivity | contradiction | contradiction |].
      destruct R as (-> & C & Vp).
      apply minus_one_le_intro; [eapply canonical_emin; eassumption | exact Vp].
    + (* an impact that is not negative *)
      change (Zpos m * Zpos mh) with (Zpos (m * mh)).
      pose proof (bra_pos false (m * mh) (e + eh) S) as R.
      apply minus_one_le_nonneg.
      * destruct (binary_round_aux prec emax false (Zpos (m * mh)) (e + eh)
                    loc_Exact); cbn [nonneg]; try exact I; apply R.
      * intros N. now rewrite N in R.
Qed.

(** [1.0 + x] is not negative when [-1 <= x]. *)
Lemma fadd_one_bounded (x : float) :
  leb (PyInt (-1)) (PyFloat x) = true -> nonneg (fadd f1_0 x).
Proof.
  intros Hx.
  destruct x as [s|s| |s m e].
  - reflexivity.
  - destruct s; [discriminate | reflexivity].
  - discriminate.
  - destruct s; [|apply fadd_nonneg; reflexivity].
    unfold fadd, SFadd, f1_0. cbv zeta. cbn [cond_Zopp].
    apply binary_normalize_nonneg.
    rewrite !shl_align_value by lia.
    pose proof (minus_one_le m e Hx (- Z.min (-52) e) ltac:(lia) ltac:(lia))
      as V.
    replace (e + - Z.min (-52) e) with (e - Z.min (-52) e) in V by lia.
    change (Zpos 4503599627370496) with (2 ^ 52).
    rewrite <- pow2_split by lia.
    replace (52 + (-52 - Z.min (-52) e)) with (- Z.min (-52) e) by lia.
    lia.
Qed.

(** ** The exogenous adjustment of forecasts that are not negative *)

Lemma truediv_float (a b r : num) :
  truediv a b = Ok r -> exists f, r = PyFloat f.
Proof.
  unfold truediv. intros H.
  destruct a as [x|x], b as [y|y];
    try (inv_bind H; apply Ok_inj in H; eauto; fail);
    inv_bind H; inv_bind H; destruct (is_zero v0); try discriminate;
    apply Ok_inj in H; eauto.
Qed.

Lemma trend_impact_float (trends_data : list TrendSignal) (t : num) :
  _calculate_trend_impact trends_data = Ok t -> exists x, t = PyFloat x.
Proof.
  unfold _calculate_trend_impact. destruct trends_data as [|s l]; intros H.
  - apply Ok_inj in H. eauto.
  - do 2 inv_bind H. eapply truediv_float, H.
Qed.

Lemma regulation_impact_float (flags : list RegulationFlag) (t : num) :
  _calculate_regulation_impact flags = Ok t -> exists x, t = PyFloat x.
Proof.
  unfold _calculate_regulation_impact. destruct flags as [|f l]; intros H.
  - apply Ok_inj in H. eauto.
  - inv_bind H. eapply truediv_float, H.
Qed.

Lemma trend_weights_ok :
  forallb (fun i => negb (is_inf (Z2F i)) && pos53 (trend_weight i)
                    && le_one (trend_weight i))
          (range 0 12) = true.
Proof. vm_compute. reflexivity. Qed.

(** The factor of month [i + 1] for a trend impact [x]. *)
Lemma trend_factor_step (x : float) (i : Z) :
  is_inf (Z2F i) = false ->
  (d <- mul (PyInt i) (PyFloat f0_05) ;;
   h <- sub (PyFloat f1_0) d ;;
   t <- mul (PyFloat x) h ;;
   add (PyFloat f1_0) t)
  = Ok (PyFloat (fadd f1_0 (fmul x (trend_weight i)))).
Proof.
  intros H. unfold mul, sub, add, lift2, to_float, float_of_int.
  rewrite H. reflexivity.
Qed.

Lemma trend_factor_nonneg (x : float) (i : Z) :
  leb (PyInt (-1)) (PyFloat x) = true ->
  In i (range 0 12) ->
  holds nonneg_num
    (d <- mul (PyInt i) (PyFloat f0_05) ;;
     h <- sub (PyFloat f1_0) d ;;
     t <- mul (PyFloat x) h ;;
     add (PyFloat f1_0) t).
Proof.
  intros Hx Hi. pose proof trend_weights_ok as W.
  rewrite forallb_forall in W. specialize (W i Hi).
  apply andb_prop in W. destruct W as [W L].
  apply andb_prop in W. destruct W as [F P].
  apply negb_true_iff in F.
  rewrite (trend_factor_step x i F). cbn [holds nonneg_num].
  apply fadd_one_bounded, fmul_bounded; assumption.
Qed.

Lemma holds_scale_each (factor : Z -> result num) (adjusted : list num) :
  (forall i, In i (range 0 (len adjusted)) -> holds nonneg_num (factor i)) ->
  Forall nonneg_num adjusted ->
  holds (Forall nonneg_num) (scale_each factor adjusted).
Proof.
  intros Hf Ha. unfold scale_each.
  apply (holds_mapM (fun ia : Z * num =>
                       In (fst ia) (range 0 (len adjusted))
                       /\ nonneg_num (snd ia))).
  - intros [i a] [Hi Hn]. cbn [fst snd] in *.
    apply (holds_bind nonneg_num); [apply Hf, Hi|].
    intros f Hfn. apply mul_nonneg; assumption.
  - apply Forall_forall. intros [i a] Hin. cbn [fst snd]. split.
    + eapply in_combine_l, Hin.
    + rewrite Forall_forall in Ha. eapply Ha, in_combine_r, Hin.
Qed.

Lemma exogenous_nonneg (base : list num)
  (td : option (list TrendSignal)) (rf : option (list RegulationFlag))
  (ef : option dict) :
  Forall nonneg_num base -> List.length base = 12%nat ->
  impact_bounded _calculate_trend_impact td = true ->
  impact_bounded _calculate_regulation_impact rf = true ->
  holds (Forall nonneg_num) (_apply_exogenous_signals base td rf ef).
Proof.
  intros Hb Lb Ht Hr. unfold _apply_exogenous_signals, impact_bounded in *.
  cbv zeta.
  apply (holds_bind (Forall nonneg_num)).
  - destruct (truthy td); [|exact Hb].
    destruct (_calculate_trend_impact (opt_list td)) as [ti|e] eqn:Ei;
      [|discriminate].
    cbn [bind]. destruct (trend_impact_float _ _ Ei) as (x & ->).
    apply holds_scale_each; [|exact Hb].
    intros i Hi. apply trend_factor_nonneg; [exact Ht|].
    unfold len in Hi. rewrite Lb in Hi. exact Hi.
  - intros adj Ha. apply (holds_bind (Forall nonneg_num)); [|auto].
    destruct (truthy rf); [|exact Ha].
    destruct (_calculate_regulation_impact (opt_list rf)) as [ri|e] eqn:Ei;
      [|discriminate].
    cbn [bind]. destruct (regulation_impact_float _ _ Ei) as (y & ->).
    apply holds_scale_each; [|exact Ha].
    intros i _. cbn. apply fadd_one_bounded, Hr.
Qed.

Lemma to_int_of_nonneg (x : num) (z : Z) :
  nonneg_num x -> to_int x = Ok z -> 0 <= z.
Proof.
  destruct x as [i|[s|s| |s m e]]; cbn [nonneg_num nonneg to_int int_of_float];
    intros H E; try discriminate; try (apply Ok_inj in E; lia).
  subst s. apply Ok_inj in E. subst z.
  destruct (0 <=? e); [apply Z.shiftl_nonneg | apply Z.shiftr_nonneg]; lia.
Qed.

(** C4, as amended: for every request whose sales quantities are all
    non-negative, whose trend projection (the least-squares line of the
    history, evaluated at index [N + 6]) is not negative, and whose trend
    impact and regulation impact, where such signals are given, are at
    least [-1], every monthly forecast that [predict] returns has a
    predicted quantity that is not negative.  With such a history the four
    estimators, their weighted sum, the monthly base and its decayed values
    are not negative, and an impact of at least [-1] keeps every adjustment
    factor [1 + impact * weight] from changing the sign. *)
Theorem C4_nonneg_history_nonneg_forecast (now : string)
  (inputs : ForecastInputs) (r : ForecastResponse) :
  let sales_data := _parse_sales_history (sales_history inputs) in
  Forall (fun p => 0 <= quantity p) (sales_history inputs) ->
  (7 <= len sales_data -> trend_not_negative sales_data = true) ->
  impact_bounded _calculate_trend_impact (trends_data inputs) = true ->
  impact_bounded _calculate_regulation_impact (regulation_flags inputs)
  = true ->
  predict now inputs = Ok r ->
  Forall (fun f => 0 <= predicted_quantity f) (Response.forecasts r).
Proof.
  intros sales_data Hq Ht Hti Hri H.
  destruct (len sales_data <? 7) eqn:L.
  - rewrite (conservative_forecasts now inputs r H L).
    unfold months. repeat (apply Forall_cons; [cbn; lia|]). apply Forall_nil.
  - apply Z.ltb_ge in L. specialize (Ht L).
    destruct (predict_ensemble now inputs r H) as (base & adj & Hb & Ha & F);
      [apply Z.ltb_ge; exact L|].
    fold sales_data in Hb.
    assert (Hd : Forall (fun x => 0 <= x) sales_data).
    { unfold sales_data, _parse_sales_history. apply Forall_map. exact Hq. }
    pose proof (holds_ok _ _ _ (base_forecast_nonneg sales_data Hd Ht) Hb)
      as Nb.
    destruct (base_forecast_fwf _ _ Hb) as [_ Lb].
    pose proof (holds_ok _ _ _
                  (exogenous_nonneg base _ _ (exogenous_factors inputs)
                     Nb Lb Hti Hri) Ha) as Na.
    clear - F Na. induction F as [|x f adj fs Hm _ IH]; constructor.
    + destruct Hm as (l & u & lo & up & _ & _ & _ & _ & Ip & _).
      inversion Na; subst. eapply to_int_of_nonneg; eassumption.
    + inversion Na; subst. auto.
Qed.

Lemma C4_witness :
  exists r,
    predict "2024-07-01T00:00:00" damped_inputs = Ok r
    /\ Forall (fun f => 0 <= predicted_quantity f) (Response.forecasts r)
    /\ map predicted_quantity (Response.forecasts r)
       = [271; 267; 262; 257; 253; 248; 243; 238; 234; 229; 224; 219].
Proof.
  destruct (predict "2024-07-01T00:00:00" damped_inputs) as [r|e] eqn:E;
    [|vm_compute in E; discriminate].
  exists r. split; [reflexivity|]. split.
  - apply (C4_nonneg_history_nonneg_forecast "2024-07-01T00:00:00"
             damped_inputs r).
    + repeat (apply Forall_cons; [simpl; lia|]). apply Forall_nil.
    + intros _. vm_compute. reflexivity.
    + vm_compute. reflexivity.
    + vm_compute. reflexivity.
    + exact E.
  - vm_compute in E. apply Ok_inj in E. subst r. reflexivity.
Defined.

(** ** The regulation factor *)

Lemma regulation_total (flags : list RegulationFlag) (t : float) :
  foldM (fun total_impact flag =>
           let score := PyFloat (relevance_score flag) in
           if String.eqb (impact flag) "positive" then
             s <- mul score (PyFloat f0_05) ;; add total_impact s
           else if String.eqb (impact flag) "negative" then
             s <- mul score (PyFloat f0_05) ;; sub total_impact s
           else Ok total_impact)
        (PyFloat t) flags
  = Ok (PyFloat (fold_left contribution flags t)).
Proof.
  revert t. induction flags as [|flag flags IH]; intros t; [reflexivity|].
  cbn [foldM fold_left]. unfold contribution at 2.
  destruct (String.eqb (impact flag) "positive");
    [|destruct (String.eqb (impact flag) "negative")];
    cbn [mul add sub lift2 to_float bind]; apply IH.
Qed.

Lemma regulation_impact_ok (flags : list RegulationFlag) (r : num) :
  flags <> [] ->
  _calculate_regulation_impact flags = Ok r ->
  r = PyFloat (regulation_impact_value flags).
Proof.
  intros N. unfold _calculate_regulation_impact.
  destruct flags as [|flag flags]; [contradiction|].
  rewrite regulation_total. cbn [bind].
  unfold truediv. cbn [to_float bind]. intros H. inv_bind H.
  unfold float_of_int in E. destruct (is_inf (Z2F (len (flag :: flags))));
    [discriminate|].
  apply Ok_inj in E. subst v.
  destruct (is_zero (Z2F (len (flag :: flags)))); [discriminate|].
  apply Ok_inj in H. now subst r.
Qed.

Lemma exogenous_flags (base adj0 adj1 : list num)
  (td : option (list TrendSignal)) (rf : option (list RegulationFlag))
  (flags : list RegulationFlag) (ef : option dict) :
  truthy rf = false -> flags <> [] ->
  _apply_exogenous_signals base td rf ef = Ok adj0 ->
  _apply_exogenous_signals base td (Some flags) ef = Ok adj1 ->
  Forall2 (fun a0 a1 => mul a0 (PyFloat (regulation_factor flags)) = Ok a1)
          adj0 adj1.
Proof.
  intros Hr N H0 H1. unfold _apply_exogenous_signals in H0, H1.
  inv_bind H0. inv_bind H1. rewrite E in E0. apply Ok_inj in E0. subst v0.
  rewrite Hr in H0. cbn [bind] in H0. apply Ok_inj in H0. subst adj0.
  assert (T : truthy (Some flags) = true)
    by (destruct flags; [contradiction | reflexivity]).
  rewrite T in H1. cbn [opt_list] in H1.
  inv_bind H1. apply Ok_inj in H1. subst adj1. inv_bind E0.
  apply (regulation_impact_ok flags _ N) in E1. subst v1.
  apply scale_each_const. exact E0.
Qed.

Lemma Forall2_three {A B : Type} (W : A -> Prop) (R : A -> A -> Prop)
  (M : A -> B -> Prop) (Q : B -> B -> Prop)
  (l0 l1 : list A) (f0 f1 : list B) :
  (forall a0 a1 b0 b1, W a0 -> R a0 a1 -> M a0 b0 -> M a1 b1 -> Q b0 b1) ->
  Forall W l0 -> Forall2 R l0 l1 -> Forall2 M l0 f0 -> Forall2 M l1 f1 ->
  Forall2 Q f0 f1.
Proof.
  intros HQ HW HR. revert f0 f1.
  induction HR as [|a0 a1 l0 l1 Ha _ IH]; intros f0 f1 H0 H1.
  - inversion H0; inversion H1; constructor.
  - inversion H0; inversion H1; inversion HW; subst.
    constructor; [eapply HQ; eassumption | apply IH; assumption].
Qed.

Lemma f0_95_facts :
  pos53 (dec 95 100) = true /\ le_one (dec 95 100) = true.
Proof. split; vm_compute; reflexivity. Qed.

Lemma negative_flag_factor (id : string) :
  regulation_factor
    [{| regulation_id := id; relevance_score := f1_0; impact := "negative" |}]
  = dec 95 100.
Proof. vm_compute. reflexivity. Qed.

Lemma int_of_float_sign (v : float) (z : Z) :
  int_of_float v = Ok z -> fleb f0_0 v = true \/ fleb v f0_0 = true.
Proof.
  destruct v as [s|s| |[] m e]; try discriminate; intros _;
    [left | right | left]; reflexivity.
Qed.

(** The same history with the single flag
    [{relevance_score: 1.0, impact: "negative"}]: every month's predicted
    quantity is higher with the flag than without it (month 1: [-383]
    against [-403]). *)
Lemma C6_counterexample :
  exists r0 r1,
    predict "2024-07-01T00:00:00" spike_inputs = Ok r0
    /\ predict "2024-07-01T00:00:00" spike_flag_inputs = Ok r1
    /\ map predicted_quantity (Response.forecasts r0)
       = [-403; -395; -387; -379; -371; -363; -355; -347; -338; -330; -322; -314]
    /\ map predicted_quantity (Response.forecasts r1)
       = [-383; -375; -368; -360; -352; -345; -337; -329; -322; -314; -306; -299]
    /\ Forall2 (fun f0 f1 => predicted_quantity f0 < predicted_quantity f1)
               (Response.forecasts r0) (Response.forecasts r1).
Proof.
  destruct (predict "2024-07-01T00:00:00" spike_inputs) as [r0|e] eqn:E0;
    vm_compute in E0; [|discriminate].
  destruct (predict "2024-07-01T00:00:00" spike_flag_inputs) as [r1|e] eqn:E1;
    vm_compute in E1; [|discriminate].
  injection E0 as <-. injection E1 as <-.
  eexists. eexists.
  split; [reflexivity|]. split; [reflexivity|].
  split; [reflexivity|]. split; [reflexivity|].
  repeat (apply Forall2_cons; [simpl; lia|]). apply Forall2_nil.
Qed.

(** C6, as amended: on the ensemble path, with a non-empty list of
    regulation flags every adjusted monthly forecast is the forecast of the
    run without flags multiplied by one factor [1.0 + r], where [r] is the
    running total of [+ score * 0.05] ("positive"), [- score * 0.05]
    ("negative") and nothing (any other impact), divided by the number of all
    flags.  For the single flag [{relevance_score: 1.0, impact: "negative"}]
    the factor is the float [0.95], and each predicted quantity moves toward
    zero or stays: between 0 and the quantity of the run without the flag. *)
Theorem C6_regulation_factor (now : string) (inputs : ForecastInputs)
  (flags : list RegulationFlag) (r0 r1 : ForecastResponse) :
  let sales_data := _parse_sales_history (sales_history inputs) in
  truthy (regulation_flags inputs) = false ->
  flags <> [] ->
  7 <= len sales_data ->
  predict now inputs = Ok r0 ->
  predict now (with_flags inputs flags) = Ok r1 ->
  exists base adj0 adj1,
    _calculate_base_forecast sales_data = Ok base
    /\ _apply_exogenous_signals base (trends_data inputs)
         (regulation_flags inputs) (exogenous_factors inputs) = Ok adj0
    /\ _apply_exogenous_signals base (trends_data inputs)
         (Some flags) (exogenous_factors inputs) = Ok adj1
    /\ _calculate_regulation_impact flags
       = Ok (PyFloat (regulation_impact_value flags))
    /\ Forall2 (fun a0 a1 =>
                  mul a0 (PyFloat (fadd f1_0 (regulation_impact_value flags)))
                  = Ok a1)
               adj0 adj1
    /\ Forall2 (fun a f => to_int a = Ok (predicted_quantity f))
               adj0 (Response.forecasts r0)
    /\ Forall2 (fun a f => to_int a = Ok (predicted_quantity f))
               adj1 (Response.forecasts r1)
    /\ (forall id,
          flags = [{| regulation_id := id;
                      relevance_score := f1_0;
                      impact := "negative" |}] ->
          fadd f1_0 (regulation_impact_value flags) = dec 95 100
          /\ Forall2 (fun f0 f1 =>
                        (0 <= predicted_quantity f0 ->
                         0 <= predicted_quantity f1 <= predicted_quantity f0)
                        /\ (predicted_quantity f0 <= 0 ->
                            predicted_quantity f0 <= predicted_quantity f1 <= 0))
                     (Response.forecasts r0) (Response.forecasts r1)).
Proof.
  intros sales_data Hr N L H0 H1. subst sales_data.
  assert (L' : (len (_parse_sales_history (sales_history inputs)) <? 7) = false)
    by (apply Z.ltb_ge; exact L).
  destruct (predict_ensemble now inputs r0 H0 L') as (base & adj0 & Hb & Ha0 & F0).
  destruct (predict_ensemble now (with_flags inputs flags) r1 H1 L')
    as (base' & adj1 & Hb' & Ha1 & F1).
  cbn [with_flags sales_history trends_data regulation_flags exogenous_factors]
    in Hb', Ha1.
  rewrite Hb in Hb'. apply Ok_inj in Hb'. subst base'.
  pose proof (exogenous_flags _ _ _ _ _ _ _ Hr N Ha0 Ha1) as R.
  destruct (base_forecast_fwf _ _ Hb) as [Wb _].
  destruct (exogenous_fwf _ _ _ _ _ Ha0 Wb) as [W0 _].
  exists base, adj0, adj1.
  split; [exact Hb|]. split; [exact Ha0|]. split; [exact Ha1|].
  split.
  { unfold _apply_exogenous_signals in Ha1. inv_bind Ha1.
    assert (T : truthy (Some flags) = true)
      by (destruct flags; [contradiction | reflexivity]).
    rewrite T in Ha1. cbn [opt_list] in Ha1. inv_bind Ha1. inv_bind E0.
    rewrite E1. f_equal. now apply regulation_impact_ok. }
  split; [exact R|].
  split.
  { eapply Forall2_impl; [|exact F0].
    intros a f (l & u & lo & up & _ & _ & _ & _ & Ip & _). exact Ip. }
  split.
  { eapply Forall2_impl; [|exact F1].
    intros a f (l & u & lo & up & _ & _ & _ & _ & Ip & _). exact Ip. }
  intros id ->. split; [exact (negative_flag_factor id)|].
  refine (Forall2_three fwf _ month_of _ adj0 adj1 _ _ _ W0 R F0 F1).
  intros a0 a1 f0 f1 Wa Rm M0 M1. cbv beta in Rm.
  rewrite (negative_flag_factor id) in Rm.
  destruct a0 as [|v]; [contradiction|]. apply Ok_inj in Rm. subst a1.
  destruct M0 as (_ & _ & _ & _ & _ & _ & _ & _ & I0 & _).
  destruct M1 as (_ & _ & _ & _ & _ & _ & _ & _ & I1 & _).
  cbn [to_int] in I0, I1.
  destruct f0_95_facts as [P95 L95].
  destruct (scaled_trunc (dec 95 100) v _ _ Wa P95 I0 I1) as [S _].
  destruct (S L95) as [Sp Sn].
  destruct (int_of_float_sign v _ I0) as [F|F];
    [specialize (Sp F) | specialize (Sn F)]; lia.
Qed.

Lemma C6_witness :
  exists r0 r1 base adj0 adj1,
    predict "2024-07-01T00:00:00" steady_inputs = Ok r0
    /\ predict "2024-07-01T00:00:00"
         (with_flags steady_inputs [negative_flag]) = Ok r1
    /\ _calculate_base_forecast
         (_parse_sales_history (sales_history steady_inputs)) = Ok base
    /\ _apply_exogenous_signals base None None None = Ok adj0
    /\ _apply_exogenous_signals base None (Some [negative_flag]) None
       = Ok adj1
    /\ Forall2 (fun a0 a1 => mul a0 (PyFloat (dec 95 100)) = Ok a1) adj0 adj1
    /\ Forall2 (fun f0 f1 =>
                  (0 <= predicted_quantity f0 ->
                   0 <= predicted_quantity f1 <= predicted_quantity f0)
                  /\ (predicted_quantity f0 <= 0 ->
                      predicted_quantity f0 <= predicted_quantity f1 <= 0))
               (Response.forecasts r0) (Response.forecasts r1).
Proof.
  destruct (predict "2024-07-01T00:00:00" steady_inputs) as [r0|e] eqn:E0;
    [|vm_compute in E0; discriminate].
  destruct (predict "2024-07-01T00:00:00"
              (with_flags steady_inputs [negative_flag])) as [r1|e] eqn:E1;
    [|vm_compute in E1; discriminate].
  assert (N : [negative_flag] <> []) by discriminate.
  assert (L : 7 <= len (_parse_sales_history (sales_history steady_inputs)))
    by (vm_compute; discriminate).
  destruct (C6_regulation_factor "2024-07-01T00:00:00" steady_inputs
              [negative_flag] r0 r1 eq_refl N L E0 E1)
    as (base & adj0 & adj1 & Hb & H0 & H1 & _ & R & _ & _ & S).
  destruct (S "reg-1" eq_refl) as [Ef Q].
  exists r0, r1, base, adj0, adj1.
  split; [reflexivity|]. split; [reflexivity|].
  split; [exact Hb|]. split; [exact H0|]. split; [exact H1|].
  split; [|exact Q].
  rewrite <- Ef. exact R.
Defined.

(** * Further properties *)

(** ** The strategy engine *)

Lemma monthly_strategy_key (f g : MonthlyForecast) (info info' : option dict) :
  strategy_key f = strategy_key g ->
  _generate_monthly_strategy f info = _generate_monthly_strategy g info'.
Proof.
  unfold strategy_key. intros H. injection H as Hm Hq.
  unfold _generate_monthly_strategy, _low_demand_strategy,
    _medium_demand_strategy, _high_demand_strategy.
  rewrite Hm, Hq. reflexivity.
Qed.

(** X1.  [generate_strategies] reads only the month and the predicted
    quantity of each forecast: two forecast lists that agree on these give
    the same strategies, whatever their confidence fields and whatever
    product information is passed.  The result has one strategy per
    forecast, in the order and with the months of the forecasts, each with
    the given product id and no forecast id. *)
Theorem X1_strategies_follow_forecasts (pid : string)
  (fs fs' : list MonthlyForecast) (info info' : option dict) :
  map strategy_key fs = map strategy_key fs' ->
  generate_strategies pid fs info = generate_strategies pid fs' info'
  /\ List.length (generate_strategies pid fs info) = List.length fs
  /\ map Strategy.month (generate_strategies pid fs info) = map month fs
  /\ Forall (fun s => Strategy.product_id s = pid
                      /\ Strategy.forecast_id s = None)
            (generate_strategies pid fs info).
Proof.
  intros H. split; [|split; [|split]].
  - unfold generate_strategies.
    revert fs' H. induction fs as [|f fs IH]; intros [|g fs'] H;
      try discriminate; [reflexivity|].
    cbn [map] in *. injection H as Hm Hq Ht.
    assert (Hk : strategy_key f = strategy_key g)
      by (unfold strategy_key; congruence).
    rewrite (monthly_strategy_key f g info info' Hk).
    rewrite Hm. f_equal. apply IH, Ht.
  - unfold generate_strategies. apply length_map.
  - unfold generate_strategies. rewrite map_map. reflexivity.
  - unfold generate_strategies. apply Forall_forall. intros s Hs.
    apply in_map_iff in Hs. destruct Hs as (f & <- & _). split; reflexivity.
Qed.

Lemma X1_witness :
  generate_strategies "sku-1" [forecast_of 1 120; forecast_of 2 0] None
  = generate_strategies "sku-1"
      [{| month := 1; predicted_quantity := 120;
          confidence_lower := None; confidence_upper := Some 7;
          confidence_score := f0_1 |};
       {| month := 2; predicted_quantity := 0;
          confidence_lower := Some 3; confidence_upper := None;
          confidence_score := f1_0 |}]
      (Some [("category", AStr "food")])
  /\ List.length
       (generate_strategies "sku-1" [forecast_of 1 120; forecast_of 2 0] None)
     = 2%nat.
Proof.
  split;
    apply (X1_strategies_follow_forecasts "sku-1"
             [forecast_of 1 120; forecast_of 2 0]
             [{| month := 1; predicted_quantity := 120;
                 confidence_lower := None; confidence_upper := Some 7;
                 confidence_score := f0_1 |};
              {| month := 2; predicted_quantity := 0;
                 confidence_lower := Some 3; confidence_upper := None;
                 confidence_score := f1_0 |}]
             None (Some [("category", AStr "food")]));
    reflexivity.
Defined.

Lemma inventory_target_cases (info : option dict) (f : MonthlyForecast) :
  let q := predicted_quantity f in
  (q = 0 /\ inventory_target info f = 0 /\ marketing_budget info f = 200000)
  \/ (q <> 0 /\ q < 50 /\ inventory_target info f = q
      /\ marketing_budget info f = 300000)
  \/ (50 <= q < 200 /\ inventory_target info f = q + 20
      /\ marketing_budget info f = 500000)
  \/ (200 <= q /\ inventory_target info f = q + 50
      /\ marketing_budget info f = 1000000).
Proof.
  unfold inventory_target, marketing_budget, _generate_monthly_strategy.
  cbv zeta.
  destruct (Z.eqb_spec (predicted_quantity f) 0);
    [left; repeat split; assumption|].
  destruct (Z.ltb_spec (predicted_quantity f) 50);
    [right; left; repeat split; assumption|].
  destruct (Z.ltb_spec (predicted_quantity f) 200);
    [right; right; left; repeat split; lia|].
  right; right; right; repeat split; lia.
Qed.

(** X2.  The inventory target of a month's strategy is the predicted
    quantity plus a buffer of at most 50 units.  Over predictions that are
    not negative, a larger prediction never gets a smaller inventory target
    or a smaller marketing budget.  A negative prediction is served by the
    low-demand tier, so it gets a larger marketing budget than a prediction
    of zero. *)
Theorem X2_levers_grow_with_demand (info : option dict)
  (f g : MonthlyForecast) :
  predicted_quantity f <= inventory_target info f
                       <= predicted_quantity f + 50
  /\ (0 <= predicted_quantity f <= predicted_quantity g ->
      inventory_target info f <= inventory_target info g
      /\ marketing_budget info f <= marketing_budget info g)
  /\ (predicted_quantity f < 0 -> predicted_quantity g = 0 ->
      marketing_budget info g < marketing_budget info f).
Proof.
  pose proof (inventory_target_cases info f) as Hf.
  pose proof (inventory_target_cases info g) as Hg.
  cbv zeta in Hf, Hg.
  split; [|split]; intros; lia.
Qed.

Lemma X2_witness :
  (inventory_target None (forecast_of 1 49)
   <= inventory_target None (forecast_of 2 50)
   /\ marketing_budget None (forecast_of 1 49)
      <= marketing_budget None (forecast_of 2 50))
  /\ marketing_budget None (forecast_of 2 0)
     < marketing_budget None (forecast_of 1 (-5)).
Proof.
  split.
  - apply (X2_levers_grow_with_demand None
             (forecast_of 1 49) (forecast_of 2 50)).
    simpl. lia.
  - apply (X2_levers_grow_with_demand None
             (forecast_of 1 (-5)) (forecast_of 2 0));
      simpl; lia.
Defined.

(** ** The estimators *)

Lemma slice_from_all {A : Type} (l : list A) :
  0 < len l -> slice_from (- len l) l = l.
Proof.
  intros H. unfold slice_from.
  destruct (Z.ltb_spec (- len l) 0); [|lia].
  replace (Z.max 0 (len l + - len l)) with 0 by lia. reflexivity.
Qed.

(** X4.  The seasonal estimate is the moving average over the last 30
    points (over the whole history when it is shorter): for every history
    [_simple_moving_average] with period [min(30, len(data))] and
    [_seasonal_adjustment] return the same float or raise the same
    exception. *)
Theorem X4_moving_average_is_seasonal_mean (data : list Z) :
  _simple_moving_average data (Z.min 30 (len data))
  = _seasonal_adjustment data.
Proof.
  unfold _simple_moving_average, _seasonal_adjustment.
  assert (N : 0 <= len data) by (unfold len; lia).
  destruct (Z.ltb_spec (len data) 30) as [S|B].
  - rewrite Z.min_r by lia. rewrite Z.ltb_irrefl.
    destruct (Z.eqb_spec (len data) 0) as [E|NE].
    + rewrite E. reflexivity.
    + destruct (Z.ltb_spec 0 (len data)); [|lia].
      rewrite slice_from_all by lia. reflexivity.
  - rewrite Z.min_l by lia.
    destruct (Z.ltb_spec (len data) 30); [lia|]. reflexivity.
Qed.

(** ** The response *)

(** The month index and the confidence score that [predict] stores. *)
Lemma predict_month_fields (now : string) (inputs : ForecastInputs)
  (r : ForecastResponse) :
  let sales_data := _parse_sales_history (sales_history inputs) in
  predict now inputs = Ok r ->
  (len sales_data <? 7) = false ->
  Forall2 (fun m f =>
             month f = m
             /\ exists s, _calculate_confidence_score sales_data m = Ok s
                          /\ to_float s = Ok (confidence_score f))
          months (Response.forecasts r).
Proof.
  intros sales_data H L. unfold predict in H. fold sales_data in H.
  rewrite L in H. do 3 inv_bind H. apply Ok_inj in H. subst r.
  cbn [Response.forecasts]. apply mapM_ok in E1. rewrite range_months in E1.
  eapply Forall2_impl; [|exact E1].
  intros m f Hf. cbv beta in Hf. do 8 inv_bind Hf. apply Ok_inj in Hf.
  subst f. cbn [month confidence_score]. split; [reflexivity|]. eauto.
Qed.

Lemma Forall2_map_eq {A B : Type} (g : B -> A) (l : list A) (ys : list B) :
  Forall2 (fun a y => g y = a) l ys -> map g ys = l.
Proof. induction 1; cbn; congruence. Qed.

(** X3.  Every response of [predict] echoes the product id of the
    request, carries the given timestamp and the model version "v1.0.0",
    and has twelve forecasts for the months 1 to 12 in order.  With fewer
    than 7 sales points the algorithm is "conservative" and the metadata is
    the [insufficient_data] flag alone; otherwise the algorithm is
    "ensemble" and the metadata counts the sales points, the trend signals
    and the regulation flags, an absent list counting 0. *)
Theorem X3_response_shape (now : string) (inputs : ForecastInputs)
  (r : ForecastResponse) :
  let n := len (sales_history inputs) in
  predict now inputs = Ok r ->
  Response.product_id r = product_id inputs
  /\ Response.forecast_date r = now
  /\ Response.model_version r = "v1.0.0"
  /\ map month (Response.forecasts r) = [1; 2; 3; 4; 5; 6; 7; 8; 9; 10; 11; 12]
  /\ (n < 7 ->
      Response.algorithm r = "conservative"
      /\ Response.metadata r = Some [("insufficient_data", ABool true)])
  /\ (7 <= n ->
      Response.algorithm r = "ensemble"
      /\ Response.metadata r
         = Some [("data_points", AInt n);
                 ("trends_signals",
                  AInt (len (opt_list (trends_data inputs))));
                 ("regulation_flags",
                  AInt (len (opt_list (regulation_flags inputs))))]).
Proof.
  intros n H.
  assert (En : len (_parse_sales_history (sales_history inputs)) = n)
    by apply len_map.
  destruct (len (_parse_sales_history (sales_history inputs)) <? 7) eqn:L.
  - pose proof H as H'. unfold predict in H'. rewrite L in H'.
    apply Ok_inj in H'. subst r. apply Z.ltb_lt in L.
    cbn. repeat split; try reflexivity; intros; try lia.
  - pose proof (predict_month_fields now inputs r H L) as M.
    pose proof H as H'. unfold predict in H'. rewrite L in H'.
    do 3 inv_bind H'. apply Ok_inj in H'. apply Z.ltb_ge in L.
    split; [subst r; reflexivity|]. split; [subst r; reflexivity|].
    split; [subst r; reflexivity|]. split.
    { apply Forall2_map_eq. eapply Forall2_impl; [|exact M].
      intros m f [Hm _]. exact Hm. }
    split; [intros; lia|]. intros _. subst r. cbn.
    split; [reflexivity|]. rewrite En. unfold signal_count.
    destruct (trends_data inputs) as [[|? ?]|];
      destruct (regulation_flags inputs) as [[|? ?]|]; reflexivity.
Qed.

Lemma X3_witness :
  exists r,
    predict "2024-07-01T00:00:00" steady_inputs = Ok r
    /\ map month (Response.forecasts r) = [1; 2; 3; 4; 5; 6; 7; 8; 9; 10; 11; 12]
    /\ Response.algorithm r = "ensemble"
    /\ Response.metadata r
       = Some [("data_points", AInt 10); ("trends_signals", AInt 0);
               ("regulation_flags", AInt 0)].
Proof.
  destruct (predict "2024-07-01T00:00:00" steady_inputs) as [r|e] eqn:E;
    [|vm_compute in E; discriminate].
  exists r. split; [reflexivity|].
  destruct (X3_response_shape "2024-07-01T00:00:00" steady_inputs r E)
    as (_ & _ & _ & Hm & _ & He).
  split; [exact Hm|]. apply He. vm_compute. discriminate.
Defined.

(** X9.  A history of fewer than 7 points always yields a response, and
    the strategies generated from its forecasts are the twelve no-demand
    strategies: priority "low", a price reduction, an inventory target of 0
    and a marketing budget of 200000 for every month. *)
Theorem X9_short_history_strategies (now pid : string)
  (inputs : ForecastInputs) (info : option dict) :
  (List.length (sales_history inputs) < 7)%nat ->
  exists r,
    predict now inputs = Ok r
    /\ generate_strategies pid (Response.forecasts r) info
       = map (fun m => strategy_entry pid (conservative_month m)
                         (_no_demand_strategy m))
             [1; 2; 3; 4; 5; 6; 7; 8; 9; 10; 11; 12]
    /\ Forall (fun s =>
                 Strategy.priority s = "low"
                 /\ Pricing.action (pricing (Strategy.actions s)) = "reduce"
                 /\ Inventory.quantity (inventory (Strategy.actions s)) = 0
                 /\ Marketing.budget (marketing (Strategy.actions s)) = 200000)
              (generate_strategies pid (Response.forecasts r) info).
Proof.
  intros H. eexists. split; [apply predict_short, H|].
  split; [reflexivity|].
  cbn. repeat (apply Forall_cons; [repeat split|]). apply Forall_nil.
Qed.

Lemma X9_witness :
  exists r,
    predict "2024-07-01T00:00:00" short_inputs = Ok r
    /\ generate_strategies "sku-1" (Response.forecasts r) None
       = map (fun m => strategy_entry "sku-1" (conservative_month m)
                         (_no_demand_strategy m))
             [1; 2; 3; 4; 5; 6; 7; 8; 9; 10; 11; 12]
    /\ Forall (fun s =>
                 Strategy.priority s = "low"
                 /\ Pricing.action (pricing (Strategy.actions s)) = "reduce"
                 /\ Inventory.quantity (inventory (Strategy.actions s)) = 0
                 /\ Marketing.budget (marketing (Strategy.actions s)) = 200000)
              (generate_strategies "sku-1" (Response.forecasts r) None).
Proof.
  apply (X9_short_history_strategies "2024-07-01T00:00:00" "sku-1"
           short_inputs None).
  simpl. lia.
Defined.

(** ** Fields that [predict] does not read *)

Lemma truthy_map {A B : Type} (g : A -> B) (o : option (list A)) :
  truthy (option_map (map g) o) = truthy o.
Proof. destruct o as [[|a l]|]; reflexivity. Qed.

Lemma opt_list_map {A B : Type} (g : A -> B) (o : option (list A)) :
  opt_list (option_map (map g) o) = map g (opt_list o).
Proof. destruct o; reflexivity. Qed.

Lemma trend_impact_values (l1 l2 : list TrendSignal) :
  map value l1 = map value l2 ->
  _calculate_trend_impact l1 = _calculate_trend_impact l2.
Proof.
  intros H. unfold _calculate_trend_impact.
  assert (L : len l1 = len l2).
  { rewrite <- (len_map value l1), <- (len_map value l2). now rewrite H. }
  destruct l1 as [|a l1], l2 as [|b l2]; try discriminate; [reflexivity|].
  now rewrite H, L.
Qed.

Lemma contribution_keys (l1 l2 : list RegulationFlag) (t : float) :
  map flag_key l1 = map flag_key l2 ->
  fold_left contribution l1 t = fold_left contribution l2 t.
Proof.
  revert l2 t. induction l1 as [|a l1 IH]; intros [|b l2] t H;
    try discriminate; [reflexivity|].
  cbn [map] in H. injection H as Hs Hi Ht. cbn [fold_left].
  unfold contribution at 2 4. rewrite Hs, Hi. apply IH, Ht.
Qed.

Lemma regulation_impact_keys (l1 l2 : list RegulationFlag) :
  map flag_key l1 = map flag_key l2 ->
  _calculate_regulation_impact l1 = _calculate_regulation_impact l2.
Proof.
  intros H. unfold _calculate_regulation_impact.
  assert (L : len l1 = len l2).
  { rewrite <- (len_map flag_key l1), <- (len_map flag_key l2).
    now rewrite H. }
  destruct l1 as [|a l1], l2 as [|b l2]; try discriminate; [reflexivity|].
  rewrite !regulation_total, L.
  now rewrite (contribution_keys (a :: l1) (b :: l2) f0_0 H).
Qed.

Lemma option_map_truthy {A B : Type} (g : A -> B) (o1 o2 : option (list A)) :
  option_map (map g) o1 = option_map (map g) o2 ->
  truthy o1 = truthy o2
  /\ map g (opt_list o1) = map g (opt_list o2).
Proof.
  intros H. split.
  - rewrite <- (truthy_map g o1), <- (truthy_map g o2). now rewrite H.
  - rewrite <- !opt_list_map. now rewrite H.
Qed.

Lemma exogenous_keys (base : list num)
  (td1 td2 : option (list TrendSignal))
  (rf1 rf2 : option (list RegulationFlag)) (ef1 ef2 : option dict) :
  option_map (map value) td1 = option_map (map value) td2 ->
  option_map (map flag_key) rf1 = option_map (map flag_key) rf2 ->
  _apply_exogenous_signals base td1 rf1 ef1
  = _apply_exogenous_signals base td2 rf2 ef2.
Proof.
  intros Ht Hr.
  destruct (option_map_truthy value td1 td2 Ht) as [Tt Vt].
  destruct (option_map_truthy flag_key rf1 rf2 Hr) as [Tr Vr].
  unfold _apply_exogenous_signals.
  rewrite Tt, Tr.
  rewrite (trend_impact_values _ _ Vt).
  rewrite (regulation_impact_keys _ _ Vr). reflexivity.
Qed.

(** X5.  [predict] reads only numbers: of a sales point the quantity, of
    a trend signal the value, of a regulation flag the relevance score and
    the impact.  Two requests for the same product that agree on these get
    the same response, or the same exception, whatever the dates, keywords,
    regulation ids and exogenous factors are. *)
Theorem X5_predict_reads_only_numbers (now : string)
  (i1 i2 : ForecastInputs) :
  product_id i1 = product_id i2 ->
  map quantity (sales_history i1) = map quantity (sales_history i2) ->
  option_map (map value) (trends_data i1)
  = option_map (map value) (trends_data i2) ->
  option_map (map flag_key) (regulation_flags i1)
  = option_map (map flag_key) (regulation_flags i2) ->
  predict now i1 = predict now i2.
Proof.
  intros Hp Hq Ht Hr.
  destruct (option_map_truthy value _ _ Ht) as [Tt Vt].
  destruct (option_map_truthy flag_key _ _ Hr) as [Tr Vr].
  unfold predict, _parse_sales_history, signal_count.
  rewrite Hq, Hp, Tt, Tr.
  assert (Lt : len (opt_list (trends_data i1))
               = len (opt_list (trends_data i2))).
  { rewrite <- (len_map value (opt_list (trends_data i1))), Vt.
    apply len_map. }
  assert (Lr : len (opt_list (regulation_flags i1))
               = len (opt_list (regulation_flags i2))).
  { rewrite <- (len_map flag_key (opt_list (regulation_flags i1))), Vr.
    apply len_map. }
  rewrite Lt, Lr.
  destruct (len (map quantity (sales_history i2)) <? 7); [reflexivity|].
  destruct (_calculate_base_forecast (map quantity (sales_history i2)))
    as [base|e]; [|reflexivity].
  cbn [bind].
  now rewrite (exogenous_keys base _ _ _ _
                 (exogenous_factors i1) (exogenous_factors i2) Ht Hr).
Qed.

Lemma X5_witness :
  predict "2024-07-01T00:00:00" steady_inputs
  = predict "2024-07-01T00:00:00" relabelled_inputs.
Proof.
  apply (X5_predict_reads_only_numbers "2024-07-01T00:00:00"
           steady_inputs relabelled_inputs); reflexivity.
Defined.

(** ** The confidence score and the signals *)

Lemma conservative_scores (now : string) (inputs : ForecastInputs)
  (r : ForecastResponse) :
  predict now inputs = Ok r ->
  (len (_parse_sales_history (sales_history inputs)) <? 7) = true ->
  map confidence_score (Response.forecasts r) = map (fun _ => f0_1) months.
Proof.
  intros H L. now rewrite (conservative_forecasts now inputs r H L).
Qed.

Lemma month_scores_unique (sales_data : list Z)
  (fs1 fs2 : list MonthlyForecast) (ms : list Z) :
  Forall2 (fun m f =>
             month f = m
             /\ exists s, _calculate_confidence_score sales_data m = Ok s
                          /\ to_float s = Ok (confidence_score f)) ms fs1 ->
  Forall2 (fun m f =>
             month f = m
             /\ exists s, _calculate_confidence_score sales_data m = Ok s
                          /\ to_float s = Ok (confidence_score f)) ms fs2 ->
  map confidence_score fs1 = map confidence_score fs2.
Proof.
  intros H1. revert fs2. induction H1 as [|m f ms fs1 Hf _ IH];
    intros fs2 H2; inversion H2 as [|m' g ms' fs2' Hg H2']; subst;
    [reflexivity|].
  cbn [map]. f_equal; [|apply IH, H2'].
  destruct Hf as (_ & s & Es & Fs). destruct Hg as (_ & s' & Es' & Fs').
  rewrite Es in Es'. apply Ok_inj in Es'. subst s'.
  rewrite Fs in Fs'. now apply Ok_inj in Fs'.
Qed.

(** X10.  The confidence scores depend on the sales quantities alone:
    two requests with the same quantities get the same twelve scores,
    whatever their trend signals, regulation flags, product ids and
    timestamps are. *)
Theorem X10_confidence_ignores_signals (now1 now2 : string)
  (i1 i2 : ForecastInputs) (r1 r2 : ForecastResponse) :
  map quantity (sales_history i1) = map quantity (sales_history i2) ->
  predict now1 i1 = Ok r1 ->
  predict now2 i2 = Ok r2 ->
  map confidence_score (Response.forecasts r1)
  = map confidence_score (Response.forecasts r2).
Proof.
  intros Hq H1 H2.
  assert (Hs : _parse_sales_history (sales_history i1)
               = _parse_sales_history (sales_history i2)) by exact Hq.
  destruct (len (_parse_sales_history (sales_history i1)) <? 7) eqn:L.
  - rewrite (conservative_scores now1 i1 r1 H1 L).
    rewrite Hs in L. now rewrite (conservative_scores now2 i2 r2 H2 L).
  - pose proof (predict_month_fields now1 i1 r1 H1 L) as M1.
    rewrite Hs in L.
    pose proof (predict_month_fields now2 i2 r2 H2 L) as M2.
    cbv zeta in M1, M2. rewrite Hs in M1.
    exact (month_scores_unique _ _ _ _ M1 M2).
Qed.

Lemma X10_witness :
  exists r1 r2,
    predict "2024-07-01T00:00:00" steady_inputs = Ok r1
    /\ predict "2024-07-02T00:00:00"
         (with_flags steady_inputs [negative_flag]) = Ok r2
    /\ map confidence_score (Response.forecasts r1)
       = map confidence_score (Response.forecasts r2).
Proof.
  destruct (predict "2024-07-01T00:00:00" steady_inputs) as [r1|e] eqn:E1;
    [|vm_compute in E1; discriminate].
  destruct (predict "2024-07-02T00:00:00"
              (with_flags steady_inputs [negative_flag])) as [r2|e] eqn:E2;
    [|vm_compute in E2; discriminate].
  exists r1, r2. split; [reflexivity|]. split; [reflexivity|].
  apply (X10_confidence_ignores_signals
           "2024-07-01T00:00:00" "2024-07-02T00:00:00" steady_inputs
           (with_flags steady_inputs [negative_flag]) r1 r2 eq_refl E1 E2).
Defined.

(** ** Flags that are neither positive nor negative *)

Lemma digits_shift (m : positive) (k : Z) :
  0 <= k -> Zdigits2 (Zpos m * 2 ^ k) = digits m + k.
Proof.
  intros Hk. pose proof (digits_bounds m) as [L U].
  pose proof (digits_pos m) as D. pose proof (pow2_pos k Hk) as P.
  destruct (Zpos m * 2 ^ k) as [|p|p] eqn:E; try lia.
  change (Zdigits2 (Zpos p)) with (digits p).
  apply Z.le_antisymm.
  - apply digits_le. rewrite <- E, pow2_split by lia. nia.
  - apply digits_ge. rewrite <- E.
    replace (digits m + k - 1) with (digits m - 1 + k) by lia.
    rewrite pow2_split by lia. nia.
Qed.

(** Multiplying a well-formed float by [1.0] gives it back. *)
Lemma fmul_one (x : float) : wf x -> fmul x f1_0 = x.
Proof.
  destruct x as [s|s| |s m e]; cbn [wf]; intros W;
    [destruct s; reflexivity | destruct s; reflexivity | reflexivity |].
  destruct W as [C B].
  unfold fmul, SFmul, f1_0. rewrite xorb_false_r.
  rewrite bra_exact by lia. cbv zeta.
  assert (Em : Zpos (m * 4503599627370496) = Zpos m * 2 ^ 52) by reflexivity.
  rewrite Em.
  assert (K : bra_k (Zpos m * 2 ^ 52) (e + -52) = 52).
  { unfold bra_k. rewrite digits_shift by lia.
    replace (digits m + 52 + (e + -52)) with (digits m + e) by lia.
    rewrite <- C. lia. }
  unfold bra_m. rewrite K, rn_exact by (apply pow2_pos; lia).
  replace (e + -52 + 52) with e by lia.
  assert (K2 : bra_k (Zpos m) e = 0).
  { unfold bra_k. change (Zdigits2 (Zpos m)) with (digits m).
    rewrite <- C. lia. }
  rewrite K2, Z.pow_0_r, Z.div_1_r, Z.add_0_r.
  destruct (Z.leb_spec e 971); [reflexivity | lia].
Qed.

Lemma bra_not_nan (sx : bool) (m : positive) (e : Z) :
  shift_ok m e ->
  binary_round_aux prec emax sx (Zpos m) e loc_Exact <> S754_nan.
Proof.
  intros H E. pose proof (bra_pos sx m e H) as B. now rewrite E in B.
Qed.

Lemma Z2F_not_nan (z : Z) : Z2F z <> S754_nan.
Proof.
  unfold Z2F, binary_normalize.
  destruct z as [|p|p]; [discriminate| |];
    unfold binary_round, shl_align; rewrite fexp64_eq;
    change (Zpos (digits2_pos p)) with (digits p);
    destruct (fexp64 (digits p + 0) - 0) as [|k|k] eqn:Es;
    apply bra_not_nan; unfold shift_ok; try lia;
    rewrite digits_iter_xO;
    replace (digits p + Zpos k + fexp64 (digits p + 0)) with (digits p + 0)
      by lia; lia.
Qed.

Lemma neutral_total (flags : list RegulationFlag) (t : float) :
  Forall neutral flags -> fold_left contribution flags t = t.
Proof.
  intros H. revert t. induction H as [|f flags [Hp Hn] _ IH]; intros t;
    [reflexivity|].
  cbn [fold_left]. unfold contribution at 2.
  apply String.eqb_neq in Hp, Hn. rewrite Hp, Hn. apply IH.
Qed.

Lemma regulation_factor_neutral (flags : list RegulationFlag) (r : num) :
  flags <> [] -> Forall neutral flags ->
  _calculate_regulation_impact flags = Ok r ->
  add (PyFloat f1_0) r = Ok (PyFloat f1_0).
Proof.
  intros N H. unfold _calculate_regulation_impact.
  destruct flags as [|flag flags]; [contradiction|].
  rewrite regulation_total, (neutral_total _ _ H). cbn [bind].
  unfold truediv. cbn [to_float bind]. intros E. inv_bind E.
  unfold float_of_int in E0.
  pose proof (Z2F_not_nan (len (flag :: flags))) as NN.
  destruct (Z2F (len (flag :: flags))) as [s|s| |s m e];
    [|discriminate|contradiction|];
    cbn in E0; apply Ok_inj in E0; subst v; cbn in E; [discriminate|].
  apply Ok_inj in E. subst r. destruct s; reflexivity.
Qed.

Lemma Forall2_eq_list {A : Type} (l l' : list A) :
  Forall2 (fun a a' => a' = a) l l' -> l' = l.
Proof. induction 1; congruence. Qed.

Lemma exogenous_neutral (base adj0 adj1 : list num)
  (td : option (list TrendSignal)) (rf : option (list RegulationFlag))
  (flags : list RegulationFlag) (ef : option dict) :
  Forall fwf base ->
  truthy rf = false -> flags <> [] -> Forall neutral flags ->
  _apply_exogenous_signals base td rf ef = Ok adj0 ->
  _apply_exogenous_signals base td (Some flags) ef = Ok adj1 ->
  adj1 = adj0.
Proof.
  intros Wb Hr N Hn H0 H1.
  destruct (exogenous_fwf _ _ _ _ _ H0 Wb) as [W0 _].
  unfold _apply_exogenous_signals in H0, H1.
  inv_bind H0. inv_bind H1. rewrite E in E0. apply Ok_inj in E0. subst v0.
  rewrite Hr in H0. cbn [bind] in H0. apply Ok_inj in H0. subst adj0.
  assert (T : truthy (Some flags) = true)
    by (destruct flags; [contradiction | reflexivity]).
  rewrite T in H1. cbn [opt_list] in H1.
  inv_bind H1. apply Ok_inj in H1. subst adj1. inv_bind E0.
  rewrite (regulation_factor_neutral flags v1 N Hn E1) in E0.
  apply scale_each_const in E0.
  apply Forall2_eq_list.
  refine (Forall2_fwf_impl _ _ _ _ _ W0 E0).
  intros a a' Wa M. destruct a as [|x]; [contradiction|].
  apply Ok_inj in M. subst a'. now rewrite (fmul_one x Wa).
Qed.

(** X8.  Regulation flags whose impact is neither "positive" nor
    "negative" change no forecast: adding any non-empty list of such flags
    to a request that has none leaves the twelve monthly forecasts
    (quantities, bounds and scores) as they were. *)
Theorem X8_neutral_flags_change_nothing (now : string)
  (inputs : ForecastInputs) (flags : list RegulationFlag)
  (r0 r1 : ForecastResponse) :
  truthy (regulation_flags inputs) = false ->
  flags <> [] ->
  Forall (fun f => impact f <> "positive" /\ impact f <> "negative") flags ->
  predict now inputs = Ok r0 ->
  predict now (with_flags inputs flags) = Ok r1 ->
  Response.forecasts r1 = Response.forecasts r0.
Proof.
  intros Hr N Hn H0 H1.
  unfold predict in H0, H1.
  cbn [with_flags sales_history trends_data regulation_flags
       exogenous_factors product_id] in H1.
  destruct (len (_parse_sales_history (sales_history inputs)) <? 7).
  - apply Ok_inj in H0, H1. now subst r0 r1.
  - do 3 inv_bind H0. do 3 inv_bind H1.
    rewrite E in E2. apply Ok_inj in E2. subst v2.
    destruct (base_forecast_fwf _ _ E) as [Wb _].
    pose proof (exogenous_neutral _ _ _ _ _ _ _ Wb Hr N Hn E0 E3) as Ea.
    subst v3. rewrite E1 in E4. apply Ok_inj in E4. subst v4.
    apply Ok_inj in H0, H1. now subst r0 r1.
Qed.

Lemma X8_witness :
  exists r0 r1,
    predict "2024-07-01T00:00:00" steady_inputs = Ok r0
    /\ predict "2024-07-01T00:00:00"
         (with_flags steady_inputs [neutral_flag; neutral_flag]) = Ok r1
    /\ Response.forecasts r1 = Response.forecasts r0.
Proof.
  destruct (predict "2024-07-01T00:00:00" steady_inputs) as [r0|e] eqn:E0;
    [|vm_compute in E0; discriminate].
  destruct (predict "2024-07-01T00:00:00"
              (with_flags steady_inputs [neutral_flag; neutral_flag]))
    as [r1|e] eqn:E1; [|vm_compute in E1; discriminate].
  exists r0, r1. split; [reflexivity|]. split; [reflexivity|].
  apply (X8_neutral_flags_change_nothing "2024-07-01T00:00:00" steady_inputs
           [neutral_flag; neutral_flag] r0 r1); try assumption.
  - reflexivity.
  - discriminate.
  - repeat (apply Forall_cons; [split; discriminate|]). apply Forall_nil.
Defined.

(** ** Which exceptions can be raised *)

Lemma safe_ok {A : Type} (a : A) : range_errors_only (Ok a).
Proof. exact I. Qed.

Lemma safe_bind {A B : Type} (c : result A) (k : A -> result B) :
  range_errors_only c ->
  (forall a, c = Ok a -> range_errors_only (k a)) ->
  range_errors_only (bind c k).
Proof.
  destruct c as [a|e]; cbn; intros Hc Hk; [apply Hk; reflexivity | exact Hc].
Qed.

Lemma safe_float_of_int (z : Z) : range_errors_only (float_of_int z).
Proof.
  unfold float_of_int. destruct (is_inf (Z2F z)); cbn; auto.
Qed.

Lemma safe_to_float (a : num) : range_errors_only (to_float a).
Proof. destruct a; [apply safe_float_of_int | exact I]. Qed.

Lemma safe_lift2 (fz : Z -> Z -> Z) (ff : float -> float -> float)
  (a b : num) : range_errors_only (lift2 fz ff a b).
Proof.
  unfold lift2. destruct a as [x|x], b as [y|y]; try exact I;
    (apply safe_bind; [apply safe_to_float|]; intros u _;
     apply safe_bind; [apply safe_to_float|]; intros v _; exact I).
Qed.

Lemma safe_add (a b : num) : range_errors_only (add a b).
Proof. apply safe_lift2. Qed.

Lemma safe_sub (a b : num) : range_errors_only (sub a b).
Proof. apply safe_lift2. Qed.

Lemma safe_mul (a b : num) : range_errors_only (mul a b).
Proof. apply safe_lift2. Qed.

Lemma safe_int_truediv (a b : Z) :
  b <> 0 -> range_errors_only (int_truediv a b).
Proof.
  intros H. unfold int_truediv. destruct b as [|p|p]; [contradiction| |];
    destruct a; try exact I;
    match goal with |- context [is_inf ?q] => destruct (is_inf q) end;
    cbn; auto.
Qed.

Lemma rnd_units_pos (m : positive) (e : Z) :
  shift_ok m e ->
  fexp64 (digits m + e) - e <= digits m - 1 ->
  1 <= rnd_units m e.
Proof.
  intros S H. unfold rnd_units, shift_ok in *.
  pose proof (digits_bounds m) as [L _]. pose proof (digits_pos m).
  apply rn_ge; [apply pow2_pos; lia|].
  assert (2 ^ (fexp64 (digits m + e) - e) <= 2 ^ (digits m - 1))
    by (apply Z.pow_le_mono_r; lia).
  lia.
Qed.

Lemma bra_not_zero (sx : bool) (m : positive) (e : Z) :
  shift_ok m e ->
  fexp64 (digits m + e) - e <= digits m - 1 ->
  is_zero (binary_round_aux prec emax sx (Zpos m) e loc_Exact) = false.
Proof.
  intros S H. pose proof (bra_pos sx m e S) as B.
  pose proof (rnd_units_pos m e S H).
  destruct (binary_round_aux prec emax sx (Zpos m) e loc_Exact);
    try reflexivity.
  destruct B as [_ B]. lia.
Qed.

Lemma binary_round_int_not_zero (sx : bool) (p : positive) :
  is_zero (binary_round prec emax sx p 0) = false.
Proof.
  unfold binary_round, shl_align. rewrite fexp64_eq.
  change (Zpos (digits2_pos p)) with (digits p).
  pose proof (digits_pos p) as D.
  destruct (fexp64 (digits p + 0) - 0) as [|k|k] eqn:Es.
  - apply bra_not_zero; unfold shift_ok; unfold fexp64 in *; lia.
  - apply bra_not_zero; unfold shift_ok; unfold fexp64 in *; lia.
  - assert (Ed : digits (Pos.iter xO p k) + fexp64 (digits p + 0)
                 = digits p + 0) by (rewrite digits_iter_xO; lia).
    apply bra_not_zero; unfold shift_ok; rewrite Ed.
    + lia.
    + rewrite digits_iter_xO. lia.
Qed.

Lemma Z2F_not_zero (z : Z) : z <> 0 -> is_zero (Z2F z) = false.
Proof.
  intros H. unfold Z2F, binary_normalize.
  destruct z; [contradiction| |]; apply binary_round_int_not_zero.
Qed.

Lemma safe_truediv (a b : num) : nonzero b -> range_errors_only (truediv a b).
Proof.
  intros H. unfold truediv.
  destruct a as [x|x], b as [y|y]; cbn [nonzero] in H.
  - apply safe_bind; [apply safe_int_truediv, H|]. intros; exact I.
  - cbn [to_float]. apply safe_bind; [apply safe_float_of_int|].
    intros u _. cbn [bind]. now rewrite H.
  - cbn [to_float bind]. apply safe_bind; [apply safe_float_of_int|].
    intros v Ev. unfold float_of_int in Ev.
    destruct (is_inf (Z2F y)); [discriminate|]. apply Ok_inj in Ev. subst v.
    now rewrite (Z2F_not_zero y H).
  - cbn [to_float bind]. now rewrite H.
Qed.

Lemma safe_square (a : num) : range_errors_only (square a).
Proof.
  destruct a as [x|x]; cbn; [exact I|].
  destruct (is_inf (fmul x x) && negb (is_inf x)); cbn; auto.
Qed.

Lemma safe_sqrt (a : num) : range_errors_only (sqrt a).
Proof.
  unfold sqrt. apply safe_bind; [apply safe_to_float|].
  intros x _. destruct x as [s|[]| |[] m e]; cbn; auto.
Qed.

Lemma safe_to_int (a : num) : range_errors_only (to_int a).
Proof. destruct a as [z|[s|s| |s m e]]; cbn; auto. Qed.

Lemma safe_foldM {A B : Type} (f : A -> B -> result A) (l : list B) (a : A) :
  (forall a x, In x l -> range_errors_only (f a x)) ->
  range_errors_only (foldM f a l).
Proof.
  revert a. induction l as [|x l IH]; intros a H; cbn; [exact I|].
  apply safe_bind; [apply H; now left|].
  intros a' _. apply IH. intros a'' y Hy. apply H. now right.
Qed.

Lemma safe_mapM {A B : Type} (f : A -> result B) (l : list A) :
  (forall x, In x l -> range_errors_only (f x)) ->
  range_errors_only (mapM f l).
Proof.
  induction l as [|x l IH]; intros H; cbn; [exact I|].
  apply safe_bind; [apply H; now left|]. intros y _.
  apply safe_bind; [apply IH; intros z Hz; apply H; now right|].
  intros; exact I.
Qed.

Lemma getitem_range {A : Type} (data : list A) (i : Z) :
  In i (range 0 (len data)) -> exists x, getitem data i = Ok x.
Proof.
  unfold range, getitem, len. intros H. apply in_map_iff in H.
  destruct H as (j & <- & Hj). apply in_seq in Hj.
  rewrite Z.add_0_l, Nat2Z.id.
  destruct (nth_error data j) eqn:E; [eauto|].
  apply nth_error_None in E. lia.
Qed.

Lemma eqb_zero_nonzero (b : num) : eqb b (PyInt 0) = false -> nonzero b.
Proof.
  unfold eqb, compare. destruct b as [z|[s|s| |s m e]]; cbn; intros H;
    try reflexivity; try discriminate.
  intros ->. discriminate.
Qed.

Lemma ltb_zero_nonzero (b : num) : ltb (PyInt 0) b = true -> nonzero b.
Proof.
  unfold ltb, compare. destruct b as [z|[s|s| |s m e]]; cbn; intros H;
    try reflexivity; try discriminate.
  intros ->. discriminate.
Qed.

Lemma len_nonneg {A : Type} (l : list A) : 0 <= len l.
Proof. unfold len. lia. Qed.

Lemma safe_sma (data : list Z) (period : Z) :
  range_errors_only (_simple_moving_average data period).
Proof.
  unfold _simple_moving_average.
  destruct (Z.eqb_spec (if len data <? period then len data else period) 0);
    [exact I|].
  apply safe_truediv. assumption.
Qed.

Lemma safe_es (data : list Z) (alpha : float) :
  range_errors_only (_exponential_smoothing data alpha).
Proof.
  unfold _exponential_smoothing. destruct data as [|d0 rest]; [exact I|].
  apply safe_foldM. intros r v _.
  apply safe_bind; [apply safe_mul|]. intros a _.
  apply safe_bind; [apply safe_sub|]. intros c _.
  apply safe_bind; [apply safe_mul|]. intros b _. apply safe_add.
Qed.

Lemma safe_sum_gen {A : Type} (f : A -> result num) (l : list A) :
  (forall x, In x l -> range_errors_only (f x)) ->
  range_errors_only (sum_gen f l).
Proof.
  intros H. unfold sum_gen. apply safe_foldM. intros acc x Hx.
  apply safe_bind; [apply H, Hx|]. intros t _. apply safe_add.
Qed.

Lemma safe_trend (data : list Z) : range_errors_only (_trend_projection data).
Proof.
  unfold _trend_projection.
  destruct (Z.ltb_spec (len data) 2) as [S|B].
  { destruct data; exact I. }
  apply safe_bind; [apply safe_truediv; cbn; lia|]. intros x_mean _.
  apply safe_bind; [apply safe_truediv; cbn; lia|]. intros y_mean _.
  apply safe_bind.
  { apply safe_sum_gen. intros i Hi.
    apply safe_bind; [apply safe_sub|]. intros dx _.
    destruct (getitem_range data i Hi) as (x & Ex). rewrite Ex. cbn [bind].
    apply safe_bind; [apply safe_sub|]. intros dy _. apply safe_mul. }
  intros numerator _.
  apply safe_bind.
  { apply safe_sum_gen. intros i Hi.
    apply safe_bind; [apply safe_sub|]. intros dx _. apply safe_square. }
  intros denominator _.
  destruct (eqb denominator (PyInt 0)) eqn:E; [exact I|].
  apply safe_bind; [apply safe_truediv, eqb_zero_nonzero, E|].
  intros slope _.
  apply safe_bind; [apply safe_mul|]. intros sx _.
  apply safe_bind; [apply safe_sub|]. intros intercept _.
  apply safe_bind; [apply safe_mul|]. intros sn _. apply safe_add.
Qed.

Lemma safe_seasonal (data : list Z) :
  range_errors_only (_seasonal_adjustment data).
Proof.
  unfold _seasonal_adjustment.
  destruct (len data <? 30).
  - destruct (Z.ltb_spec 0 (len data)); [|exact I].
    apply safe_truediv. cbn. lia.
  - apply safe_truediv. cbn. lia.
Qed.

Lemma safe_base (sales_data : list Z) :
  range_errors_only (_calculate_base_forecast sales_data).
Proof.
  unfold _calculate_base_forecast.
  apply safe_bind; [apply safe_sma|]. intros sma _.
  apply safe_bind; [apply safe_es|]. intros es _.
  apply safe_bind; [apply safe_trend|]. intros trend _.
  apply safe_bind; [apply safe_seasonal|]. intros seasonal _.
  apply safe_bind; [apply safe_mul|]. intros t1 _.
  apply safe_bind; [apply safe_mul|]. intros t2 _.
  apply safe_bind; [apply safe_add|]. intros s12 _.
  apply safe_bind; [apply safe_mul|]. intros t3 _.
  apply safe_bind; [apply safe_add|]. intros s123 _.
  apply safe_bind; [apply safe_mul|]. intros t4 _.
  apply safe_bind; [apply safe_add|]. intros base_daily _.
  apply safe_bind; [apply safe_mul|]. intros monthly_base _.
  apply safe_mapM. intros month _.
  apply safe_bind; [apply safe_mul|]. intros d _.
  apply safe_bind; [apply safe_sub|]. intros decay _. apply safe_mul.
Qed.

(** X6.  The four estimators and their ensemble guard every division and
    every index: on any history, with any period and smoothing factor, they
    return a value or raise [OverflowError] or [ValueError], never
    [ZeroDivisionError] or [IndexError].  On the empty history each
    estimator returns [0.0], the moving average for any period that is not
    negative. *)
Theorem X6_estimators_guard_their_divisions (data : list Z) (period : Z)
  (alpha : float) :
  range_errors_only (_simple_moving_average data period)
  /\ range_errors_only (_exponential_smoothing data alpha)
  /\ range_errors_only (_trend_projection data)
  /\ range_errors_only (_seasonal_adjustment data)
  /\ range_errors_only (_calculate_base_forecast data)
  /\ (0 <= period ->
      _simple_moving_average [] period = Ok (PyFloat (S754_zero false)))
  /\ _exponential_smoothing [] alpha = Ok (PyFloat (S754_zero false))
  /\ _trend_projection [] = Ok (PyFloat (S754_zero false))
  /\ _seasonal_adjustment [] = Ok (PyFloat (S754_zero false)).
Proof.
  split; [apply safe_sma|]. split; [apply safe_es|].
  split; [apply safe_trend|]. split; [apply safe_seasonal|].
  split; [apply safe_base|].
  split.
  { intros H. unfold _simple_moving_average. cbn [List.length len Z.of_nat].
    destruct (Z.ltb_spec 0 period) as [P|P]; [reflexivity|].
    replace period with 0 by lia. reflexivity. }
  repeat split.
Qed.

Lemma X6_witness :
  range_errors_only (_simple_moving_average [3; 5] 7)
  /\ _simple_moving_average [] 7 = Ok (PyFloat (S754_zero false)).
Proof.
  destruct (X6_estimators_guard_their_divisions [3; 5] 7 f0_3)
    as (S & _ & _ & _ & _ & E & _).
  split; [exact S | apply E; lia].
Defined.

Lemma safe_mean (data : list Z) :
  1 <= len data -> range_errors_only (mean data).
Proof.
  intros H. unfold mean.
  destruct (Z.ltb_spec (len data) 1); [lia|].
  destruct (sumZ data mod len data =? 0); [exact I|].
  apply safe_bind; [apply safe_int_truediv; lia|]. intros; exact I.
Qed.

Lemma safe_variance (data : list Z) :
  2 <= len data -> range_errors_only (variance data).
Proof.
  intros H. unfold variance.
  destruct (Z.ltb_spec (len data) 2); [lia|].
  match goal with |- context [?p mod ?q =? 0] => destruct (p mod q =? 0) end;
    [exact I|].
  apply safe_bind; [apply safe_int_truediv; nia|]. intros; exact I.
Qed.

Lemma safe_trend_impact (trends_data : list TrendSignal) :
  range_errors_only (_calculate_trend_impact trends_data).
Proof.
  unfold _calculate_trend_impact. destruct trends_data as [|t l]; [exact I|].
  apply safe_bind.
  { apply safe_truediv. unfold nonzero, len. cbn [List.length]. lia. }
  intros avg _. apply safe_bind; [apply safe_sub|]. intros d _.
  apply safe_truediv. reflexivity.
Qed.

Lemma safe_regulation_impact (flags : list RegulationFlag) :
  range_errors_only (_calculate_regulation_impact flags).
Proof.
  unfold _calculate_regulation_impact. destruct flags as [|f l]; [exact I|].
  apply safe_bind.
  { apply safe_foldM. intros total flag _.
    destruct (String.eqb (impact flag) "positive").
    - apply safe_bind; [apply safe_mul|]. intros; apply safe_add.
    - destruct (String.eqb (impact flag) "negative"); [|exact I].
      apply safe_bind; [apply safe_mul|]. intros; apply safe_sub. }
  intros total _. apply safe_truediv. unfold nonzero, len.
  cbn [List.length]. lia.
Qed.

Lemma safe_scale_each (factor : Z -> result num) (adjusted : list num) :
  (forall i, range_errors_only (factor i)) ->
  range_errors_only (scale_each factor adjusted).
Proof.
  intros H. unfold scale_each. apply safe_mapM. intros ia _.
  apply safe_bind; [apply H|]. intros; apply safe_mul.
Qed.

Lemma safe_exogenous (base : list num) (td : option (list TrendSignal))
  (rf : option (list RegulationFlag)) (ef : option dict) :
  range_errors_only (_apply_exogenous_signals base td rf ef).
Proof.
  unfold _apply_exogenous_signals.
  apply safe_bind.
  { destruct (truthy td); [|exact I].
    apply safe_bind; [apply safe_trend_impact|]. intros ti _.
    apply safe_scale_each. intros i.
    apply safe_bind; [apply safe_mul|]. intros d _.
    apply safe_bind; [apply safe_sub|]. intros h _.
    apply safe_bind; [apply safe_mul|]. intros t _. apply safe_add. }
  intros adj _. apply safe_bind; [|intros; exact I].
  destruct (truthy rf); [|exact I].
  apply safe_bind; [apply safe_regulation_impact|]. intros ri _.
  apply safe_scale_each. intros i. apply safe_add.
Qed.

Lemma safe_confidence (sales_data : list Z) (month : Z) :
  range_errors_only (_calculate_confidence_score sales_data month).
Proof.
  unfold _calculate_confidence_score.
  destruct (len sales_data <? 7); [exact I|].
  apply safe_bind; [apply safe_truediv; reflexivity|]. intros q _.
  apply safe_bind; [apply safe_mul|]. intros d _.
  apply safe_bind; [apply safe_sub|]. intros hd _.
  apply safe_bind.
  { destruct (Z.ltb_spec 1 (len sales_data)); [|exact I].
    apply safe_bind; [apply safe_variance; lia|]. intros v _.
    apply safe_bind; [apply safe_mean; lia|]. intros m _.
    apply safe_bind.
    { destruct (ltb (PyInt 0) m) eqn:E; [|exact I].
      apply safe_bind; [apply safe_sqrt|]. intros s _.
      apply safe_truediv, ltb_zero_nonzero, E. }
    intros cv _. apply safe_bind; [apply safe_mul|]. intros h _.
    apply safe_bind; [apply safe_sub|]. intros; exact I. }
  intros vp _. apply safe_bind; [apply safe_mul|]. intros c _.
  apply safe_bind; [apply safe_mul|]. intros; exact I.
Qed.

(** X7.  [predict] never raises [ZeroDivisionError], [IndexError] or
    [StatisticsError], on any request: every division has a divisor that a
    guard or a length makes nonzero, every index is within the twelve
    forecasts, and the statistics are taken of at least 7 points.  What can
    be raised is [OverflowError] or [ValueError], from numbers too large
    for a float. *)
Theorem X7_predict_raises_only_range_errors (now : string)
  (inputs : ForecastInputs) :
  range_errors_only (predict now inputs).
Proof.
  unfold predict. destruct (len _ <? 7); [exact I|].
  apply safe_bind; [apply safe_base|]. intros base Eb.
  apply safe_bind; [apply safe_exogenous|]. intros adj Ea.
  apply safe_bind; [|intros; exact I].
  destruct (base_forecast_fwf _ _ Eb) as (Wb & Lb).
  destruct (exogenous_fwf _ _ _ _ _ Ea Wb) as (_ & La).
  apply safe_mapM. intros month Hm.
  assert (Hi : In (month - 1) (range 0 (len adj))).
  { unfold len. rewrite La, Lb. unfold range in *.
    apply in_map_iff in Hm. destruct Hm as (j & <- & Hj).
    apply in_seq in Hj. apply in_map_iff. exists j. split; [lia|].
    apply in_seq. cbn in *. lia. }
  destruct (getitem_range adj _ Hi) as (x & ->). cbn [bind].
  apply safe_bind; [apply safe_mul|]. intros l _.
  apply safe_bind; [apply safe_to_int|]. intros cl _.
  apply safe_bind; [apply safe_mul|]. intros u _.
  apply safe_bind; [apply safe_to_int|]. intros cu _.
  apply safe_bind; [apply safe_confidence|]. intros sc _.
  apply safe_bind; [apply safe_to_int|]. intros p _.
  apply safe_bind; [apply safe_to_float|]. intros; exact I.
Qed.
